(** * consul-ipam: the address allocation engine

    A shallow embedding of the repository layer of the IPAM service
    (package [persistence]: [CreateNetwork], [AllocateIP], [ReleaseIP],
    [GetIP], [UpdateIPHostname] and the helper [nextIP]) together with the
    parts of Go's [net] package and of the PostgreSQL schema those
    functions rely on, followed by the properties of the allocation
    engine that the specification states.

    Conventions of the embedding:
    - a [net.IP] is a byte slice, here a [list Z] of octets;
    - the two tables of the schema are lists of rows, kept in insertion
      order; a sequence backs each SERIAL column;
    - a transaction works on a copy of the tables; [Commit] publishes the
      copy, [Rollback] drops it (a sequence is not rolled back);
    - a statement fails for a reason of the schema (no row, a text that
      is not an address, the foreign key) or because the driver fails;
      which calls the driver fails is a parameter of every operation;
    - texts that cross the Go / SQL boundary are represented by the value
      they denote: the [inet] column holds the address PostgreSQL reads
      from [ip.String()], and parsing the text PostgreSQL prints gives
      back a [net.IP]. *)

From Stdlib Require Import ZArith Lia List String Sorted.
From stdpp Require Import base list strings gmap.

Local Open Scope Z_scope.

(* ================================================================= *)
(** ** Package [net]: addresses, masks and networks *)

Module Net.

(** [net.IP], a slice of bytes of length 4 or 16 (other lengths are
    not addresses, but the type allows them). *)
Definition IP := list Z.
Definition IPMask := list Z.

Definition IPv4len : nat := 4.
Definition IPv6len : nat := 16.

Definition v4InV6Prefix : list Z := [0; 0; 0; 0; 0; 0; 0; 0; 0; 0; 255; 255].

(** An octet. *)
Definition is_byte (b : Z) : bool := (0 <=? b) && (b <? 256).
Definition bytes_ok (p : list Z) : bool := forallb is_byte p.

(** [bytealg.Equal] *)
Fixpoint bytes_Equal (a b : list Z) : bool :=
  match a, b with
  | [], [] => true
  | x :: a', y :: b' => (x =? y) && bytes_Equal a' b'
  | _, _ => false
  end.

Definition isZeros (p : list Z) : bool := forallb (fun b => b =? 0) p.
Definition allFF (p : list Z) : bool := forallb (fun b => b =? 255) p.

(** [ip.To4()]; [None] is Go's nil. *)
Definition To4 (ip : IP) : option IP :=
  if (length ip =? IPv4len)%nat then Some ip
  else if (length ip =? IPv6len)%nat && isZeros (take 10 ip)
          && (ip !!! 10%nat =? 255) && (ip !!! 11%nat =? 255)
       then Some (take 4 (drop 12 ip))
       else None.

(** [ip.Equal(x)] *)
Definition Equal (ip x : IP) : bool :=
  if (length ip =? length x)%nat then bytes_Equal ip x
  else if (length ip =? IPv4len)%nat && (length x =? IPv6len)%nat
       then bytes_Equal (take 12 x) v4InV6Prefix && bytes_Equal ip (drop 12 x)
  else if (length ip =? IPv6len)%nat && (length x =? IPv4len)%nat
       then bytes_Equal (take 12 ip) v4InV6Prefix && bytes_Equal (drop 12 ip) x
  else false.

(** [CIDRMask(ones, bits)]: the loop that fills the mask, byte by byte. *)
Fixpoint CIDRMask_loop (l : nat) (n : Z) : IPMask :=
  match l with
  | O => []
  | S l' =>
      if 8 <=? n then 255 :: CIDRMask_loop l' (n - 8)
      else Z.lxor 255 (Z.shiftr 255 n) :: CIDRMask_loop l' 0
  end.

Definition CIDRMask (ones bits : Z) : option IPMask :=
  if negb (bits =? 8 * Z.of_nat IPv4len) && negb (bits =? 8 * Z.of_nat IPv6len) then None
  else if (ones <? 0) || (bits <? ones) then None
  else Some (CIDRMask_loop (Z.to_nat (bits / 8)) ones).

(** [ip.Mask(mask)] *)
Definition Mask (ip : IP) (mask : IPMask) : option IP :=
  let mask := if (length mask =? IPv6len)%nat && (length ip =? IPv4len)%nat
                 && allFF (take 12 mask)
              then drop 12 mask else mask in
  let ip := if (length mask =? IPv4len)%nat && (length ip =? IPv6len)%nat
               && bytes_Equal (take 12 ip) v4InV6Prefix
            then drop 12 ip else ip in
  if negb (length ip =? length mask)%nat then None
  else Some (zip_with Z.land ip mask).

(** [net.IPNet] *)
Record IPNet := { IPNet_IP : IP; IPNet_Mask : IPMask }.

Definition networkNumberAndMask (n : IPNet) : option (IP * IPMask) :=
  let oip := match To4 (IPNet_IP n) with
             | Some ip => Some ip
             | None => if (length (IPNet_IP n) =? IPv6len)%nat
                       then Some (IPNet_IP n) else None
             end in
  match oip with
  | None => None
  | Some ip =>
      if (length (IPNet_Mask n) =? IPv4len)%nat then
        if negb (length ip =? IPv4len)%nat then None else Some (ip, IPNet_Mask n)
      else if (length (IPNet_Mask n) =? IPv6len)%nat then
        if (length ip =? IPv4len)%nat then Some (ip, drop 12 (IPNet_Mask n))
        else Some (ip, IPNet_Mask n)
      else None
  end.

(** The comparison loop of [Contains]. *)
Fixpoint Contains_loop (nn m ip : list Z) : bool :=
  match nn, m, ip with
  | n0 :: nn', m0 :: m', x0 :: ip' =>
      if negb (Z.land n0 m0 =? Z.land x0 m0) then false
      else Contains_loop nn' m' ip'
  | _, _, _ => true
  end.

(** [n.Contains(ip)] *)
Definition Contains (n : IPNet) (ip : IP) : bool :=
  match networkNumberAndMask n with
  | None => false
  | Some (nn, m) =>
      let ip := match To4 ip with Some x => x | None => ip end in
      if negb (length ip =? length nn)%nat then false
      else Contains_loop nn m ip
  end.

(** The 16-byte form [net.ParseIP] returns for the text of an address. *)
Definition As16 (a : IP) : IP :=
  if (length a =? IPv4len)%nat then v4InV6Prefix ++ a else a.

(** [net.IPv4(a, b, c, d)]: the 16-byte form of an IPv4 address. *)
Definition IPv4 (a b c d : Z) : IP := v4InV6Prefix ++ [a; b; c; d].

(** The address as an unsigned big-endian number. *)
Definition ipval (ip : IP) : Z := fold_left (fun acc b => acc * 256 + b) ip 0.

End Net.
Export Net.

(* ================================================================= *)
(** ** [nextIP] *)

(** [next[j]++] on a byte. *)
Definition incr_byte (b : Z) : Z := (b + 1) mod 256.

(** The loop [for j := len(next) - 1; j >= 0; j--]; the first argument
    is [j + 1]. *)
Fixpoint nextIP_loop (j1 : nat) (next : IP) : IP :=
  match j1 with
  | O => next
  | S j =>
      let next' := <[j := incr_byte (next !!! j)]> next in
      if 0 <? next' !!! j then next' else nextIP_loop j next'
  end.

(** [nextIP]: the copy of [ip] is the list itself. *)
Definition nextIP (ip : IP) : IP := nextIP_loop (length ip) ip.

(** *** [nextIP] on a heap of backing arrays

    To say that [nextIP] leaves its argument alone, slices are modelled
    here as addresses of arrays in a heap: [make] allocates, [copy]
    fills, and the loop writes through the address [next]. *)
Module Heap.

Abbreviation heap := (gmap nat (list Z)).

Definition make (h : heap) (n : nat) : heap * nat :=
  let l := fresh (dom h) in (<[l := replicate n 0]> h, l).

Definition copy (h : heap) (dst src : nat) : heap :=
  match h !! dst, h !! src with
  | Some d, Some s =>
      let n := Nat.min (length d) (length s) in
      <[dst := take n s ++ drop n d]> h
  | _, _ => h
  end.

Definition load (h : heap) (p : nat) (j : nat) : Z :=
  match h !! p with Some a => a !!! j | None => 0 end.

Definition store (h : heap) (p : nat) (j : nat) (v : Z) : heap :=
  match h !! p with Some a => <[p := <[j := v]> a]> h | None => h end.

Fixpoint nextIP_loop (j1 : nat) (h : heap) (next : nat) : heap :=
  match j1 with
  | O => h
  | S j =>
      let h' := store h next j (incr_byte (load h next j)) in
      if 0 <? load h' next j then h' else nextIP_loop j h' next
  end.

Definition nextIP (h : heap) (ip : nat) : heap * nat :=
  let n := match h !! ip with Some a => length a | None => O end in
  let '(h1, next) := make h n in
  let h2 := copy h1 next ip in
  (nextIP_loop n h2 next, next).

End Heap.

(* ================================================================= *)
(** ** The PostgreSQL side: column types and the two tables

    From the schema of the README:
<<
    CREATE TABLE networks (id SERIAL PRIMARY KEY, cidr CIDR NOT NULL,
                           gateway INET NOT NULL);
    CREATE TABLE ip_addresses (id SERIAL PRIMARY KEY,
                               network_id INTEGER REFERENCES networks(id),
                               address INET NOT NULL, hostname TEXT,
                               status TEXT NOT NULL);
>>
*)

Module Pg.

(** A host address of type [inet]: 4 bytes (IPv4) or 16 bytes (IPv6).
    The repository only ever writes hosts, so the mask is left out. *)
Definition inet := list Z.

(** A value of type [cidr], or the text of one: address and prefix
    length. *)
Record cidr := { cidr_addr : list Z; cidr_bits : Z }.

(** The [inet] PostgreSQL reads from the text [ip.String()] prints:
    ["<nil>"] for an empty slice and ["?..."] for a slice that is not an
    address are rejected; an IPv4 address, also one held in 16 bytes, is
    printed in dotted form and read as IPv4. *)
Definition inet_of_String (ip : IP) : option inet :=
  if (length ip =? 0)%nat then None
  else if negb (length ip =? IPv4len)%nat && negb (length ip =? IPv6len)%nat then None
  else match To4 ip with
       | Some p4 => if (length p4 =? IPv4len)%nat then Some p4 else Some ip
       | None => Some ip
       end.

(** [net.ParseIP] of the text PostgreSQL prints for a host address
    (for [address::text], after the ["/32"] is cut off). *)
Definition ParseIP_of_text (a : inet) : option IP :=
  if (length a =? IPv4len)%nat || (length a =? IPv6len)%nat then Some (As16 a) else None.

(** Input of a [cidr]: octets, a prefix length that fits the family,
    and no bit set to the right of the mask. *)
Definition cidr_in (c : cidr) : option cidr :=
  let l := length (cidr_addr c) in
  if ((l =? IPv4len)%nat || (l =? IPv6len)%nat)
     && bytes_ok (cidr_addr c)
     && (0 <=? cidr_bits c) && (cidr_bits c <=? 8 * Z.of_nat l)
     && bytes_Equal (zip_with Z.land (cidr_addr c) (CIDRMask_loop l (cidr_bits c)))
                    (cidr_addr c)
  then Some c else None.

(** [net.ParseCIDR] of the text PostgreSQL prints for a [cidr]. *)
Definition ParseCIDR_of_text (c : cidr) : option IPNet :=
  let l := length (cidr_addr c) in
  if negb (l =? IPv4len)%nat && negb (l =? IPv6len)%nat then None
  else
    let bitlen := 8 * Z.of_nat l in
    if (cidr_bits c <? 0) || (bitlen <? cidr_bits c) then None
    else match CIDRMask (cidr_bits c) bitlen with
         | None => None
         | Some m =>
             Some {| IPNet_IP := default [] (Mask (As16 (cidr_addr c)) m);
                     IPNet_Mask := m |}
         end.

Record NetworkRow := {
  nr_id : Z;
  nr_cidr : cidr;
  nr_gateway : inet
}.

Record IPRow := {
  ir_id : Z;
  ir_network_id : Z;
  ir_address : inet;
  ir_hostname : option string;   (* TEXT, nullable *)
  ir_status : string
}.

Record DB := {
  networks : list NetworkRow;
  ip_addresses : list IPRow;
  networks_id_seq : Z;
  ip_addresses_id_seq : Z
}.

Definition empty_db : DB :=
  {| networks := []; ip_addresses := []; networks_id_seq := 0; ip_addresses_id_seq := 0 |}.

(** [sql.ErrNoRows] or another error, as [QueryRow(...).Scan] reports. *)
Inductive sql_error := ErrNoRows | ErrOther.

(** The calls of the repository into [database/sql]. Any of them can
    fail for a reason of the driver (a lost connection, a timeout); a
    [driver] tells which do. A statement that fails this way has no
    effect. *)
Inductive stmt :=
| StBegin
| StCommit
| StInsertNetwork
| StSelectHostname
| StSelectNetwork
| StSelectAddress
| StInsertIP
| StInsertIPIfAbsent (ip : list Z)
| StUpdateRelease
| StRowsAffected
| StSelectIP
| StSelectNetworkID
| StSelectHostnameOther
| StUpdateHostname.

Definition driver := stmt -> bool.

(** The driver that never fails. *)
Definition reliable : driver := fun _ => false.

(** [QueryRow]: the first row of the result, if there is one. *)
Definition QueryRow {A} (rows : list A) : option A := head rows.

(** [QueryRow(...).Scan(...)]: the row, [sql.ErrNoRows] when there is
    none, another error when the driver fails. *)
Definition Scan {A} (drv : driver) (st : stmt) (rows : list A) : sql_error + A :=
  if drv st then inl ErrOther
  else match QueryRow rows with
       | Some r => inr r
       | None => inl ErrNoRows
       end.

(** A transaction sees its own copy; what it leaves behind when it is
    rolled back is the advance of the sequences. *)
Definition Begin (db : DB) : DB := db.
Definition Commit (db tx : DB) : DB := tx.
Definition Rollback (db tx : DB) : DB :=
  {| networks := networks db; ip_addresses := ip_addresses db;
     networks_id_seq := networks_id_seq tx;
     ip_addresses_id_seq := ip_addresses_id_seq tx |}.

(** [hostname = $2]: never true of NULL. *)
Definition hostname_is (h : string) (r : IPRow) : bool :=
  match ir_hostname r with
  | Some x => String.eqb x h
  | None => false
  end.

(** [SELECT hostname FROM ip_addresses WHERE network_id = $1 AND hostname = $2] *)
Definition select_hostname (tx : DB) (networkID : Z) (hostname : string) : list IPRow :=
  List.filter (fun r => (ir_network_id r =? networkID) && hostname_is hostname r)
              (ip_addresses tx).

(** [... WHERE network_id = $1 AND hostname = $2 AND id != $3] *)
Definition select_hostname_other (tx : DB) (networkID : Z) (hostname : string) (id : Z)
  : list IPRow :=
  List.filter (fun r => (ir_network_id r =? networkID) && hostname_is hostname r
                        && negb (ir_id r =? id))
              (ip_addresses tx).

(** [SELECT cidr, gateway FROM networks WHERE id = $1] *)
Definition select_network (tx : DB) (networkID : Z) : list NetworkRow :=
  List.filter (fun n => nr_id n =? networkID) (networks tx).

(** [SELECT id, address::text FROM ip_addresses WHERE network_id = $1 AND address = $2] *)
Definition select_address (tx : DB) (networkID : Z) (a : inet) : list IPRow :=
  List.filter (fun r => (ir_network_id r =? networkID) && bytes_Equal (ir_address r) a)
              (ip_addresses tx).

(** [SELECT ... FROM ip_addresses WHERE id = $1] *)
Definition select_ip (tx : DB) (id : Z) : list IPRow :=
  List.filter (fun r => ir_id r =? id) (ip_addresses tx).

(** [INSERT INTO networks (cidr, gateway) VALUES ($1, $2) RETURNING id] *)
Definition insert_network (db : DB) (c : cidr) (g : inet) : DB * Z :=
  let id := networks_id_seq db + 1 in
  ({| networks := networks db ++ [{| nr_id := id; nr_cidr := c; nr_gateway := g |}];
      ip_addresses := ip_addresses db;
      networks_id_seq := id;
      ip_addresses_id_seq := ip_addresses_id_seq db |}, id).

(** [INSERT INTO ip_addresses (network_id, address, hostname, status)
     VALUES ($1, $2, $3, 'allocated') RETURNING id, address::text];
    the foreign key rejects a network that does not exist, after the
    sequence gave the row its id. *)
Definition insert_ip (tx : DB) (networkID : Z) (a : inet) (hostname : string)
  : DB * option (Z * inet) :=
  let id := ip_addresses_id_seq tx + 1 in
  if existsb (fun n => nr_id n =? networkID) (networks tx) then
    ({| networks := networks tx;
        ip_addresses := ip_addresses tx ++
          [{| ir_id := id; ir_network_id := networkID; ir_address := a;
              ir_hostname := Some hostname; ir_status := "allocated" |}];
        networks_id_seq := networks_id_seq tx;
        ip_addresses_id_seq := id |}, Some (id, a))
  else
    ({| networks := networks tx; ip_addresses := ip_addresses tx;
        networks_id_seq := networks_id_seq tx;
        ip_addresses_id_seq := id |}, None).

(** [UPDATE ip_addresses SET ... WHERE id = $1], with the number of rows
    it touched. *)
Definition update_ip (tx : DB) (id : Z) (f : IPRow -> IPRow) : DB * Z :=
  ({| networks := networks tx;
      ip_addresses := map (fun r => if ir_id r =? id then f r else r) (ip_addresses tx);
      networks_id_seq := networks_id_seq tx;
      ip_addresses_id_seq := ip_addresses_id_seq tx |},
   Z.of_nat (length (select_ip tx id))).

End Pg.
Export Pg.

(* ================================================================= *)
(** ** Package [domain] *)

Record Network := {
  Network_ID : Z;
  Network_CIDR : cidr;      (* the string, by the value it denotes *)
  Network_Gateway : IP
}.

Record IPAddress := {
  ID : Z;
  NetworkID : Z;
  Address : IP;
  Hostname : string;
  Status : string
}.

(** The errors of the repository, by the message each one formats. *)
Inductive error :=
| FailedCreateNetwork          (* "failed to create network: ..." *)
| FailedBeginTransaction       (* "failed to begin transaction: ..." *)
| HostnameInUse (h : string)   (* "hostname %s is already in use in this network" *)
| FailedHostnameCheck          (* "failed to check hostname uniqueness: ..." *)
| FailedGetNetworkDetails      (* "failed to get network details: ..." *)
| InvalidGatewayIP             (* "invalid gateway IP: ..." *)
| CannotAllocateGateway        (* "cannot allocate gateway address ..." *)
| AlreadyAllocated (ip : IP)   (* "IP address %s is already allocated" *)
| FailedCheckIP                (* "failed to check IP address: ..." *)
| FailedParseCIDR              (* "failed to parse network CIDR: ..." *)
| FailedAllocate               (* "failed to allocate IP address: ..." *)
| NoAvailable                  (* "no available IP addresses in the network" *)
| FailedCommit                 (* "failed to commit transaction: ..." *)
| FailedParseAllocated         (* "failed to parse allocated IP address: ..." *)
| FailedRelease                (* "failed to release IP address: ..." *)
| FailedRowsAffected           (* "failed to get rows affected: ..." *)
| IPNotFound                   (* "IP address not found" *)
| FailedGetIP                  (* "failed to get IP address: ..." *)
| FailedGetNetworkID           (* "failed to get network ID: ..." *)
| FailedUpdateHostname.        (* "failed to update IP hostname: ..." *)

Inductive result (A : Type) :=
| Ok (a : A)
| Err (e : error).
Arguments Ok {A} a.
Arguments Err {A} e.

(* ================================================================= *)
(** ** Package [persistence]: the repository *)

(** [CreateNetwork]: one INSERT outside any transaction; the id the
    store assigned is written back into the struct. *)
Definition CreateNetwork (drv : driver) (db : DB) (network : Network)
  : result Network * DB :=
  if drv StInsertNetwork then (Err FailedCreateNetwork, db)
  else
    match cidr_in (Network_CIDR network), inet_of_String (Network_Gateway network) with
    | Some c, Some g =>
        let '(db', id) := insert_network db c g in
        (Ok {| Network_ID := id;
               Network_CIDR := Network_CIDR network;
               Network_Gateway := Network_Gateway network |}, db')
    | _, _ => (Err FailedCreateNetwork, db)
    end.

(** The lookup of the explicit branch,
    [SELECT id, address::text ... WHERE network_id = $1 AND address = $2
     FOR UPDATE] with [requestedIP.String()] for [$2]: a text that is
    not an address is an error of the statement. *)
Definition lookup_address (drv : driver) (tx : DB) (networkID : Z) (ip : IP)
  : sql_error + IPRow :=
  match inet_of_String ip with
  | None => inl ErrOther
  | Some a => Scan drv StSelectAddress (select_address tx networkID a)
  end.

(** The insert of the explicit branch, with [requestedIP.String()] for
    the address. *)
Definition insert_requested (drv : driver) (tx : DB) (networkID : Z) (ip : IP)
    (hostname : string) : DB * (sql_error + Z * inet) :=
  if drv StInsertIP then (tx, inl ErrOther)
  else
    match inet_of_String ip with
    | None => (tx, inl ErrOther)
    | Some a =>
        match insert_ip tx networkID a hostname with
        | (tx', Some r) => (tx', inr r)
        | (tx', None) => (tx', inl ErrOther)
        end
    end.

(** The conditional insert of the first-available branch:
<<
    INSERT INTO ip_addresses (network_id, address, hostname, status)
    SELECT $1, $2, $3, 'allocated'
    WHERE NOT EXISTS (SELECT 1 FROM ip_addresses
                      WHERE network_id = $1 AND address = $2)
    RETURNING id, address::text
>>
*)
Definition insert_ip_if_absent (drv : driver) (tx : DB) (networkID : Z) (ip : IP)
    (hostname : string) : DB * (sql_error + Z * inet) :=
  if drv (StInsertIPIfAbsent ip) then (tx, inl ErrOther)
  else
    match inet_of_String ip with
    | None => (tx, inl ErrOther)
    | Some a =>
        match select_address tx networkID a with
        | _ :: _ => (tx, inl ErrNoRows)
        | [] =>
            match insert_ip tx networkID a hostname with
            | (tx', Some r) => (tx', inr r)
            | (tx', None) => (tx', inl ErrOther)
            end
        end
    end.

(** The variables of [AllocateIP] the loop of the first-available branch
    works on: the transaction, the [err] declared in that branch, and
    the two targets of [Scan]. *)
Record alloc_vars := {
  v_tx : DB;
  v_err : option sql_error;
  v_id : Z;
  v_addressStr : option inet     (* [None]: still the empty string *)
}.

Inductive loop_exit :=
| LoopEnd (v : alloc_vars)              (* condition false, or [break] *)
| LoopReturn (e : error) (tx : DB).     (* [return] from inside the loop *)

(** [for ip := nextIP(ipNet.IP); ipNet.Contains(ip); ip = nextIP(ip)],
    entered at the test of the condition; [None] when [fuel] iterations
    did not end it. *)
Fixpoint AllocateIP_loop (drv : driver) (fuel : nat) (networkID : Z) (hostname : string)
    (ipNet : IPNet) (gatewayIP : IP) (ip : IP) (v : alloc_vars) : option loop_exit :=
  if negb (Contains ipNet ip) then Some (LoopEnd v)
  else
    match fuel with
    | O => None
    | S fuel' =>
        if Equal ip gatewayIP
        then AllocateIP_loop drv fuel' networkID hostname ipNet gatewayIP (nextIP ip) v
        else
          match insert_ip_if_absent drv (v_tx v) networkID ip hostname with
          | (tx', inr (id, a)) =>
              Some (LoopEnd {| v_tx := tx'; v_err := None;
                               v_id := id; v_addressStr := Some a |})
          | (tx', inl ErrNoRows) =>
              AllocateIP_loop drv fuel' networkID hostname ipNet gatewayIP (nextIP ip)
                {| v_tx := tx'; v_err := Some ErrNoRows;
                   v_id := v_id v; v_addressStr := v_addressStr v |}
          | (tx', inl ErrOther) => Some (LoopReturn FailedAllocate tx')
          end
    end.

(** From [tx.Commit()] to the end of [AllocateIP]. A commit that fails
    leaves the transaction to the deferred [Rollback]. *)
Definition AllocateIP_commit (drv : driver) (db tx : DB) (networkID : Z)
    (hostname : string) (id : Z) (addressStr : option inet) : result IPAddress * DB :=
  if drv StCommit then (Err FailedCommit, Rollback db tx)
  else
    let db' := Commit db tx in
    match addressStr ≫= ParseIP_of_text with
    | None => (Err FailedParseAllocated, db')
    | Some address =>
        (Ok {| ID := id; NetworkID := networkID; Address := address;
               Hostname := hostname; Status := "allocated" |}, db')
    end.

(** [AllocateIP]; [requestedIP = None] is the nil slice. The result is
    [None] when the loop of the first-available branch does not end
    within [fuel] iterations. *)
Definition AllocateIP (drv : driver) (fuel : nat) (db : DB) (networkID : Z)
    (requestedIP : option IP) (hostname : string) : option (result IPAddress * DB) :=
  if drv StBegin then Some (Err FailedBeginTransaction, db)
  else
  let tx := Begin db in
  match Scan drv StSelectHostname (select_hostname tx networkID hostname) with
  | inr _ => Some (Err (HostnameInUse hostname), Rollback db tx)
  | inl ErrOther => Some (Err FailedHostnameCheck, Rollback db tx)
  | inl ErrNoRows =>
  match Scan drv StSelectNetwork (select_network tx networkID) with
  | inl _ => Some (Err FailedGetNetworkDetails, Rollback db tx)
  | inr n =>
  match ParseIP_of_text (nr_gateway n) with
  | None => Some (Err InvalidGatewayIP, Rollback db tx)
  | Some gatewayIP =>
  match requestedIP with
  | Some requestedIP =>
      if Equal requestedIP gatewayIP
      then Some (Err CannotAllocateGateway, Rollback db tx)
      else
        match lookup_address drv tx networkID requestedIP with
        | inr _ => Some (Err (AlreadyAllocated requestedIP), Rollback db tx)
        | inl ErrOther => Some (Err FailedCheckIP, Rollback db tx)
        | inl ErrNoRows =>
            match insert_requested drv tx networkID requestedIP hostname with
            | (tx', inl _) => Some (Err FailedAllocate, Rollback db tx')
            | (tx', inr (id, addressStr)) =>
                Some (AllocateIP_commit drv db tx' networkID hostname id (Some addressStr))
            end
        end
  | None =>
      match ParseCIDR_of_text (nr_cidr n) with
      | None => Some (Err FailedParseCIDR, Rollback db tx)
      | Some ipNet =>
          match AllocateIP_loop drv fuel networkID hostname ipNet gatewayIP
                  (nextIP (IPNet_IP ipNet))
                  {| v_tx := tx; v_err := None; v_id := 0; v_addressStr := None |} with
          | None => None
          | Some (LoopReturn e tx') => Some (Err e, Rollback db tx')
          | Some (LoopEnd v) =>
              match v_err v with
              | Some ErrNoRows => Some (Err NoAvailable, Rollback db (v_tx v))
              | _ =>
                  Some (AllocateIP_commit drv db (v_tx v) networkID hostname
                          (v_id v) (v_addressStr v))
              end
          end
      end
  end end end end.

(** [ReleaseIP]:
    [UPDATE ip_addresses SET status = 'available', hostname = NULL WHERE id = $1],
    outside any transaction. *)
Definition release_row (r : IPRow) : IPRow :=
  {| ir_id := ir_id r; ir_network_id := ir_network_id r; ir_address := ir_address r;
     ir_hostname := None; ir_status := "available" |}.

Definition ReleaseIP (drv : driver) (db : DB) (id : Z) : result unit * DB :=
  if drv StUpdateRelease then (Err FailedRelease, db)
  else
    let '(db', rowsAffected) := update_ip db id release_row in
    if drv StRowsAffected then (Err FailedRowsAffected, db')
    else if rowsAffected =? 0 then (Err IPNotFound, db')
    else (Ok tt, db').

(** [Scan] of a TEXT column into a Go [string]: NULL cannot be
    converted. *)
Definition Scan_string (col : option string) : sql_error + string :=
  match col with
  | Some s => inr s
  | None => inl ErrOther
  end.

(** [GetIP]; [Ok None] is the pair (nil, nil) returned when no row has
    the id. *)
Definition GetIP (drv : driver) (db : DB) (id : Z) : result (option IPAddress) :=
  match Scan drv StSelectIP (select_ip db id) with
  | inl ErrNoRows => Ok None
  | inl ErrOther => Err FailedGetIP
  | inr r =>
      match Scan_string (ir_hostname r) with
      | inl _ => Err FailedGetIP
      | inr hostname =>
          Ok (Some {| ID := ir_id r; NetworkID := ir_network_id r;
                      Address := default [] (ParseIP_of_text (ir_address r));
                      Hostname := hostname; Status := ir_status r |})
      end
  end.

(** [UpdateIPHostname] *)
Definition rename_row (hostname : string) (r : IPRow) : IPRow :=
  {| ir_id := ir_id r; ir_network_id := ir_network_id r; ir_address := ir_address r;
     ir_hostname := Some hostname; ir_status := ir_status r |}.

Definition UpdateIPHostname (drv : driver) (db : DB) (id : Z) (hostname : string)
  : result unit * DB :=
  if drv StBegin then (Err FailedBeginTransaction, db)
  else
  let tx := Begin db in
  match Scan drv StSelectNetworkID (select_ip tx id) with
  | inl _ => (Err FailedGetNetworkID, Rollback db tx)
  | inr r =>
      let networkID := ir_network_id r in
      match Scan drv StSelectHostnameOther
              (select_hostname_other tx networkID hostname id) with
      | inr _ => (Err (HostnameInUse hostname), Rollback db tx)
      | inl ErrOther => (Err FailedHostnameCheck, Rollback db tx)
      | inl ErrNoRows =>
          if drv StUpdateHostname then (Err FailedUpdateHostname, Rollback db tx)
          else
            let '(tx', rowsAffected) := update_ip tx id (rename_row hostname) in
            if drv StRowsAffected then (Err FailedRowsAffected, Rollback db tx')
            else if rowsAffected =? 0 then (Err IPNotFound, Rollback db tx')
            else if drv StCommit then (Err FailedCommit, Rollback db tx')
            else (Ok tt, Commit db tx')
      end
  end.

(* ================================================================= *)
(** ** Notions the properties are stated with *)

(** A host address as the store holds it. *)
Definition is_inet (a : inet) : bool :=
  (length a =? IPv4len)%nat || (length a =? IPv6len)%nat.

(** The [inet] an address is stored as: IPv4 in four bytes. *)
Definition to_inet (ip : IP) : inet := default ip (To4 ip).

(** What the column types guarantee of every stored row: a [cidr] is one
    [cidr_in] accepts, an [inet] is an address. *)
Definition wf_network (n : NetworkRow) : bool :=
  match cidr_in (nr_cidr n) with Some _ => true | None => false end
  && is_inet (nr_gateway n).

Definition wf_db (db : DB) : bool :=
  forallb wf_network (networks db)
  && forallb (fun r => is_inet (ir_address r)) (ip_addresses db).

(** Some row of the network, whatever its status, has the address. *)
Definition occupied (db : DB) (networkID : Z) (a : inet) : bool :=
  existsb (fun r => (ir_network_id r =? networkID) && bytes_Equal (ir_address r) a)
          (ip_addresses db).

(** The two tables hold the same rows. *)
Definition same_rows (db db' : DB) : Prop :=
  networks db' = networks db /\ ip_addresses db' = ip_addresses db.

(** The store with one more row: [a] allocated to [hostname] in the
    network, under the next id of the sequence. *)
Definition with_allocated (db : DB) (networkID : Z) (a : inet) (hostname : string) : DB :=
  {| networks := networks db;
     ip_addresses := ip_addresses db ++
       [{| ir_id := ip_addresses_id_seq db + 1; ir_network_id := networkID;
           ir_address := a; ir_hostname := Some hostname; ir_status := "allocated" |}];
     networks_id_seq := networks_id_seq db;
     ip_addresses_id_seq := ip_addresses_id_seq db + 1 |}.

(** The record [AllocateIP] returns for that row. *)
Definition allocated_record (db : DB) (networkID : Z) (a : inet) (hostname : string)
  : IPAddress :=
  {| ID := ip_addresses_id_seq db + 1; NetworkID := networkID; Address := As16 a;
     Hostname := hostname; Status := "allocated" |}.

(** Some row of the network, whatever its status, has the hostname. *)
Definition hostname_used (db : DB) (networkID : Z) (h : string) : bool :=
  existsb (fun r => (ir_network_id r =? networkID) && hostname_is h r) (ip_addresses db).

(** The same, among the rows with another id. *)
Definition hostname_used_by_other (db : DB) (networkID : Z) (h : string) (id : Z) : bool :=
  existsb (fun r => (ir_network_id r =? networkID) && hostname_is h r
                    && negb (ir_id r =? id))
          (ip_addresses db).

(** Some row of the network with status 'allocated' has the address,
    respectively the hostname. *)
Definition is_allocated (r : IPRow) : bool := String.eqb (ir_status r) "allocated".

Definition allocated_at (db : DB) (networkID : Z) (a : inet) : bool :=
  existsb (fun r => (ir_network_id r =? networkID) && bytes_Equal (ir_address r) a
                    && is_allocated r)
          (ip_addresses db).

Definition hostname_allocated (db : DB) (networkID : Z) (h : string) : bool :=
  existsb (fun r => (ir_network_id r =? networkID) && hostname_is h r && is_allocated r)
          (ip_addresses db).

(** The three shapes of an address: IPv4 in four bytes, IPv4 in sixteen
    bytes, IPv6. *)
Inductive ip_shape (a : IP) : Prop :=
| shape_v4 : length a = 4%nat -> To4 a = Some a -> ip_shape a
| shape_v4in6 x : length x = 4%nat -> a = v4InV6Prefix ++ x -> To4 a = Some x -> ip_shape a
| shape_v6 : length a = 16%nat -> To4 a = None -> ip_shape a.

(** The candidate sequence of the first-available branch: the addresses
    the loop of [AllocateIP] hands to the conditional insert when every
    insert is refused, in the order of the iteration. *)
Fixpoint candidates (fuel : nat) (ipNet : IPNet) (gatewayIP : IP) (ip : IP)
  : option (list IP) :=
  if negb (Contains ipNet ip) then Some []
  else
    match fuel with
    | O => None
    | S fuel' =>
        if Equal ip gatewayIP then candidates fuel' ipNet gatewayIP (nextIP ip)
        else cons ip <$> candidates fuel' ipNet gatewayIP (nextIP ip)
    end.

(** The first candidate of a list that no row of the network occupies. *)
Definition first_free (db : DB) (networkID : Z) (l : list IP) : option IP :=
  List.find (fun c => negb (occupied db networkID (to_inet c))) l.

(** The variables of the loop after the insert of [c] went through, and
    after nothing was inserted. *)
Definition vars_inserted (v : alloc_vars) (networkID : Z) (c : IP) (hostname : string)
  : alloc_vars :=
  {| v_tx := with_allocated (v_tx v) networkID (to_inet c) hostname;
     v_err := None;
     v_id := ip_addresses_id_seq (v_tx v) + 1;
     v_addressStr := Some (to_inet c) |}.

Definition vars_refused (v : alloc_vars) (err : option sql_error) : alloc_vars :=
  {| v_tx := v_tx v; v_err := err; v_id := v_id v; v_addressStr := v_addressStr v |}.

(** The address [k] steps of [nextIP] after [ip]. *)
Definition nth_after (ip : IP) (k : nat) : IP := Nat.iter k nextIP ip.

(** The octets [0 .. n-1], and the check, octet by octet, of what the
    last non-zero byte of a mask keeps of a byte. *)
Definition octets (n : nat) : list Z := map Z.of_nat (seq 0 n).

Definition mask_byte_check (n x : Z) : bool :=
  Z.land x (Z.lxor 255 (Z.shiftr 255 n)) =? x - x mod 2 ^ (8 - n).

(** Number of addresses of a block. *)
Definition block_size (c : cidr) : Z :=
  2 ^ (8 * Z.of_nat (length (cidr_addr c)) - cidr_bits c).

(* ================================================================= *)
(** ** Scenarios *)

Module Scenario.

(** The scenarios run on the reliable driver.

    Network "10.0.0.0/30" with gateway "10.0.0.1", created in an empty
    store; it gets id 1. *)
Definition net30 : Network :=
  {| Network_ID := 0;
     Network_CIDR := {| cidr_addr := [10; 0; 0; 0]; cidr_bits := 30 |};
     Network_Gateway := IPv4 10 0 0 1 |}.

Definition db_net30 : DB := snd (CreateNetwork reliable empty_db net30).

(** A gateway outside the block. *)
Definition net30_far_gateway : Network :=
  {| Network_ID := 0;
     Network_CIDR := {| cidr_addr := [10; 0; 0; 0]; cidr_bits := 30 |};
     Network_Gateway := IPv4 192 168 1 1 |}.

(** A driver that fails at [Commit] only. *)
Definition commit_fails : driver :=
  fun st => match st with StCommit => true | _ => false end.

(** The store after a call, when the call returned. *)
Definition after {A} (o : option (result A * DB)) (db : DB) : DB :=
  match o with Some (_, db') => db' | None => db end.

(** "10.0.0.2" allocated to "h1" by explicit request (record 1). *)
Definition db_one : DB :=
  after (AllocateIP reliable 0 db_net30 1 (Some (IPv4 10 0 0 2)) "h1") db_net30.

(** ... then released. *)
Definition db_released : DB := snd (ReleaseIP reliable db_one 1).

(** ... then given the hostname "h9" while still 'available'. *)
Definition db_renamed : DB := snd (UpdateIPHostname reliable db_released 1 "h9").

(** ... then "10.0.0.3" allocated to "h2" (record 2). *)
Definition db_two : DB :=
  after (AllocateIP reliable 0 db_renamed 1 (Some (IPv4 10 0 0 3)) "h2") db_renamed.

End Scenario.

(* ================================================================= *)
(** ** The read operations of the repository *)

(** The calls of [GetNetwork], [ListNetworks] and [ListIPs] into
    [database/sql] that the driver can fail: the query, and the fetch
    of the row at a given position ([rows.Next()]). *)
Inductive read_stmt :=
| StGetNetwork
| StQueryNetworks
| StQueryIPs
| StNext (k : nat).

Definition read_driver := read_stmt -> bool.

Definition read_reliable : read_driver := fun _ => false.

Inductive read_error :=
| FailedGetNetwork        (* "failed to get network: ..." *)
| FailedListNetworks      (* "failed to list networks: ..." *)
| FailedListIPs           (* "failed to list IP addresses: ..." *)
| FailedScanIPRow.        (* "failed to scan IP address row: ..." *)

(** The struct a row of [networks] is scanned into; the gateway is
    parsed, without a check of the result. *)
Definition network_of_row (n : NetworkRow) : Network :=
  {| Network_ID := nr_id n;
     Network_CIDR := nr_cidr n;
     Network_Gateway := default [] (ParseIP_of_text (nr_gateway n)) |}.

(** [GetNetwork]; [inr None] is the pair (nil, nil) returned when no row
    has the id. *)
Definition GetNetwork (drv : read_driver) (db : DB) (id : Z) : read_error + option Network :=
  if drv StGetNetwork then inl FailedGetNetwork
  else match QueryRow (select_network db id) with
       | None => inr None
       | Some n => inr (Some (network_of_row n))
       end.

(** The loop [for rows.Next()] of [ListNetworks], at the row of position
    [k]: when the driver fails to fetch a row the loop ends as at the
    last row ([rows.Err()] is not looked at). The three columns are NOT
    NULL, so [Scan] goes through. *)
Fixpoint ListNetworks_loop (drv : read_driver) (k : nat) (rows : list NetworkRow)
    (networks : list Network) : list Network :=
  match rows with
  | [] => networks
  | n :: rows' =>
      if drv (StNext k) then networks
      else ListNetworks_loop drv (S k) rows' (networks ++ [network_of_row n])
  end.

(** [ListNetworks]: [SELECT id, cidr, gateway FROM networks]. *)
Definition ListNetworks (drv : read_driver) (db : DB) : read_error + list Network :=
  if drv StQueryNetworks then inl FailedListNetworks
  else inr (ListNetworks_loop drv 0 (networks db) []).

(** The loop of [ListIPs]: a NULL hostname ends it with the error of
    [Scan]. *)
Fixpoint ListIPs_loop (drv : read_driver) (k : nat) (rows : list IPRow)
    (ips : list IPAddress) : read_error + list IPAddress :=
  match rows with
  | [] => inr ips
  | r :: rows' =>
      if drv (StNext k) then inr ips
      else match Scan_string (ir_hostname r) with
           | inl _ => inl FailedScanIPRow
           | inr hostname =>
               ListIPs_loop drv (S k) rows'
                 (ips ++ [{| ID := ir_id r; NetworkID := ir_network_id r;
                             Address := default [] (ParseIP_of_text (ir_address r));
                             Hostname := hostname; Status := ir_status r |}])
           end
  end.

(** [SELECT ... FROM ip_addresses WHERE network_id = $1] *)
Definition select_ips_of (db : DB) (networkID : Z) : list IPRow :=
  List.filter (fun r => ir_network_id r =? networkID) (ip_addresses db).

(** [ListIPs] *)
Definition ListIPs (drv : read_driver) (db : DB) (networkID : Z)
  : read_error + list IPAddress :=
  if drv StQueryIPs then inl FailedListIPs
  else ListIPs_loop drv 0 (select_ips_of db networkID) [].

(* ================================================================= *)
(** ** The stores the repository can produce *)

(** One call of a writing operation, with any arguments and any driver,
    that returned. *)
Inductive step (db db' : DB) : Prop :=
| step_CreateNetwork drv network res :
    CreateNetwork drv db network = (res, db') -> step db db'
| step_AllocateIP drv fuel networkID requestedIP hostname res :
    AllocateIP drv fuel db networkID requestedIP hostname = Some (res, db') -> step db db'
| step_ReleaseIP drv id res :
    ReleaseIP drv db id = (res, db') -> step db db'
| step_UpdateIPHostname drv id hostname res :
    UpdateIPHostname drv db id hostname = (res, db') -> step db db'.

(** The stores reached from the empty one. *)
Inductive reachable : DB -> Prop :=
| reachable_empty : reachable empty_db
| reachable_step db db' : reachable db -> step db db' -> reachable db'.

(** The ids of a table come from its sequence and no two rows share
    one. *)
Definition ids_ok (db : DB) : Prop :=
  0 <= networks_id_seq db /\ 0 <= ip_addresses_id_seq db
  /\ List.NoDup (map nr_id (networks db))
  /\ (forall n, In n (networks db) -> 0 < nr_id n <= networks_id_seq db)
  /\ List.NoDup (map ir_id (ip_addresses db))
  /\ (forall r, In r (ip_addresses db) -> 0 < ir_id r <= ip_addresses_id_seq db).

(** Every address record belongs to a network of the store. *)
Definition fk_ok (db : DB) : Prop :=
  forall r, In r (ip_addresses db) ->
            exists n, In n (networks db) /\ nr_id n = ir_network_id r.

(** No two records of a network have the same address. *)
Definition address_unique (db : DB) : Prop :=
  forall r1 r2, In r1 (ip_addresses db) -> In r2 (ip_addresses db) ->
                ir_network_id r1 = ir_network_id r2 ->
                ir_address r1 = ir_address r2 -> r1 = r2.

(** No two records of a network hold the same hostname. *)
Definition hostname_unique (db : DB) : Prop :=
  forall r1 r2 h, In r1 (ip_addresses db) -> In r2 (ip_addresses db) ->
                  ir_network_id r1 = ir_network_id r2 ->
                  ir_hostname r1 = Some h -> ir_hostname r2 = Some h -> r1 = r2.

(** Status and hostname go together: an 'allocated' record has a
    hostname, and a record has one of the two statuses. *)
Definition status_ok (db : DB) : Prop :=
  forall r, In r (ip_addresses db) ->
            (ir_status r = "allocated"%string /\ ir_hostname r <> None)
            \/ ir_status r = "available"%string.

(** What holds of every store the repository produces. *)
Definition store_inv (db : DB) : Prop :=
  wf_db db = true /\ ids_ok db /\ fk_ok db /\ address_unique db
  /\ hostname_unique db /\ status_ok db.

(** A candidate of the first-available selection in an IPv4 network: an
    address of the block that is neither the base address nor the
    gateway. *)
Definition is_candidate (c : cidr) (gatewayIP : IP) (a : IP) : Prop :=
  length a = 4%nat /\ bytes_ok a = true
  /\ Contains {| IPNet_IP := cidr_addr c;
                 IPNet_Mask := CIDRMask_loop 4 (cidr_bits c) |} a = true
  /\ a <> cidr_addr c /\ Equal a gatewayIP = false.

Module Scenario2.

(** A /31 whose only address besides the base is the gateway, and the
    network of all IPv4 addresses. *)
Definition net31 : Network :=
  {| Network_ID := 0;
     Network_CIDR := {| cidr_addr := [10; 0; 0; 0]; cidr_bits := 31 |};
     Network_Gateway := IPv4 10 0 0 1 |}.

Definition db_net31 : DB := snd (CreateNetwork reliable empty_db net31).

Definition net0 : Network :=
  {| Network_ID := 0;
     Network_CIDR := {| cidr_addr := [0; 0; 0; 0]; cidr_bits := 0 |};
     Network_Gateway := IPv4 0 0 0 1 |}.

Definition db_net0 : DB := snd (CreateNetwork reliable empty_db net0).

(** A store with the two networks, and a driver that fails to fetch the
    row at position [k] of a listing. *)
Definition db_two_nets : DB := snd (CreateNetwork reliable db_net31 net0).

Definition next_fails (k : nat) : read_driver :=
  fun st => match st with StNext j => Nat.eqb j k | _ => false end.

End Scenario2.

(* ================================================================= *)
(** * Properties *)

(* ================================================================= *)
(** ** Byte strings as numbers *)

Section Bytes.

Lemma is_byte_spec b : is_byte b = true <-> 0 <= b < 256.
Proof. unfold is_byte. rewrite andb_true_iff, Z.leb_le, Z.ltb_lt. tauto. Qed.

Lemma bytes_ok_app p q : bytes_ok (p ++ q) = bytes_ok p && bytes_ok q.
Proof. apply forallb_app. Qed.

Lemma bytes_ok_cons b p : bytes_ok (b :: p) = is_byte b && bytes_ok p.
Proof. reflexivity. Qed.

Lemma bytes_Equal_spec a b : bytes_Equal a b = true <-> a = b.
Proof.
  revert b. induction a as [|x a IH]; intros [|y b]; simpl; try (split; congruence).
  rewrite andb_true_iff, Z.eqb_eq, IH. split; [intros [-> ->]; reflexivity | intros [= -> ->]; auto].
Qed.

Lemma bytes_Equal_refl a : bytes_Equal a a = true.
Proof. apply bytes_Equal_spec. reflexivity. Qed.

Lemma ipval_snoc p b : ipval (p ++ [b]) = ipval p * 256 + b.
Proof. unfold ipval. rewrite fold_left_app. reflexivity. Qed.

Lemma ipval_app p q : ipval (p ++ q) = ipval p * 256 ^ Z.of_nat (length q) + ipval q.
Proof.
  induction q as [|b q IH] using rev_ind.
  - rewrite app_nil_r. simpl. change (ipval []) with 0. lia.
  - rewrite app_assoc, !ipval_snoc, IH, length_app. simpl length.
    rewrite Nat2Z.inj_add, Z.pow_add_r by lia. change (256 ^ Z.of_nat 1) with 256. ring.
Qed.

Lemma ipval_cons b p : ipval (b :: p) = b * 256 ^ Z.of_nat (length p) + ipval p.
Proof. change (b :: p) with ([b] ++ p). rewrite ipval_app. f_equal. Qed.

Lemma ipval_bound p : bytes_ok p = true -> 0 <= ipval p < 256 ^ Z.of_nat (length p).
Proof.
  induction p as [|b p IH] using rev_ind; intros Hok.
  - change (ipval []) with 0. simpl. lia.
  - rewrite bytes_ok_app, andb_true_iff in Hok. destruct Hok as [Hp Hb].
    simpl in Hb. rewrite andb_true_r in Hb. apply is_byte_spec in Hb.
    specialize (IH Hp). rewrite ipval_snoc, length_app. simpl length.
    rewrite Nat2Z.inj_add, Z.pow_add_r by lia. change (256 ^ Z.of_nat 1) with 256. lia.
Qed.

Lemma ipval_inj p q :
  length p = length q -> bytes_ok p = true -> bytes_ok q = true ->
  ipval p = ipval q -> p = q.
Proof.
  revert q. induction p as [|b p IH]; intros [|c q] Hlen Hp Hq Hv; simpl in Hlen; try discriminate.
  - reflexivity.
  - injection Hlen as Hlen. rewrite bytes_ok_cons, andb_true_iff in Hp, Hq.
    destruct Hp as [Hb Hp], Hq as [Hc Hq]. apply is_byte_spec in Hb, Hc.
    rewrite !ipval_cons, <- Hlen in Hv.
    pose proof (ipval_bound p Hp) as Bp. pose proof (ipval_bound q Hq) as Bq.
    rewrite <- Hlen in Bq.
    assert (b = c) by nia. subst c.
    f_equal. apply IH; auto. lia.
Qed.

End Bytes.

(* ================================================================= *)
(** ** [nextIP] is the successor *)

Lemma incr_byte_ok b : is_byte (incr_byte b) = true.
Proof. apply is_byte_spec. unfold incr_byte. apply Z.mod_pos_bound. lia. Qed.

Lemma nextIP_loop_step pre b post :
  nextIP_loop (S (length pre)) (pre ++ b :: post) =
  if 0 <? incr_byte b then pre ++ incr_byte b :: post
  else nextIP_loop (length pre) (pre ++ incr_byte b :: post).
Proof.
  cbn [nextIP_loop]. unfold IP.
  rewrite !lookup_total_app_r, Nat.sub_diag by lia. cbn [lookup_total list_lookup_total].
  rewrite insert_app_r_alt, Nat.sub_diag by lia. cbn [insert list_insert].
  rewrite lookup_total_app_r, Nat.sub_diag by lia. reflexivity.
Qed.

Lemma nextIP_loop_spec pre : forall post,
  bytes_ok pre = true ->
  let r := nextIP_loop (length pre) (pre ++ post) in
  length r = length (pre ++ post)
  /\ (bytes_ok post = true -> bytes_ok r = true)
  /\ ipval r = ((ipval pre + 1) mod 256 ^ Z.of_nat (length pre))
                 * 256 ^ Z.of_nat (length post) + ipval post.
Proof.
  induction pre as [|b pre IH] using rev_ind; intros post Hok r; subst r.
  - cbn [length nextIP_loop app]. change (ipval []) with 0.
    repeat split; auto.
  - rewrite bytes_ok_app, andb_true_iff in Hok. destruct Hok as [Hpre Hb].
    cbn in Hb. rewrite andb_true_r in Hb. apply is_byte_spec in Hb.
    rewrite <- app_assoc. cbn [app].
    replace (length (pre ++ [b])) with (S (length pre)) by (rewrite length_app; cbn; lia).
    rewrite nextIP_loop_step.
    pose proof (ipval_bound pre Hpre) as Bp.
    assert (Hpow : 256 ^ Z.of_nat (S (length pre)) = 256 ^ Z.of_nat (length pre) * 256).
    { rewrite Nat2Z.inj_succ, Z.pow_succ_r by lia. ring. }
    destruct (Z.ltb_spec 0 (incr_byte b)) as [Hpos|Hzero].
    + assert (Hlt : b < 255).
      { destruct (Z.eq_dec b 255) as [->|]; [change (incr_byte 255) with 0 in Hpos|]; lia. }
      assert (Hi : incr_byte b = b + 1) by (unfold incr_byte; apply Z.mod_small; lia).
      rewrite Hi. repeat split.
      * rewrite !length_app. reflexivity.
      * intros Hpost. rewrite bytes_ok_app, bytes_ok_cons, Hpre, Hpost.
        replace (is_byte (b + 1)) with true; [reflexivity|].
        symmetry. apply is_byte_spec. lia.
      * rewrite ipval_app, ipval_cons, ipval_snoc, Hpow.
        rewrite (Z.mod_small (ipval pre * 256 + b + 1)) by nia.
        cbn [length]. rewrite Nat2Z.inj_succ, Z.pow_succ_r by lia. ring.
    + assert (Hb255 : b = 255).
      { unfold incr_byte in Hzero. destruct (Z.eq_dec b 255); auto.
        rewrite Z.mod_small in Hzero by lia. lia. }
      subst b. change (incr_byte 255) with 0.
      destruct (IH (0 :: post) Hpre) as (Hl & Hbs & Hv).
      repeat split.
      * rewrite Hl, !length_app. reflexivity.
      * intros Hpost. apply Hbs. rewrite bytes_ok_cons, Hpost. reflexivity.
      * rewrite Hv, ipval_cons, ipval_snoc, Hpow.
        replace (ipval pre * 256 + 255 + 1) with ((ipval pre + 1) * 256) by ring.
        rewrite Z.mul_mod_distr_r by lia.
        cbn [length]. rewrite Nat2Z.inj_succ, Z.pow_succ_r by lia. ring.
Qed.

Lemma nextIP_length ip : length (nextIP ip) = length ip.
Proof.
  unfold nextIP. revert ip.
  assert (H : forall j ip, length (nextIP_loop j ip) = length ip).
  { induction j as [|j IH]; intros ip; cbn [nextIP_loop]; [reflexivity|].
    destruct (0 <? _); [|rewrite IH]; apply length_insert. }
  intros ip. apply H.
Qed.

Lemma nextIP_bytes_ok ip : bytes_ok ip = true -> bytes_ok (nextIP ip) = true.
Proof.
  intros Hok. unfold nextIP.
  destruct (nextIP_loop_spec ip [] Hok) as (_ & H & _).
  rewrite app_nil_r in H. apply H. reflexivity.
Qed.

Lemma nextIP_ipval ip :
  bytes_ok ip = true ->
  ipval (nextIP ip) = (ipval ip + 1) mod 256 ^ Z.of_nat (length ip).
Proof.
  intros Hok. unfold nextIP.
  destruct (nextIP_loop_spec ip [] Hok) as (_ & _ & H).
  rewrite app_nil_r in H. rewrite H. cbn [length]. change (ipval []) with 0.
  change (256 ^ Z.of_nat 0) with 1. lia.
Qed.

(** *** The heap version: the result is a fresh array, the argument and
    every other array stay as they were *)

Lemma heap_load_insert (h : Heap.heap) p a j : Heap.load (<[p := a]> h) p j = a !!! j.
Proof. unfold Heap.load. rewrite lookup_insert_eq. reflexivity. Qed.

Lemma heap_store_insert (h : Heap.heap) p a j v :
  Heap.store (<[p := a]> h) p j v = <[p := <[j := v]> a]> h.
Proof. unfold Heap.store. rewrite lookup_insert_eq, insert_insert_eq. reflexivity. Qed.

Lemma heap_nextIP_loop_insert j : forall (h : Heap.heap) p a,
  Heap.nextIP_loop j (<[p := a]> h) p = <[p := nextIP_loop j a]> h.
Proof.
  induction j as [|j IH]; intros h p a; cbn [Heap.nextIP_loop nextIP_loop]; [reflexivity|].
  rewrite heap_load_insert, heap_store_insert, heap_load_insert.
  destruct (0 <? _); [reflexivity | apply IH].
Qed.

Lemma heap_nextIP_spec (h : Heap.heap) (ip : nat) (a : list Z) :
  h !! ip = Some a ->
  let next := fresh (dom h) in
  h !! next = None /\ Heap.nextIP h ip = (<[next := nextIP a]> h, next).
Proof.
  intros Hip next.
  assert (Hfresh : h !! next = None).
  { apply not_elem_of_dom. apply is_fresh. }
  split; [exact Hfresh|].
  assert (Hne : next <> ip) by (intros ->; congruence).
  unfold Heap.nextIP, Heap.make. rewrite Hip. fold next.
  unfold Heap.copy. rewrite lookup_insert_eq, lookup_insert_ne, Hip by exact Hne.
  rewrite length_replicate, Nat.min_id, firstn_all, insert_insert_eq.
  rewrite skipn_all2 by (rewrite length_replicate; lia).
  rewrite app_nil_r, heap_nextIP_loop_insert. reflexivity.
Qed.


(* ================================================================= *)
(** ** The three shapes of an address *)

Ltac list_of_length l H :=
  repeat (let b := fresh "b" in destruct l as [|b l]; [discriminate H|]; cbn [length] in H);
  destruct l; [|discriminate H]; clear H.

Lemma To4_v4 a : length a = 4%nat -> To4 a = Some a.
Proof. intros H. unfold To4. rewrite H. reflexivity. Qed.

Lemma To4_v4in6 x : length x = 4%nat -> To4 (v4InV6Prefix ++ x) = Some x.
Proof. intros H. list_of_length x H. reflexivity. Qed.

Lemma To4_Some_16 a x :
  length a = 16%nat -> To4 a = Some x -> length x = 4%nat /\ a = v4InV6Prefix ++ x.
Proof.
  intros H. list_of_length a H. unfold To4. cbn -[Z.eqb].
  repeat match goal with
         | |- context [?u =? ?v] => destruct (Z.eqb_spec u v); [subst|]; cbn -[Z.eqb]
         end; try discriminate.
  intros [= <-]. split; reflexivity.
Qed.

Lemma is_inet_shape a : is_inet a = true -> ip_shape a.
Proof.
  unfold is_inet. rewrite orb_true_iff, !Nat.eqb_eq. intros [H|H].
  - apply shape_v4; [exact H | apply To4_v4, H].
  - destruct (To4 a) as [x|] eqn:E.
    + destruct (To4_Some_16 a x H E) as [Hx Ha]. eapply shape_v4in6; eauto.
    + apply shape_v6; auto.
Qed.

Lemma shape_is_inet a : ip_shape a -> is_inet a = true.
Proof.
  unfold is_inet. intros [H _|x H -> _|H _].
  - rewrite H. reflexivity.
  - rewrite length_app, H. reflexivity.
  - rewrite H. reflexivity.
Qed.

Lemma to_inet_is_inet a : is_inet a = true -> is_inet (to_inet a) = true.
Proof.
  intros H. destruct (is_inet_shape a H) as [Hl E|x Hl -> E|Hl E];
    unfold to_inet; rewrite E; cbn [default from_option id]; unfold is_inet.
  - rewrite Hl. reflexivity.
  - rewrite Hl. reflexivity.
  - rewrite Hl. reflexivity.
Qed.

Lemma inet_of_String_is_inet ip : is_inet ip = true -> inet_of_String ip = Some (to_inet ip).
Proof.
  intros H. destruct (is_inet_shape ip H) as [Hl E|x Hl -> E|Hl E];
    unfold inet_of_String, to_inet; rewrite E; cbn [default from_option id].
  - rewrite Hl. reflexivity.
  - rewrite length_app, Hl. reflexivity.
  - rewrite Hl. reflexivity.
Qed.

Lemma inet_of_String_Some ip a :
  inet_of_String ip = Some a -> is_inet ip = true /\ a = to_inet ip.
Proof.
  intros H. assert (Hi : is_inet ip = true).
  { unfold inet_of_String in H. unfold is_inet.
    destruct (length ip =? 0)%nat; [discriminate|].
    destruct (length ip =? IPv4len)%nat; [reflexivity|].
    destruct (length ip =? IPv6len)%nat; [reflexivity|discriminate]. }
  split; [exact Hi|]. rewrite inet_of_String_is_inet in H by exact Hi. congruence.
Qed.

(** Reading back what was stored gives the address in its 16-byte
    form. *)
Lemma ParseIP_of_text_is_inet a : is_inet a = true -> ParseIP_of_text a = Some (As16 a).
Proof. unfold ParseIP_of_text, is_inet. intros ->. reflexivity. Qed.

Lemma ParseIP_of_text_Some a ip : ParseIP_of_text a = Some ip -> is_inet a = true /\ ip = As16 a.
Proof.
  unfold ParseIP_of_text, is_inet. destruct (_ || _); [|discriminate].
  intros [= <-]. auto.
Qed.

Lemma to_inet_v4 a : length a = 4%nat -> to_inet a = a.
Proof. intros H. unfold to_inet. rewrite To4_v4 by exact H. reflexivity. Qed.

Lemma to_inet_v4in6 x : length x = 4%nat -> to_inet (v4InV6Prefix ++ x) = x.
Proof. intros H. unfold to_inet. rewrite To4_v4in6 by exact H. reflexivity. Qed.

Lemma As16_v4 a : length a = 4%nat -> As16 a = v4InV6Prefix ++ a.
Proof. intros H. unfold As16. rewrite H. reflexivity. Qed.

Lemma As16_16 a : length a = 16%nat -> As16 a = a.
Proof. intros H. unfold As16. rewrite H. reflexivity. Qed.

Lemma As16_to_inet_shape a : is_inet a = true ->
  is_inet (As16 (to_inet a)) = true /\ to_inet (As16 (to_inet a)) = to_inet a.
Proof.
  intros H. destruct (is_inet_shape a H) as [Hl E|x Hl -> E|Hl E].
  - rewrite (to_inet_v4 a Hl), (As16_v4 a Hl), (to_inet_v4in6 a Hl).
    split; [|reflexivity]. unfold is_inet. rewrite length_app, Hl. reflexivity.
  - rewrite (to_inet_v4in6 x Hl), (As16_v4 x Hl), (to_inet_v4in6 x Hl). auto.
  - assert (T : to_inet a = a) by (unfold to_inet; rewrite E; reflexivity).
    rewrite T, (As16_16 a Hl), T. auto.
Qed.

(** [Equal] compares the addresses two slices denote. *)
Lemma Equal_to_inet a b :
  is_inet a = true -> is_inet b = true ->
  (Equal a b = true <-> to_inet a = to_inet b).
Proof.
  intros Ha Hb.
  destruct (is_inet_shape a Ha) as [Hla Ea|x Hlx -> Ea|Hla Ea];
  destruct (is_inet_shape b Hb) as [Hlb Eb|y Hly -> Eb|Hlb Eb];
  unfold to_inet; rewrite Ea, Eb; cbn [default from_option id]; unfold Equal;
  rewrite ?length_app, ?Hla, ?Hlb, ?Hlx, ?Hly; change (length v4InV6Prefix) with 12%nat;
  cbn [Nat.add Nat.eqb IPv4len IPv6len andb].
  - apply bytes_Equal_spec.
  - rewrite take_app_length' by reflexivity. rewrite drop_app_length' by reflexivity.
    rewrite bytes_Equal_refl. apply bytes_Equal_spec.
  - rewrite andb_true_iff, !bytes_Equal_spec. split.
    + intros [H1 H2]. exfalso. rewrite <- (take_drop 12 b), H1, <- H2 in Eb.
      rewrite To4_v4in6 in Eb by exact Hla. discriminate.
    + intros ->. rewrite Hla in Hlb. discriminate.
  - rewrite take_app_length' by reflexivity. rewrite drop_app_length' by reflexivity.
    rewrite bytes_Equal_refl. apply bytes_Equal_spec.
  - rewrite bytes_Equal_spec. split; [intros H; apply app_inv_head in H; exact H | intros ->; reflexivity].
  - rewrite bytes_Equal_spec. split.
    + intros <-. congruence.
    + intros ->. rewrite Hlx in Hlb. discriminate.
  - rewrite andb_true_iff, !bytes_Equal_spec. split.
    + intros [H1 H2]. exfalso. rewrite <- (take_drop 12 a), H1, H2 in Ea.
      rewrite To4_v4in6 in Ea by exact Hlb. discriminate.
    + intros <-. rewrite Hla in Hlb. discriminate.
  - rewrite bytes_Equal_spec. split.
    + intros ->. congruence.
    + intros <-. rewrite Hly in Hla. discriminate.
  - apply bytes_Equal_spec.
Qed.

Lemma Equal_As16_to_inet a g :
  is_inet a = true -> is_inet g = true -> Equal (As16 (to_inet a)) g = Equal a g.
Proof.
  intros Ha Hg. destruct (As16_to_inet_shape a Ha) as [Hi Ht].
  apply eq_true_iff_eq. rewrite !Equal_to_inet, Ht by assumption. reflexivity.
Qed.

Lemma Equal_As16_inet_true a : is_inet a = true -> Equal (As16 (to_inet a)) a = true.
Proof.
  intros Ha. destruct (As16_to_inet_shape a Ha) as [Hi Ht].
  apply Equal_to_inet; assumption.
Qed.

Lemma Contains_to_inet n ip :
  Contains n ip =
  match networkNumberAndMask n with
  | None => false
  | Some (nn, m) =>
      if negb (length (to_inet ip) =? length nn)%nat then false
      else Contains_loop nn m (to_inet ip)
  end.
Proof. unfold Contains, to_inet. destruct (To4 ip); reflexivity. Qed.

Lemma Contains_As16_to_inet n a :
  is_inet a = true -> Contains n (As16 (to_inet a)) = Contains n a.
Proof.
  intros Ha. destruct (As16_to_inet_shape a Ha) as [_ Ht].
  rewrite !Contains_to_inet, Ht. reflexivity.
Qed.

Lemma networkNumberAndMask_length n nn m :
  networkNumberAndMask n = Some (nn, m) -> is_inet nn = true.
Proof.
  unfold networkNumberAndMask, is_inet.
  destruct (To4 (IPNet_IP n)) as [x|] eqn:E.
  - assert (Hx : length x = 4%nat).
    { unfold To4 in E. destruct (length (IPNet_IP n) =? IPv4len)%nat eqn:L.
      - injection E as <-. apply Nat.eqb_eq in L. exact L.
      - destruct (_ && _) eqn:C; [|discriminate]. injection E as <-.
        rewrite !andb_true_iff, Nat.eqb_eq in C. destruct C as [[[C _] _] _].
        rewrite length_take, length_drop, C. reflexivity. }
    rewrite Hx. cbn [Nat.eqb IPv4len negb].
    destruct (_ =? IPv4len)%nat; [intros [= <- <-]; rewrite Hx; reflexivity|].
    destruct (_ =? IPv6len)%nat; [intros [= <- <-]; rewrite Hx; reflexivity|discriminate].
  - destruct (length (IPNet_IP n) =? IPv6len)%nat eqn:L; [|discriminate].
    apply Nat.eqb_eq in L. rewrite L. cbn [Nat.eqb IPv4len IPv6len negb].
    destruct (_ =? IPv4len)%nat; [discriminate|].
    destruct (_ =? IPv6len)%nat; [intros [= <- <-]; rewrite L; reflexivity|discriminate].
Qed.

Lemma Contains_is_inet n ip : Contains n ip = true -> is_inet ip = true.
Proof.
  unfold Contains. destruct (networkNumberAndMask n) as [[nn m]|] eqn:E; [|discriminate].
  apply networkNumberAndMask_length in E.
  destruct (negb _) eqn:L; [discriminate|]. intros _.
  apply negb_false_iff, Nat.eqb_eq in L.
  destruct (To4 ip) as [x|] eqn:T.
  - unfold To4 in T. unfold is_inet.
    destruct (length ip =? IPv4len)%nat; [reflexivity|].
    destruct (_ && _) eqn:C; [|discriminate].
    rewrite !andb_true_iff in C. destruct C as [[[C _] _] _]. rewrite C. apply orb_true_r.
  - unfold is_inet in *. rewrite L. exact E.
Qed.

(* ================================================================= *)
(** ** Queries *)

Lemma QueryRow_filter_None {A} (p : A -> bool) (l : list A) :
  QueryRow (List.filter p l) = None <-> existsb p l = false.
Proof.
  unfold QueryRow. induction l as [|x l IH]; cbn [List.filter existsb head]; [tauto|].
  destruct (p x); cbn [head orb]; [split; discriminate | exact IH].
Qed.

Lemma QueryRow_filter_Some {A} (p : A -> bool) (l : list A) r :
  QueryRow (List.filter p l) = Some r -> In r l /\ p r = true.
Proof.
  unfold QueryRow. intros H.
  assert (Hin : In r (List.filter p l)).
  { destruct (List.filter p l); [discriminate|]. injection H as ->. left. reflexivity. }
  apply filter_In in Hin. exact Hin.
Qed.

Lemma QueryRow_filter_existsb {A} (p : A -> bool) (l : list A) :
  existsb p l = match QueryRow (List.filter p l) with Some _ => true | None => false end.
Proof.
  destruct (QueryRow (List.filter p l)) as [r|] eqn:E.
  - apply QueryRow_filter_Some in E. apply existsb_exists. eauto.
  - apply QueryRow_filter_None, E.
Qed.

Lemma select_hostname_used db networkID h :
  hostname_used db networkID h =
  match QueryRow (select_hostname db networkID h) with Some _ => true | None => false end.
Proof. apply QueryRow_filter_existsb. Qed.

Lemma select_hostname_other_used db networkID h id :
  hostname_used_by_other db networkID h id =
  match QueryRow (select_hostname_other db networkID h id) with
  | Some _ => true | None => false end.
Proof. apply QueryRow_filter_existsb. Qed.

Lemma select_address_occupied db networkID a :
  occupied db networkID a =
  match QueryRow (select_address db networkID a) with Some _ => true | None => false end.
Proof. apply QueryRow_filter_existsb. Qed.

Lemma select_address_nil db networkID a :
  occupied db networkID a =
  match select_address db networkID a with [] => false | _ :: _ => true end.
Proof.
  rewrite select_address_occupied. unfold QueryRow.
  destruct (select_address db networkID a); reflexivity.
Qed.

Lemma Rollback_same db : Rollback db db = db.
Proof. destruct db. reflexivity. Qed.

(** The foreign key holds whenever the network was found before. *)
Lemma select_network_exists db networkID n :
  QueryRow (select_network db networkID) = Some n ->
  existsb (fun n => nr_id n =? networkID) (networks db) = true.
Proof.
  intros H. unfold select_network in H. rewrite QueryRow_filter_existsb, H. reflexivity.
Qed.

Lemma insert_ip_ok db networkID a h :
  existsb (fun n => nr_id n =? networkID) (networks db) = true ->
  insert_ip db networkID a h =
  (with_allocated db networkID a h, Some (ip_addresses_id_seq db + 1, a)).
Proof. intros H. unfold insert_ip. rewrite H. reflexivity. Qed.

Lemma Rollback_same_rows db tx : same_rows db (Rollback db tx).
Proof. split; reflexivity. Qed.

Lemma same_rows_refl db : same_rows db db.
Proof. split; reflexivity. Qed.

Lemma Scan_reliable {A} st (rows : list A) :
  Scan reliable st rows =
  match QueryRow rows with Some r => inr r | None => inl ErrNoRows end.
Proof. reflexivity. Qed.

(** What a [Scan] can report, whatever the driver does. *)
Lemma Scan_cases {A} drv st (rows : list A) :
  (Scan drv st rows = inl ErrOther /\ drv st = true)
  \/ (drv st = false /\
      Scan drv st rows =
      match QueryRow rows with Some r => inr r | None => inl ErrNoRows end).
Proof. unfold Scan. destruct (drv st); auto. Qed.

Lemma insert_ip_if_absent_cases drv db networkID ip h :
  existsb (fun n => nr_id n =? networkID) (networks db) = true ->
  is_inet ip = true ->
  insert_ip_if_absent drv db networkID ip h = (db, inl ErrOther)
  \/ insert_ip_if_absent drv db networkID ip h =
     if occupied db networkID (to_inet ip) then (db, inl ErrNoRows)
     else (with_allocated db networkID (to_inet ip) h,
           inr (ip_addresses_id_seq db + 1, to_inet ip)).
Proof.
  intros Hfk Hip. unfold insert_ip_if_absent.
  destruct (drv _); [left; reflexivity|]. right.
  rewrite inet_of_String_is_inet by exact Hip.
  rewrite select_address_nil. destruct (select_address _ _ _); [|reflexivity].
  rewrite insert_ip_ok by exact Hfk. reflexivity.
Qed.

Lemma insert_ip_if_absent_spec db networkID ip h :
  existsb (fun n => nr_id n =? networkID) (networks db) = true ->
  is_inet ip = true ->
  insert_ip_if_absent reliable db networkID ip h =
  if occupied db networkID (to_inet ip) then (db, inl ErrNoRows)
  else (with_allocated db networkID (to_inet ip) h,
        inr (ip_addresses_id_seq db + 1, to_inet ip)).
Proof.
  intros Hfk Hip. unfold insert_ip_if_absent. cbn [reliable].
  rewrite inet_of_String_is_inet by exact Hip.
  rewrite select_address_nil. destruct (select_address _ _ _); [|reflexivity].
  rewrite insert_ip_ok by exact Hfk. reflexivity.
Qed.

Lemma AllocateIP_commit_is_inet drv db tx networkID h id a :
  is_inet a = true ->
  AllocateIP_commit drv db tx networkID h id (Some a) =
  if drv StCommit then (Err FailedCommit, Rollback db tx)
  else (Ok {| ID := id; NetworkID := networkID; Address := As16 a;
              Hostname := h; Status := "allocated" |}, tx).
Proof.
  intros Ha. unfold AllocateIP_commit. cbn [mbind option_bind].
  rewrite ParseIP_of_text_is_inet by exact Ha. reflexivity.
Qed.

(* ================================================================= *)
(** ** [AllocateIP] with an explicit address *)

(** The explicit branch on the reliable driver, step by step, on the
    store itself: every failure leaves the store as it was. *)
Lemma AllocateIP_explicit fuel db networkID requestedIP h :
  AllocateIP reliable fuel db networkID (Some requestedIP) h =
  if hostname_used db networkID h then Some (Err (HostnameInUse h), db)
  else match QueryRow (select_network db networkID) with
  | None => Some (Err FailedGetNetworkDetails, db)
  | Some n =>
  match ParseIP_of_text (nr_gateway n) with
  | None => Some (Err InvalidGatewayIP, db)
  | Some gatewayIP =>
      if Equal requestedIP gatewayIP then Some (Err CannotAllocateGateway, db)
      else match inet_of_String requestedIP with
      | None => Some (Err FailedCheckIP, db)
      | Some a =>
          if occupied db networkID a then Some (Err (AlreadyAllocated requestedIP), db)
          else Some (Ok (allocated_record db networkID a h),
                     with_allocated db networkID a h)
      end
  end end.
Proof.
  unfold AllocateIP, Begin. cbn [reliable]. rewrite !Scan_reliable.
  rewrite Rollback_same, select_hostname_used.
  destruct (QueryRow (select_hostname db networkID h)); [reflexivity|].
  destruct (QueryRow (select_network db networkID)) as [n|] eqn:En; [|reflexivity].
  destruct (ParseIP_of_text (nr_gateway n)) as [gatewayIP|]; [|reflexivity].
  destruct (Equal requestedIP gatewayIP); [reflexivity|].
  unfold lookup_address, insert_requested. cbn [reliable].
  destruct (inet_of_String requestedIP) as [a|] eqn:Ea; [|reflexivity].
  rewrite Scan_reliable, select_address_occupied.
  destruct (QueryRow (select_address db networkID a)); [reflexivity|].
  rewrite insert_ip_ok by (eapply select_network_exists; eauto).
  apply inet_of_String_Some in Ea. destruct Ea as [Hi ->].
  rewrite AllocateIP_commit_is_inet by (apply to_inet_is_inet, Hi). reflexivity.
Qed.

(** The explicit branch on any driver: the call fails and the rows are
    as they were, or it inserts the requested address, which is not the
    gateway and which no row of the network occupied. *)
Lemma AllocateIP_explicit_cases drv fuel db networkID requestedIP h res db' :
  AllocateIP drv fuel db networkID (Some requestedIP) h = Some (res, db') ->
  (exists e, res = Err e /\ same_rows db db' /\ (drv StCommit = false -> db' = db))
  \/ (exists n gatewayIP a,
        hostname_used db networkID h = false
        /\ QueryRow (select_network db networkID) = Some n
        /\ ParseIP_of_text (nr_gateway n) = Some gatewayIP
        /\ Equal requestedIP gatewayIP = false
        /\ inet_of_String requestedIP = Some a
        /\ occupied db networkID a = false
        /\ res = Ok (allocated_record db networkID a h)
        /\ db' = with_allocated db networkID a h).
Proof.
  unfold AllocateIP, Begin.
  assert (Hfail : forall e, exists e0, Err e = @Err IPAddress e0 /\ same_rows db db
                                  /\ (drv StCommit = false -> db = db))
    by (intros e; exists e; auto using same_rows_refl).
  destruct (drv StBegin); [intros [= <- <-]; left; apply Hfail|].
  rewrite Rollback_same.
  destruct (Scan_cases drv StSelectHostname (select_hostname db networkID h))
    as [[-> _]|[_ ->]]; [intros [= <- <-]; left; apply Hfail|].
  pose proof (select_hostname_used db networkID h) as Hh.
  destruct (QueryRow (select_hostname db networkID h)); [intros [= <- <-]; left; apply Hfail|].
  destruct (Scan_cases drv StSelectNetwork (select_network db networkID))
    as [[-> _]|[_ ->]]; [intros [= <- <-]; left; apply Hfail|].
  destruct (QueryRow (select_network db networkID)) as [n|] eqn:En;
    [|intros [= <- <-]; left; apply Hfail].
  destruct (ParseIP_of_text (nr_gateway n)) as [gatewayIP|] eqn:Eg;
    [|intros [= <- <-]; left; apply Hfail].
  destruct (Equal requestedIP gatewayIP) eqn:HE; [intros [= <- <-]; left; apply Hfail|].
  unfold lookup_address, insert_requested.
  destruct (inet_of_String requestedIP) as [a|] eqn:Ea;
    [|intros [= <- <-]; left; apply Hfail].
  destruct (Scan_cases drv StSelectAddress (select_address db networkID a))
    as [[-> _]|[_ ->]]; [intros [= <- <-]; left; apply Hfail|].
  pose proof (select_address_occupied db networkID a) as Ho.
  destruct (QueryRow (select_address db networkID a)); [intros [= <- <-]; left; apply Hfail|].
  destruct (drv StInsertIP); [rewrite Rollback_same; intros [= <- <-]; left; apply Hfail|].
  rewrite insert_ip_ok by (eapply select_network_exists; eauto).
  pose proof Ea as Ea'. apply inet_of_String_Some in Ea'. destruct Ea' as [Hi ->].
  rewrite AllocateIP_commit_is_inet by (apply to_inet_is_inet, Hi).
  destruct (drv StCommit).
  - intros [= <- <-]. left. exists FailedCommit.
    split; [reflexivity|]. split; [apply Rollback_same_rows | discriminate].
  - intros [= <- <-]. right. exists n, gatewayIP, (to_inet requestedIP).
    repeat split; auto.
Qed.

(* ================================================================= *)
(** ** The loop of the first-available branch *)

Section Loop.

Variables (networkID : Z) (hostname : string) (ipNet : IPNet) (gatewayIP : IP).

Let fk (db : DB) : Prop := existsb (fun n => nr_id n =? networkID) (networks db) = true.

(** Whatever the fuel and the driver, the loop ends in one of three
    ways: one candidate of the block, not the gateway and not occupied,
    was inserted; or nothing was written and the loop ran to its end; or
    nothing was written and the driver failed. *)
Lemma AllocateIP_loop_cases drv fuel : forall ip v r,
  fk (v_tx v) ->
  AllocateIP_loop drv fuel networkID hostname ipNet gatewayIP ip v = Some r ->
  (exists c, Contains ipNet c = true /\ Equal c gatewayIP = false
             /\ occupied (v_tx v) networkID (to_inet c) = false
             /\ r = LoopEnd (vars_inserted v networkID c hostname))
  \/ (exists e, (e = v_err v \/ e = Some ErrNoRows) /\ r = LoopEnd (vars_refused v e))
  \/ r = LoopReturn FailedAllocate (v_tx v).
Proof.
  induction fuel as [|fuel IH]; intros ip v r Hfk; cbn [AllocateIP_loop];
    destruct (Contains ipNet ip) eqn:HC; cbn [negb].
  - discriminate.
  - intros [= <-]. right. left. exists (v_err v). split; [auto|]. destruct v; reflexivity.
  - destruct (Equal ip gatewayIP) eqn:HE.
    + apply IH. exact Hfk.
    + destruct (insert_ip_if_absent_cases drv _ _ _ hostname Hfk (Contains_is_inet _ _ HC))
        as [-> | ->].
      * intros [= <-]. auto.
      * destruct (occupied (v_tx v) networkID (to_inet ip)) eqn:HO.
        -- intros H. apply IH in H; [|exact Hfk].
           destruct H as [(c & H1 & H2 & H3 & H4)|[(e & H1 & H2)|H]].
           ++ left. exists c. auto.
           ++ right. left. exists e. split; [|exact H2]. cbn in H1. destruct H1; auto.
           ++ right. right. exact H.
        -- intros [= <-]. left. exists ip. auto.
  - intros [= <-]. right. left. exists (v_err v). split; [auto|]. destruct v; reflexivity.
Qed.

(** More fuel does not change an outcome. *)
Lemma AllocateIP_loop_mono drv fuel : forall fuel' ip v r,
  (fuel <= fuel')%nat ->
  AllocateIP_loop drv fuel networkID hostname ipNet gatewayIP ip v = Some r ->
  AllocateIP_loop drv fuel' networkID hostname ipNet gatewayIP ip v = Some r.
Proof.
  induction fuel as [|fuel IH]; intros fuel' ip v r Hle.
  - cbn [AllocateIP_loop]. destruct (Contains ipNet ip) eqn:HC; cbn [negb]; [discriminate|].
    intros <-. destruct fuel'; cbn [AllocateIP_loop]; rewrite HC; reflexivity.
  - destruct fuel' as [|fuel']; [lia|]. cbn [AllocateIP_loop].
    destruct (negb (Contains ipNet ip)); [auto|].
    destruct (Equal ip gatewayIP); [apply IH; lia|].
    destruct (insert_ip_if_absent _ _ _ _ _) as [tx' [[]|[id a]]]; auto.
    apply IH. lia.
Qed.

Lemma candidates_mono fuel : forall fuel' ip l,
  (fuel <= fuel')%nat ->
  candidates fuel ipNet gatewayIP ip = Some l ->
  candidates fuel' ipNet gatewayIP ip = Some l.
Proof.
  induction fuel as [|fuel IH]; intros fuel' ip l Hle.
  - cbn [candidates]. destruct (Contains ipNet ip) eqn:HC; cbn [negb]; [discriminate|].
    intros <-. destruct fuel'; cbn [candidates]; rewrite HC; reflexivity.
  - destruct fuel' as [|fuel']; [lia|]. cbn [candidates].
    destruct (negb (Contains ipNet ip)); [auto|].
    destruct (Equal ip gatewayIP); [apply IH; lia|].
    destruct (candidates fuel ipNet gatewayIP (nextIP ip)) as [l'|] eqn:E; [|discriminate].
    rewrite (IH fuel' _ l') by (auto; lia). auto.
Qed.

(** The loop on the reliable driver, read off the candidate sequence:
    the first candidate that is not occupied is inserted; when there is
    none, the loop ends with [sql.ErrNoRows] in [err], unless there was
    no candidate at all. *)
Lemma AllocateIP_loop_candidates fuel : forall ip v l,
  fk (v_tx v) ->
  candidates fuel ipNet gatewayIP ip = Some l ->
  AllocateIP_loop reliable fuel networkID hostname ipNet gatewayIP ip v =
  Some (LoopEnd
          match first_free (v_tx v) networkID l with
          | Some c => vars_inserted v networkID c hostname
          | None => vars_refused v (match l with [] => v_err v | _ => Some ErrNoRows end)
          end).
Proof.
  induction fuel as [|fuel IH]; intros ip v l Hfk; cbn [AllocateIP_loop candidates];
    destruct (Contains ipNet ip) eqn:HC; cbn [negb].
  - discriminate.
  - intros [= <-]. destruct v; reflexivity.
  - destruct (Equal ip gatewayIP) eqn:HE.
    + apply IH. exact Hfk.
    + destruct (candidates fuel ipNet gatewayIP (nextIP ip)) as [l'|] eqn:El; [|discriminate].
      cbn [fmap option_fmap option_map]. intros [= <-].
      rewrite (insert_ip_if_absent_spec _ _ _ _ Hfk (Contains_is_inet _ _ HC)).
      unfold first_free. cbn [List.find].
      destruct (occupied (v_tx v) networkID (to_inet ip)) eqn:HO; cbn [negb]; [|reflexivity].
      rewrite (IH _ _ l') by (cbn; auto). cbn [v_tx v_err vars_refused].
      unfold first_free. destruct (List.find _ l'); [reflexivity|].
      destruct l'; reflexivity.
  - intros [= <-]. destruct v; reflexivity.
Qed.

(** Every candidate is an address of the block other than the gateway. *)
Lemma candidates_sound fuel : forall ip l c,
  candidates fuel ipNet gatewayIP ip = Some l -> In c l ->
  Contains ipNet c = true /\ Equal c gatewayIP = false.
Proof.
  induction fuel as [|fuel IH]; intros ip l c; cbn [candidates];
    destruct (Contains ipNet ip) eqn:HC; cbn [negb]; try discriminate;
    try (intros [= <-] []).
  destruct (Equal ip gatewayIP) eqn:HE; [apply IH|].
  destruct (candidates fuel ipNet gatewayIP (nextIP ip)) as [l'|] eqn:El; [|discriminate].
  cbn. intros [= <-] [<-|Hin]; [auto|]. eapply IH; eauto.
Qed.

End Loop.

(* ================================================================= *)
(** ** [AllocateIP], first available address *)

Lemma As16_is_inet a : is_inet a = true -> is_inet (As16 a) = true.
Proof.
  unfold is_inet. rewrite orb_true_iff, !Nat.eqb_eq. intros [H|H].
  - rewrite (As16_v4 a H), length_app, H. reflexivity.
  - rewrite (As16_16 a H), H. reflexivity.
Qed.

(** A call that selects the first available address, on any driver,
    either fails and leaves the rows as they were, or inserts one
    candidate of the block, other than the gateway, that no row of the
    network occupied. *)
Lemma AllocateIP_first_available_cases drv fuel db networkID h res db' :
  AllocateIP drv fuel db networkID None h = Some (res, db') ->
  (exists e, res = Err e /\ same_rows db db' /\ (drv StCommit = false -> db' = db))
  \/ (exists n gatewayIP ipNet c,
        hostname_used db networkID h = false
        /\ QueryRow (select_network db networkID) = Some n
        /\ ParseIP_of_text (nr_gateway n) = Some gatewayIP
        /\ ParseCIDR_of_text (nr_cidr n) = Some ipNet
        /\ Contains ipNet c = true /\ Equal c gatewayIP = false
        /\ occupied db networkID (to_inet c) = false
        /\ res = Ok (allocated_record db networkID (to_inet c) h)
        /\ db' = with_allocated db networkID (to_inet c) h).
Proof.
  unfold AllocateIP, Begin.
  assert (Hfail : forall e, exists e0, Err e = @Err IPAddress e0 /\ same_rows db db
                                  /\ (drv StCommit = false -> db = db))
    by (intros e; exists e; auto using same_rows_refl).
  destruct (drv StBegin); [intros [= <- <-]; left; apply Hfail|].
  rewrite Rollback_same.
  destruct (Scan_cases drv StSelectHostname (select_hostname db networkID h))
    as [[-> _]|[_ ->]]; [intros [= <- <-]; left; apply Hfail|].
  pose proof (select_hostname_used db networkID h) as Hh.
  destruct (QueryRow (select_hostname db networkID h)); [intros [= <- <-]; left; apply Hfail|].
  destruct (Scan_cases drv StSelectNetwork (select_network db networkID))
    as [[-> _]|[_ ->]]; [intros [= <- <-]; left; apply Hfail|].
  destruct (QueryRow (select_network db networkID)) as [n|] eqn:En;
    [|intros [= <- <-]; left; apply Hfail].
  destruct (ParseIP_of_text (nr_gateway n)) as [gatewayIP|] eqn:Eg;
    [|intros [= <- <-]; left; apply Hfail].
  destruct (ParseCIDR_of_text (nr_cidr n)) as [ipNet|] eqn:Ec;
    [|intros [= <- <-]; left; apply Hfail].
  destruct (AllocateIP_loop _ _ _ _ _ _ _ _) as [r|] eqn:El; [|discriminate].
  apply AllocateIP_loop_cases in El; [|eapply select_network_exists; eauto].
  cbn [v_tx v_err] in El.
  destruct El as [(c & HC & HE & HO & ->)|[(e & He & ->)| ->]].
  - cbn [v_err v_tx v_id v_addressStr vars_inserted].
    rewrite AllocateIP_commit_is_inet
      by (apply to_inet_is_inet; eapply Contains_is_inet; eauto).
    destruct (drv StCommit).
    + intros [= <- <-]. left. exists FailedCommit.
      split; [reflexivity|]. split; [apply Rollback_same_rows | discriminate].
    + intros [= <- <-]. right. exists n, gatewayIP, ipNet, c. repeat split; auto.
  - cbn [v_err v_tx v_id v_addressStr vars_refused].
    destruct He as [->| ->].
    + unfold AllocateIP_commit, Commit. cbn. rewrite Rollback_same.
      destruct (drv StCommit); intros [= <- <-]; left; apply Hfail.
    + rewrite Rollback_same. intros [= <- <-]. left. apply Hfail.
  - rewrite Rollback_same. intros [= <- <-]. left. apply Hfail.
Qed.

(** The same call on the reliable driver, read off the candidate
    sequence. *)
Lemma AllocateIP_first_available_candidates fuel db networkID h n gatewayIP ipNet l :
  hostname_used db networkID h = false ->
  QueryRow (select_network db networkID) = Some n ->
  ParseIP_of_text (nr_gateway n) = Some gatewayIP ->
  ParseCIDR_of_text (nr_cidr n) = Some ipNet ->
  candidates fuel ipNet gatewayIP (nextIP (IPNet_IP ipNet)) = Some l ->
  AllocateIP reliable fuel db networkID None h =
  Some match first_free db networkID l with
       | Some c => (Ok (allocated_record db networkID (to_inet c) h),
                    with_allocated db networkID (to_inet c) h)
       | None => (Err (match l with [] => FailedParseAllocated | _ => NoAvailable end), db)
       end.
Proof.
  intros Hh En Eg Ec El. unfold AllocateIP, Begin. cbn [reliable]. rewrite !Scan_reliable.
  rewrite select_hostname_used in Hh.
  destruct (QueryRow (select_hostname db networkID h)); [discriminate|].
  rewrite En, Eg, Ec.
  rewrite (AllocateIP_loop_candidates _ _ _ _ _ _ _ l)
    by (auto; cbn; eapply select_network_exists; eauto).
  cbn [v_tx v_err v_id v_addressStr].
  destruct (first_free db networkID l) as [c|] eqn:Ef.
  - cbn [vars_inserted v_tx v_err v_id v_addressStr].
    apply find_some in Ef. destruct Ef as [Hin _].
    destruct (candidates_sound _ _ _ _ _ _ El Hin) as [HC _].
    rewrite AllocateIP_commit_is_inet
      by (apply to_inet_is_inet; eapply Contains_is_inet; eauto).
    reflexivity.
  - cbn [vars_refused v_tx v_err v_id v_addressStr].
    destruct l; [reflexivity|]. rewrite Rollback_same. reflexivity.
Qed.

(* ================================================================= *)
(** ** The store keeps well-typed rows *)

Lemma wf_db_network db networkID n :
  wf_db db = true -> QueryRow (select_network db networkID) = Some n ->
  cidr_in (nr_cidr n) = Some (nr_cidr n) /\ is_inet (nr_gateway n) = true.
Proof.
  unfold wf_db. rewrite andb_true_iff, !forallb_forall. intros [Hn _] Hq.
  apply QueryRow_filter_Some in Hq. destruct Hq as [Hin _].
  specialize (Hn n Hin). unfold wf_network in Hn. rewrite andb_true_iff in Hn.
  destruct Hn as [Hc Hg]. split; [|exact Hg].
  unfold cidr_in in *. destruct (_ && _); [reflexivity|discriminate].
Qed.

Lemma cidr_in_Some c c' : cidr_in c = Some c' -> c' = c.
Proof. unfold cidr_in. destruct (_ && _); [intros [= <-]; reflexivity|discriminate]. Qed.

Lemma wf_db_empty : wf_db empty_db = true.
Proof. reflexivity. Qed.

Lemma wf_db_with_allocated db networkID a h :
  wf_db db = true -> is_inet a = true -> wf_db (with_allocated db networkID a h) = true.
Proof.
  unfold wf_db, with_allocated. cbn [networks ip_addresses].
  rewrite !andb_true_iff, forallb_app. intros [Hn Hr] Ha. split; [exact Hn|].
  rewrite Hr. cbn. rewrite Ha. reflexivity.
Qed.

Lemma wf_db_same_rows db db' : same_rows db db' -> wf_db db = true -> wf_db db' = true.
Proof. unfold wf_db. intros [-> ->]. auto. Qed.

Lemma wf_db_CreateNetwork drv db network res db' :
  wf_db db = true -> CreateNetwork drv db network = (res, db') -> wf_db db' = true.
Proof.
  intros Hwf. unfold CreateNetwork. destruct (drv _); [intros [= _ <-]; exact Hwf|].
  destruct (cidr_in (Network_CIDR network)) as [c|] eqn:Ec; [|intros [= _ <-]; exact Hwf].
  destruct (inet_of_String (Network_Gateway network)) as [g|] eqn:Eg;
    [|intros [= _ <-]; exact Hwf].
  cbn. intros [= _ <-]. unfold wf_db in *. cbn [networks ip_addresses].
  rewrite andb_true_iff in Hwf. destruct Hwf as [Hn Hr].
  rewrite forallb_app, Hn, Hr. cbn. unfold wf_network. cbn [nr_cidr nr_gateway].
  pose proof (cidr_in_Some _ _ Ec) as ->. rewrite Ec.
  apply inet_of_String_Some in Eg. destruct Eg as [Hi ->].
  rewrite (to_inet_is_inet _ Hi). reflexivity.
Qed.

Lemma wf_db_AllocateIP drv fuel db networkID requestedIP h res db' :
  wf_db db = true ->
  AllocateIP drv fuel db networkID requestedIP h = Some (res, db') -> wf_db db' = true.
Proof.
  intros Hwf H. destruct requestedIP as [rip|].
  - apply AllocateIP_explicit_cases in H.
    destruct H as [(e & _ & Hs & _)|(n & g & a & _ & _ & _ & _ & Ea & _ & _ & ->)].
    + eapply wf_db_same_rows; eauto.
    + apply wf_db_with_allocated; auto.
      apply inet_of_String_Some in Ea. destruct Ea as [Hi ->]. apply to_inet_is_inet, Hi.
  - apply AllocateIP_first_available_cases in H.
    destruct H as [(e & _ & Hs & _)|(n & g & ipNet & c & _ & _ & _ & _ & HC & _ & _ & _ & ->)].
    + eapply wf_db_same_rows; eauto.
    + apply wf_db_with_allocated; auto.
      apply to_inet_is_inet. eapply Contains_is_inet; eauto.
Qed.

Lemma wf_db_update_ip db id f :
  (forall r, ir_address (f r) = ir_address r) ->
  wf_db db = true -> wf_db (fst (update_ip db id f)) = true.
Proof.
  intros Hf. unfold wf_db, update_ip. cbn [fst networks ip_addresses].
  rewrite !andb_true_iff, !forallb_forall. intros [Hn Hr]. split; [exact Hn|].
  intros r Hin. apply in_map_iff in Hin. destruct Hin as (r0 & <- & Hin).
  destruct (ir_id r0 =? id); [rewrite Hf|]; auto.
Qed.

Lemma wf_db_ReleaseIP drv db id res db' :
  wf_db db = true -> ReleaseIP drv db id = (res, db') -> wf_db db' = true.
Proof.
  intros Hwf. unfold ReleaseIP. destruct (drv StUpdateRelease); [intros [= _ <-]; exact Hwf|].
  pose proof (wf_db_update_ip db id release_row (fun _ => eq_refl) Hwf) as H.
  destruct (update_ip db id release_row) as [db1 k]. cbn [fst] in H.
  destruct (drv StRowsAffected); [intros [= _ <-]; exact H|].
  destruct (k =? 0); intros [= _ <-]; exact H.
Qed.

Lemma wf_db_UpdateIPHostname drv db id h res db' :
  wf_db db = true -> UpdateIPHostname drv db id h = (res, db') -> wf_db db' = true.
Proof.
  intros Hwf. unfold UpdateIPHostname, Begin, Commit.
  destruct (drv StBegin); [intros [= _ <-]; exact Hwf|].
  assert (Hrb : forall tx, wf_db (Rollback db tx) = true)
    by (intros tx; eapply wf_db_same_rows; [apply Rollback_same_rows | exact Hwf]).
  destruct (Scan _ _ _) as [|r]; [intros [= _ <-]; apply Hrb|].
  destruct (Scan _ _ _) as [[]|]; try (intros [= _ <-]; apply Hrb).
  destruct (drv StUpdateHostname); [intros [= _ <-]; apply Hrb|].
  pose proof (wf_db_update_ip db id (rename_row h) (fun _ => eq_refl) Hwf) as H.
  destruct (update_ip db id (rename_row h)) as [db1 k] eqn:E. cbn [fst] in H.
  destruct (drv StRowsAffected); [intros [= _ <-]; apply Hrb|].
  destruct (k =? 0); [intros [= _ <-]; apply Hrb|].
  destruct (drv StCommit); intros [= _ <-]; [apply Hrb | exact H].
Qed.

(** What one more row changes for the queries. *)
Lemma select_network_with_allocated db networkID a h nid :
  select_network (with_allocated db networkID a h) nid = select_network db nid.
Proof. reflexivity. Qed.

Lemma occupied_with_allocated db networkID a h nid a' :
  occupied (with_allocated db networkID a h) nid a' =
  occupied db nid a' || ((networkID =? nid) && bytes_Equal a a').
Proof.
  unfold occupied, with_allocated. cbn [ip_addresses].
  rewrite existsb_app. cbn. rewrite orb_false_r. reflexivity.
Qed.

Lemma hostname_used_with_allocated db networkID a h nid h' :
  hostname_used (with_allocated db networkID a h) nid h' =
  hostname_used db nid h' || ((networkID =? nid) && String.eqb h h').
Proof.
  unfold hostname_used, with_allocated. cbn [ip_addresses].
  rewrite existsb_app. cbn. rewrite orb_false_r. reflexivity.
Qed.

Lemma occupied_spec db networkID a :
  occupied db networkID a = true <->
  exists r, In r (ip_addresses db) /\ ir_network_id r = networkID /\ ir_address r = a.
Proof.
  unfold occupied. rewrite existsb_exists. split.
  - intros (r & Hin & H). rewrite andb_true_iff, Z.eqb_eq, bytes_Equal_spec in H.
    exists r. tauto.
  - intros (r & Hin & H1 & H2). exists r. rewrite andb_true_iff, Z.eqb_eq, bytes_Equal_spec.
    tauto.
Qed.

Lemma hostname_is_spec h r : hostname_is h r = true <-> ir_hostname r = Some h.
Proof.
  unfold hostname_is. destruct (ir_hostname r) as [x|]; [|split; discriminate].
  rewrite String.eqb_eq. split; [intros ->; reflexivity | intros [= ->]; reflexivity].
Qed.

Lemma hostname_used_spec db networkID h :
  hostname_used db networkID h = true <->
  exists r, In r (ip_addresses db) /\ ir_network_id r = networkID /\ ir_hostname r = Some h.
Proof.
  unfold hostname_used. rewrite existsb_exists. split.
  - intros (r & Hin & H). rewrite andb_true_iff, Z.eqb_eq, hostname_is_spec in H.
    exists r. tauto.
  - intros (r & Hin & H1 & H2). exists r. rewrite andb_true_iff, Z.eqb_eq, hostname_is_spec.
    tauto.
Qed.

Lemma hostname_used_by_other_spec db networkID h id :
  hostname_used_by_other db networkID h id = true <->
  exists r, In r (ip_addresses db) /\ ir_network_id r = networkID
            /\ ir_hostname r = Some h /\ ir_id r <> id.
Proof.
  unfold hostname_used_by_other. rewrite existsb_exists. split.
  - intros (r & Hin & H).
    rewrite !andb_true_iff, Z.eqb_eq, hostname_is_spec, negb_true_iff, Z.eqb_neq in H.
    exists r. tauto.
  - intros (r & Hin & H1 & H2 & H3). exists r.
    rewrite !andb_true_iff, Z.eqb_eq, hostname_is_spec, negb_true_iff, Z.eqb_neq. tauto.
Qed.

(* ================================================================= *)
(** ** Masks and blocks *)

Lemma In_octets n x : 0 <= x < Z.of_nat n -> In x (octets n).
Proof.
  intros H. unfold octets. apply in_map_iff. exists (Z.to_nat x).
  split; [lia|]. apply in_seq. lia.
Qed.

Lemma mask_byte_checked :
  forallb (fun n => forallb (fun x => mask_byte_check n x) (octets 256)) (octets 8) = true.
Proof. vm_compute. reflexivity. Qed.

Lemma land_mask_byte n x :
  0 <= n < 8 -> 0 <= x < 256 ->
  Z.land x (Z.lxor 255 (Z.shiftr 255 n)) = x - x mod 2 ^ (8 - n).
Proof.
  intros Hn Hx. pose proof mask_byte_checked as H.
  rewrite forallb_forall in H. specialize (H n (In_octets 8 n Hn)).
  rewrite forallb_forall in H. specialize (H x (In_octets 256 x Hx)).
  unfold mask_byte_check in H. apply Z.eqb_eq in H. exact H.
Qed.

Lemma land_255 x : 0 <= x < 256 -> Z.land x 255 = x.
Proof.
  intros Hx. change 255 with (Z.ones 8). rewrite Z.land_ones by lia.
  apply Z.mod_small. lia.
Qed.

Lemma CIDRMask_loop_length l : forall n, length (CIDRMask_loop l n) = l.
Proof.
  induction l as [|l IH]; intros n; cbn [CIDRMask_loop]; [reflexivity|].
  destruct (8 <=? n); cbn [length]; rewrite IH; reflexivity.
Qed.

Lemma CIDRMask_loop_0 l : CIDRMask_loop l 0 = repeat 0 l.
Proof. induction l as [|l IH]; cbn; [reflexivity|]. f_equal. exact IH. Qed.

Lemma zip_land_zeros p : zip_with Z.land p (repeat 0 (length p)) = repeat 0 (length p).
Proof.
  induction p as [|b p IH]; cbn [length repeat zip_with]; [reflexivity|].
  rewrite Z.land_0_r, IH. reflexivity.
Qed.

Lemma ipval_zeros l : ipval (repeat 0 l) = 0.
Proof.
  induction l as [|l IH]; [reflexivity|]. cbn [repeat]. rewrite ipval_cons, IH. lia.
Qed.

Lemma Contains_loop_zeros nn : forall ip,
  length ip = length nn -> Contains_loop nn (repeat 0 (length nn)) ip = true.
Proof.
  induction nn as [|b nn IH]; intros [|x ip] H; try discriminate; [reflexivity|].
  cbn [length repeat Contains_loop]. rewrite !Z.land_0_r. cbn. apply IH. cbn in H. lia.
Qed.

Lemma pow256 l : 256 ^ Z.of_nat l = 2 ^ (8 * Z.of_nat l).
Proof. rewrite Z.pow_mul_r by lia. reflexivity. Qed.

(** Membership in a block whose base has no bit set to the right of the
    mask is a range of the numbers the addresses denote. *)
Lemma Contains_loop_range l : forall n base a,
  length base = l -> length a = l ->
  bytes_ok base = true -> bytes_ok a = true ->
  0 <= n <= 8 * Z.of_nat l ->
  zip_with Z.land base (CIDRMask_loop l n) = base ->
  (2 ^ (8 * Z.of_nat l - n) | ipval base)
  /\ (Contains_loop base (CIDRMask_loop l n) a = true
      <-> ipval base <= ipval a < ipval base + 2 ^ (8 * Z.of_nat l - n)).
Proof.
  induction l as [|l IH]; intros n [|b base] [|x a] Hlb Hla Hob Hoa Hn Hal;
    try discriminate.
  - cbn. replace (0 - n) with 0 by lia. change (ipval []) with 0. split.
    + exists 0. reflexivity.
    + cbn. split; [lia | reflexivity].
  - injection Hlb as Hlb. injection Hla as Hla.
    rewrite bytes_ok_cons, andb_true_iff in Hob, Hoa.
    destruct Hob as [Hb Hob], Hoa as [Hx Hoa]. apply is_byte_spec in Hb, Hx.
    pose proof (ipval_bound base Hob) as Bb. pose proof (ipval_bound a Hoa) as Ba.
    rewrite Hlb in Bb. rewrite Hla in Ba.
    rewrite !ipval_cons, Hlb, Hla.
    set (P := 256 ^ Z.of_nat l) in *.
    assert (HP : 0 < P) by (apply Z.pow_pos_nonneg; lia).
    cbn [CIDRMask_loop] in *.
    destruct (Z.leb_spec 8 n) as [H8|H8].
    + (* a whole byte of mask *)
      cbn [zip_with Contains_loop] in *. injection Hal as _ Hal.
      assert (Hn8 : 0 <= n - 8 <= 8 * Z.of_nat l) by lia.
      destruct (IH (n - 8) base a Hlb Hla Hob Hoa Hn8 Hal) as [Hd Hr].
      replace (8 * Z.of_nat (S l) - n) with (8 * Z.of_nat l - (n - 8)) by lia.
      set (S := 2 ^ (8 * Z.of_nat l - (n - 8))) in *.
      assert (HS : 0 < S) by (apply Z.pow_pos_nonneg; lia).
      assert (HSP : (S | P)).
      { unfold S, P. rewrite pow256.
        exists (2 ^ (n - 8)). rewrite <- Z.pow_add_r by lia. f_equal. lia. }
      assert (Hfit : ipval base + S <= P).
      { destruct Hd as [q Hq]. destruct HSP as [p Hp].
        assert (q < p) by nia. assert ((q + 1) * S <= p * S) by nia. lia. }
      split.
      * apply Z.divide_add_r; [apply Z.divide_mul_r; exact HSP | exact Hd].
      * rewrite !land_255 by lia.
        destruct (Z.eqb_spec b x) as [->|Hne]; cbn [negb].
        -- rewrite Hr. lia.
        -- split; [discriminate|]. intros Hrange. exfalso. nia.
    + (* the byte where the mask ends *)
      rewrite CIDRMask_loop_0 in *. cbn [zip_with Contains_loop] in *.
      injection Hal as Hal0 Hal.
      assert (Hz : ipval base = 0).
      { rewrite <- Hlb, zip_land_zeros in Hal. rewrite <- Hal. apply ipval_zeros. }
      assert (HCz : Contains_loop base (repeat 0 l) a = true).
      { rewrite <- Hlb. apply Contains_loop_zeros. lia. }
      rewrite Hz, HCz. clear Hal Hz HCz.
      rewrite !land_mask_byte in * by lia.
      replace (8 * Z.of_nat (S l) - n) with ((8 - n) + 8 * Z.of_nat l) by lia.
      rewrite Z.pow_add_r, <- pow256 by lia. fold P.
      set (K := 2 ^ (8 - n)) in *.
      assert (HK : 0 < K) by (apply Z.pow_pos_nonneg; lia).
      assert (Hbk : b mod K = 0) by lia.
      pose proof (Z.mod_pos_bound x K HK) as Bx.
      pose proof (Z.div_mod x K ltac:(lia)) as Dx.
      pose proof (Z.div_mod b K ltac:(lia)) as Db.
      split.
      * exists (b / K). rewrite Z.add_0_r. rewrite Hbk in Db. nia.
      * destruct (Z.eqb_spec (b - b mod K) (x - x mod K)) as [He|Hne]; cbn [negb].
        -- split; [intros _|reflexivity]. nia.
        -- split; [discriminate|]. intros Hrange. exfalso. apply Hne.
           rewrite Hbk, Z.sub_0_r.
           assert (b <= x < b + K) by nia.
           assert (b / K = x / K); [|nia].
           rewrite Hbk in Db.
           apply Z.div_unique with (r := x - b); [left; lia | nia].
Qed.

(* ================================================================= *)
(** ** An IPv4 block, as the loop walks it *)

Section Block4.

Variable c : cidr.
Hypothesis c_ok : cidr_in c = Some c.
Hypothesis c_v4 : length (cidr_addr c) = 4%nat.

Let base : IP := cidr_addr c.
Let ipNet : IPNet :=
  {| IPNet_IP := cidr_addr c; IPNet_Mask := CIDRMask_loop 4 (cidr_bits c) |}.

Lemma cidr_in_facts :
  bytes_ok base = true /\ 0 <= cidr_bits c <= 32
  /\ zip_with Z.land base (CIDRMask_loop 4 (cidr_bits c)) = base.
Proof.
  pose proof c_ok as H. unfold cidr_in in H. rewrite c_v4 in H.
  destruct (_ && _) eqn:E in H; [|discriminate]. clear H.
  rewrite !andb_true_iff, Z.leb_le, Z.leb_le, bytes_Equal_spec in E.
  unfold base. intuition lia.
Qed.

Lemma ParseCIDR_of_text_v4 : ParseCIDR_of_text c = Some ipNet.
Proof.
  destruct cidr_in_facts as (Hok & Hb & Hal).
  unfold ParseCIDR_of_text. rewrite c_v4. cbn [Nat.eqb IPv4len negb andb].
  change (8 * Z.of_nat 4) with 32.
  destruct (Z.ltb_spec (cidr_bits c) 0); [lia|].
  destruct (Z.ltb_spec 32 (cidr_bits c)); [lia|]. cbn [orb].
  unfold CIDRMask. cbn [IPv4len IPv6len]. change (8 * Z.of_nat 4) with 32.
  cbn [Z.eqb negb andb Pos.eqb].
  destruct (Z.ltb_spec (cidr_bits c) 0); [lia|].
  destruct (Z.ltb_spec 32 (cidr_bits c)); [lia|]. cbn [orb].
  change (Z.to_nat (32 / 8)) with 4%nat.
  unfold ipNet. f_equal. f_equal.
  rewrite (As16_v4 _ c_v4). unfold Mask.
  rewrite CIDRMask_loop_length, length_app, c_v4.
  cbn [length v4InV6Prefix Nat.add Nat.eqb IPv4len IPv6len andb].
  rewrite take_app_length' by reflexivity. rewrite bytes_Equal_refl.
  rewrite drop_app_length' by reflexivity.
  rewrite !CIDRMask_loop_length. cbn [Nat.eqb IPv4len andb]. rewrite c_v4. cbn [Nat.eqb negb].
  fold base. rewrite Hal. reflexivity.
Qed.

Lemma Contains_v4 a :
  length a = 4%nat ->
  Contains ipNet a = Contains_loop base (CIDRMask_loop 4 (cidr_bits c)) a.
Proof.
  intros Ha. rewrite Contains_to_inet. unfold networkNumberAndMask, ipNet.
  cbn [IPNet_IP IPNet_Mask]. rewrite (To4_v4 _ c_v4), CIDRMask_loop_length, c_v4.
  cbn [Nat.eqb IPv4len negb]. rewrite (to_inet_v4 _ Ha), Ha, c_v4. reflexivity.
Qed.

(** The block is the range of [block_size c] numbers that starts at the
    base address; it fits below [2^32]. *)
Lemma Contains_v4_range a :
  length a = 4%nat -> bytes_ok a = true ->
  (Contains ipNet a = true <-> ipval base <= ipval a < ipval base + block_size c).
Proof.
  intros Ha Hok. destruct cidr_in_facts as (Hbok & Hb & Hal).
  rewrite (Contains_v4 a Ha). unfold block_size. rewrite c_v4.
  apply (Contains_loop_range 4 (cidr_bits c) base a); auto.
Qed.

Lemma block_fits :
  0 < block_size c /\ 0 <= ipval base /\ ipval base + block_size c <= 2 ^ 32
  /\ (1 <= cidr_bits c -> block_size c <= 2 ^ 31).
Proof.
  destruct cidr_in_facts as (Hbok & Hb & Hal).
  destruct (Contains_loop_range 4 (cidr_bits c) base base c_v4 c_v4 Hbok Hbok
              ltac:(change (Z.of_nat 4) with 4; lia) Hal) as [[q Hq] _].
  pose proof (ipval_bound base Hbok) as Bb. unfold base in Bb. rewrite c_v4 in Bb.
  fold base in Bb. change (256 ^ Z.of_nat 4) with (2 ^ 32) in Bb.
  unfold block_size. rewrite c_v4. change (8 * Z.of_nat 4) with 32 in *.
  set (S := 2 ^ (32 - cidr_bits c)) in *.
  assert (HS : 0 < S) by (apply Z.pow_pos_nonneg; lia).
  assert (HP : 2 ^ 32 = 2 ^ cidr_bits c * S).
  { unfold S. rewrite <- Z.pow_add_r by lia. f_equal. lia. }
  assert (Hpos : 0 < 2 ^ cidr_bits c) by (apply Z.pow_pos_nonneg; lia).
  repeat split; try lia.
  - assert (q < 2 ^ cidr_bits c) by nia.
    assert ((q + 1) * S <= 2 ^ cidr_bits c * S) by nia. lia.
  - intros H1. unfold S. apply Z.pow_le_mono_r; lia.
Qed.

Lemma nth_after_S ip k : nth_after ip (S k) = nextIP (nth_after ip k).
Proof. reflexivity. Qed.

Lemma nth_after_facts k :
  length (nth_after base k) = 4%nat
  /\ bytes_ok (nth_after base k) = true
  /\ ipval (nth_after base k) = (ipval base + Z.of_nat k) mod 2 ^ 32.
Proof.
  destruct cidr_in_facts as (Hbok & _ & _). pose proof (ipval_bound base Hbok) as Bb.
  unfold base in Bb. rewrite c_v4 in Bb. fold base in Bb.
  change (256 ^ Z.of_nat 4) with (2 ^ 32) in Bb.
  induction k as [|k (Hl & Hok & Hv)].
  - change (nth_after base 0) with base. change (Z.of_nat 0) with 0.
    repeat split; auto. rewrite Z.add_0_r, Z.mod_small; lia.
  - rewrite nth_after_S. repeat split.
    + rewrite nextIP_length. exact Hl.
    + apply nextIP_bytes_ok, Hok.
    + rewrite nextIP_ipval, Hl, Hv by exact Hok. change (256 ^ Z.of_nat 4) with (2 ^ 32).
      rewrite Z.add_mod_idemp_l by lia. f_equal. lia.
Qed.

Lemma nth_after_inside k :
  0 <= Z.of_nat k < block_size c ->
  ipval (nth_after base k) = ipval base + Z.of_nat k
  /\ Contains ipNet (nth_after base k) = true.
Proof.
  intros Hk. destruct (nth_after_facts k) as (Hl & Hok & Hv).
  destruct block_fits as (_ & H0 & Hfit & _).
  assert (E : ipval (nth_after base k) = ipval base + Z.of_nat k)
    by (rewrite Hv; apply Z.mod_small; lia).
  split; [exact E|]. apply Contains_v4_range; auto. lia.
Qed.

Lemma nth_after_end :
  1 <= cidr_bits c ->
  Contains ipNet (nth_after base (Z.to_nat (block_size c))) = false.
Proof.
  intros Hbits. destruct (nth_after_facts (Z.to_nat (block_size c))) as (Hl & Hok & Hv).
  destruct block_fits as (Hpos & H0 & Hfit & H31). specialize (H31 Hbits).
  rewrite Z2Nat.id in Hv by lia.
  destruct (Contains ipNet _) eqn:E; [|reflexivity]. exfalso.
  apply Contains_v4_range in E; auto. rewrite Hv in E.
  destruct (Z.eq_dec (ipval base + block_size c) (2 ^ 32)) as [Heq|Hne].
  - rewrite Heq, Z.mod_same in E by lia. change (2 ^ 31) with 2147483648 in H31.
    change (2 ^ 32) with 4294967296 in Heq. lia.
  - rewrite Z.mod_small in E by lia. lia.
Qed.

(** Every address of the block is reached from the base. *)
Lemma Contains_v4_nth_after a :
  length a = 4%nat -> bytes_ok a = true -> Contains ipNet a = true ->
  exists k, 0 <= Z.of_nat k < block_size c /\ a = nth_after base k.
Proof.
  intros Ha Hok HC. apply Contains_v4_range in HC; auto.
  exists (Z.to_nat (ipval a - ipval base)).
  assert (Hk : 0 <= Z.of_nat (Z.to_nat (ipval a - ipval base)) < block_size c) by lia.
  split; [exact Hk|].
  destruct (nth_after_inside _ Hk) as [Hv _].
  destruct (nth_after_facts (Z.to_nat (ipval a - ipval base))) as (Hl & Hok' & _).
  apply ipval_inj; auto; [congruence | lia].
Qed.

Variable gatewayIP : IP.

Let not_gateway (ip : IP) : bool := negb (Equal ip gatewayIP).

(** The candidate sequence, from the [j]-th address on. *)
Lemma candidates_from r : forall j fuel,
  1 <= cidr_bits c ->
  (j + r = Z.to_nat (block_size c))%nat -> (r <= fuel)%nat ->
  candidates fuel ipNet gatewayIP (nth_after base j)
  = Some (List.filter not_gateway (map (nth_after base) (seq j r))).
Proof.
  induction r as [|r IH]; intros j fuel Hbits Hj Hfuel.
  - replace j with (Z.to_nat (block_size c)) by lia.
    pose proof (nth_after_end Hbits) as HC.
    destruct fuel; cbn [candidates]; rewrite HC; reflexivity.
  - destruct fuel as [|fuel]; [lia|].
    destruct (nth_after_inside j ltac:(lia)) as [_ HC].
    cbn [candidates seq map List.filter]. rewrite HC. cbn [negb].
    rewrite <- nth_after_S, (IH (S j) fuel Hbits) by lia.
    change (not_gateway (nth_after base j))
      with (negb (Equal (nth_after base j) gatewayIP)).
    destruct (Equal (nth_after base j) gatewayIP); reflexivity.
Qed.

Lemma candidates_sorted r : forall j,
  (j + r <= Z.to_nat (block_size c))%nat ->
  StronglySorted (fun a b => ipval a < ipval b)
                 (List.filter not_gateway (map (nth_after base) (seq j r))).
Proof.
  induction r as [|r IH]; intros j Hj; cbn [seq map List.filter]; [constructor|].
  destruct (not_gateway (nth_after base j)); [|apply IH; lia].
  constructor; [apply IH; lia|].
  apply List.Forall_forall. intros a Hin. apply filter_In in Hin. destruct Hin as [Hin _].
  apply in_map_iff in Hin. destruct Hin as (k & <- & Hk). apply in_seq in Hk.
  destruct (nth_after_inside j ltac:(lia)) as [-> _].
  destruct (nth_after_inside k ltac:(lia)) as [-> _]. lia.
Qed.

End Block4.

(* ================================================================= *)
(** * The claims about [AllocateIP] *)

Import Scenario.

(** C5. Whenever [AllocateIP] returns an error, whether one of its own
    checks refused the request or the driver failed at some call, the
    commit included, no write survives: the two tables hold the rows
    they held before the call. Unless it is the commit that failed, the
    two sequences are where they were as well. *)
Theorem AllocateIP_error_no_write drv fuel db networkID requestedIP h e db' :
  AllocateIP drv fuel db networkID requestedIP h = Some (Err e, db') ->
  networks db' = networks db
  /\ ip_addresses db' = ip_addresses db
  /\ (drv StCommit = false -> db' = db).
Proof.
  intros H. destruct requestedIP as [rip|].
  - apply AllocateIP_explicit_cases in H.
    destruct H as [(e' & _ & [H1 H2] & H3)|(n & g & a & _ & _ & _ & _ & _ & _ & H & _)];
      [auto | discriminate].
  - apply AllocateIP_first_available_cases in H.
    destruct H as [(e' & _ & [H1 H2] & H3)
                  |(n & g & ipNet & c & _ & _ & _ & _ & _ & _ & _ & H & _)];
      [auto | discriminate].
Qed.

Lemma AllocateIP_error_no_write_witness :
  AllocateIP commit_fails 3 db_net30 1 None "h1"
  = Some (Err FailedCommit, Rollback db_net30 (with_allocated db_net30 1 [10; 0; 0; 2] "h1"))
  /\ ip_addresses (Rollback db_net30 (with_allocated db_net30 1 [10; 0; 0; 2] "h1"))
     = ip_addresses db_net30.
Proof.
  split; [reflexivity|].
  apply (AllocateIP_error_no_write commit_fails 3 db_net30 1 None "h1" FailedCommit
           (Rollback db_net30 (with_allocated db_net30 1 [10; 0; 0; 2] "h1"))).
  reflexivity.
Defined.

(** C1 (as amended). For every call to [AllocateIP] that returns
    successfully, the address of the returned record is not equal to the
    gateway of the network; when the first available address was
    selected it lies within the CIDR block of the network; when an
    explicit address was requested it is that address, which is not
    checked against the block. *)
Theorem AllocateIP_address_not_gateway drv fuel db networkID requestedIP h rec db' :
  AllocateIP drv fuel db networkID requestedIP h = Some (Ok rec, db') ->
  exists n gatewayIP,
    QueryRow (select_network db networkID) = Some n
    /\ ParseIP_of_text (nr_gateway n) = Some gatewayIP
    /\ Equal (Address rec) gatewayIP = false
    /\ (requestedIP = None ->
        exists ipNet, ParseCIDR_of_text (nr_cidr n) = Some ipNet
                      /\ Contains ipNet (Address rec) = true)
    /\ (forall ip, requestedIP = Some ip -> Equal (Address rec) ip = true).
Proof.
  intros H. destruct requestedIP as [rip|].
  - apply AllocateIP_explicit_cases in H.
    destruct H as [(e & H & _)|(n & g & a & _ & En & Eg & HE & Ea & _ & H & _)];
      [discriminate|].
    injection H as ->. exists n, g. cbn [Address allocated_record].
    apply inet_of_String_Some in Ea. destruct Ea as [Hi ->].
    pose proof Eg as Eg'. apply ParseIP_of_text_Some in Eg'. destruct Eg' as [Hg ->].
    repeat split; auto.
    + rewrite Equal_As16_to_inet by auto using As16_is_inet. exact HE.
    + discriminate.
    + intros ip [= <-]. apply Equal_As16_inet_true, Hi.
  - apply AllocateIP_first_available_cases in H.
    destruct H as [(e & H & _)|(n & g & ipNet & c & _ & En & Eg & Ec & HC & HE & _ & H & _)];
      [discriminate|].
    injection H as ->. exists n, g. cbn [Address allocated_record].
    pose proof (Contains_is_inet _ _ HC) as Hi.
    pose proof Eg as Eg'. apply ParseIP_of_text_Some in Eg'. destruct Eg' as [Hg ->].
    repeat split; auto.
    + rewrite Equal_As16_to_inet by auto using As16_is_inet. exact HE.
    + intros _. exists ipNet. split; [exact Ec|].
      rewrite Contains_As16_to_inet by exact Hi. exact HC.
    + discriminate.
Qed.

Lemma AllocateIP_address_not_gateway_witness :
  AllocateIP reliable 3 db_one 1 None "h2"
  = Some (Ok (allocated_record db_one 1 [10; 0; 0; 3] "h2"),
          with_allocated db_one 1 [10; 0; 0; 3] "h2")
  /\ exists n gatewayIP,
       QueryRow (select_network db_one 1) = Some n
       /\ ParseIP_of_text (nr_gateway n) = Some gatewayIP
       /\ Equal (IPv4 10 0 0 3) gatewayIP = false
       /\ (@None IP = None ->
           exists ipNet, ParseCIDR_of_text (nr_cidr n) = Some ipNet
                         /\ Contains ipNet (IPv4 10 0 0 3) = true)
       /\ (forall ip, None = Some ip -> Equal (IPv4 10 0 0 3) ip = true).
Proof.
  split; [reflexivity|].
  apply (AllocateIP_address_not_gateway reliable 3 db_one 1 None "h2"
           (allocated_record db_one 1 [10; 0; 0; 3] "h2")
           (with_allocated db_one 1 [10; 0; 0; 3] "h2")).
  reflexivity.
Defined.

(** C1 as stated fails: in network "10.0.0.0/30" the explicit request
    for "192.168.5.5" succeeds, and the address returned lies outside
    the block. *)
Lemma AllocateIP_explicit_outside_block :
  exists rec db' ipNet,
    AllocateIP reliable 0 db_net30 1 (Some (IPv4 192 168 5 5)) "h1" = Some (Ok rec, db')
    /\ Address rec = IPv4 192 168 5 5
    /\ ParseCIDR_of_text (Network_CIDR net30) = Some ipNet
    /\ Contains ipNet (Address rec) = false.
Proof.
  eexists _, _, _. repeat split.
Qed.

(** C3 (as amended). When [AllocateIP] is called with an explicit
    address that is a valid address and not the gateway, for a network
    that exists and a hostname no row of the network holds (and the
    driver does not fail), it fails
    with the already-allocated error if and only if some row for that
    (network, address) pair exists, whatever its status; otherwise it
    inserts one new allocated row for exactly the requested address. A
    row with status 'available' (a released record) blocks the
    allocation like any other. *)
Theorem AllocateIP_explicit_conflict fuel db networkID requestedIP h n a :
  wf_db db = true ->
  hostname_used db networkID h = false ->
  QueryRow (select_network db networkID) = Some n ->
  Equal requestedIP (As16 (nr_gateway n)) = false ->
  inet_of_String requestedIP = Some a ->
  ((exists db', AllocateIP reliable fuel db networkID (Some requestedIP) h
                = Some (Err (AlreadyAllocated requestedIP), db'))
   <-> exists r, In r (ip_addresses db) /\ ir_network_id r = networkID /\ ir_address r = a)
  /\ ((exists r, In r (ip_addresses db) /\ ir_network_id r = networkID /\ ir_address r = a
                 /\ ir_status r = "available"%string) ->
      AllocateIP reliable fuel db networkID (Some requestedIP) h
      = Some (Err (AlreadyAllocated requestedIP), db))
  /\ ((forall r, In r (ip_addresses db) -> ir_network_id r = networkID -> ir_address r <> a) ->
      AllocateIP reliable fuel db networkID (Some requestedIP) h
      = Some (Ok (allocated_record db networkID a h), with_allocated db networkID a h)
      /\ Equal (Address (allocated_record db networkID a h)) requestedIP = true).
Proof.
  intros Hwf Hh En HE Ea.
  destruct (wf_db_network _ _ _ Hwf En) as [_ Hg].
  rewrite AllocateIP_explicit, Hh, En, (ParseIP_of_text_is_inet _ Hg), HE, Ea.
  rewrite <- occupied_spec.
  destruct (occupied db networkID a) eqn:HO.
  - split; [|split].
    + split; [reflexivity | eauto].
    + reflexivity.
    + intros Hfree. exfalso. apply occupied_spec in HO.
      destruct HO as (r & Hin & H1 & H2). exact (Hfree r Hin H1 H2).
  - split; [|split].
    + split; [intros [db' H]; discriminate | discriminate].
    + intros (r & Hin & H1 & H2 & _). exfalso.
      assert (occupied db networkID a = true) by (apply occupied_spec; eauto). congruence.
    + intros _. split; [reflexivity|]. cbn [Address allocated_record].
      apply inet_of_String_Some in Ea. destruct Ea as [Hi ->].
      apply Equal_As16_inet_true, Hi.
Qed.

Lemma AllocateIP_explicit_conflict_witness :
  (exists r, In r (ip_addresses db_released) /\ ir_network_id r = 1
             /\ ir_address r = [10; 0; 0; 2] /\ ir_status r = "available"%string)
  /\ AllocateIP reliable 0 db_released 1 (Some (IPv4 10 0 0 2)) "h3"
     = Some (Err (AlreadyAllocated (IPv4 10 0 0 2)), db_released).
Proof.
  assert (H : exists r, In r (ip_addresses db_released) /\ ir_network_id r = 1
              /\ ir_address r = [10; 0; 0; 2] /\ ir_status r = "available"%string).
  { eexists. split; [left; reflexivity|]. repeat split. }
  split; [exact H|].
  refine (proj1 (proj2 (AllocateIP_explicit_conflict 0 db_released 1 (IPv4 10 0 0 2) "h3"
                          {| nr_id := 1;
                             nr_cidr := {| cidr_addr := [10; 0; 0; 0]; cidr_bits := 30 |};
                             nr_gateway := [10; 0; 0; 1] |}
                          [10; 0; 0; 2] _ _ _ _ _)) H); reflexivity.
Defined.

(** C3 as stated fails: the only row for ("10.0.0.0/30", "10.0.0.2") was
    released, so no row for the pair has status 'allocated'; the
    explicit request for "10.0.0.2", which is not the gateway, fails
    with the already-allocated error all the same. *)
Lemma AllocateIP_released_record_blocks :
  Equal (IPv4 10 0 0 2) (IPv4 10 0 0 1) = false
  /\ allocated_at db_released 1 [10; 0; 0; 2] = false
  /\ ~ ((exists db', AllocateIP reliable 0 db_released 1 (Some (IPv4 10 0 0 2)) "h3"
                     = Some (Err (AlreadyAllocated (IPv4 10 0 0 2)), db'))
        <-> allocated_at db_released 1 [10; 0; 0; 2] = true).
Proof.
  split; [reflexivity|]. split; [reflexivity|].
  intros [H _]. assert (E : allocated_at db_released 1 [10; 0; 0; 2] = true).
  { apply H. eexists. reflexivity. }
  discriminate E.
Qed.

(** C2 (as amended). On a driver that does not fail, [AllocateIP] fails
    with the hostname-conflict error if and only if some row of the same network, whatever its
    status, holds the requested hostname; [UpdateIPHostname] fails with
    it if and only if the record exists and some row with another id in
    the network of the record, whatever its status, holds the new
    hostname. A row with status 'available' that holds the hostname
    triggers the conflict in both operations. *)
Theorem hostname_conflict_iff :
  (forall fuel db networkID requestedIP h,
      (exists h' db',
          AllocateIP reliable fuel db networkID requestedIP h = Some (Err (HostnameInUse h'), db'))
      <-> exists r, In r (ip_addresses db) /\ ir_network_id r = networkID
                    /\ ir_hostname r = Some h)
  /\ (forall db id h,
      (exists h' db', UpdateIPHostname reliable db id h = (Err (HostnameInUse h'), db'))
      <-> exists r0 r, QueryRow (select_ip db id) = Some r0
                       /\ In r (ip_addresses db) /\ ir_network_id r = ir_network_id r0
                       /\ ir_hostname r = Some h /\ ir_id r <> id).
Proof.
  split.
  - intros fuel db networkID requestedIP h. rewrite <- hostname_used_spec.
    destruct (hostname_used db networkID h) eqn:Hh.
    + split; [reflexivity|]. intros _. exists h, db.
      unfold AllocateIP, Begin. cbn [reliable]. rewrite Scan_reliable, Rollback_same.
      rewrite select_hostname_used in Hh.
      destruct (QueryRow (select_hostname db networkID h)); [reflexivity|discriminate].
    + split; [|discriminate]. intros (h' & db' & H). exfalso.
      destruct requestedIP as [rip|].
      * rewrite AllocateIP_explicit, Hh in H.
        repeat match type of H with
               | context [match ?x with _ => _ end] => destruct x
               end; discriminate.
      * unfold AllocateIP, Begin in H. cbn [reliable] in H. rewrite !Scan_reliable in H.
        rewrite select_hostname_used in Hh.
        destruct (QueryRow (select_hostname db networkID h)); [discriminate|].
        destruct (QueryRow (select_network db networkID)) as [n|] eqn:En; [|discriminate].
        destruct (ParseIP_of_text (nr_gateway n)); [|discriminate].
        destruct (ParseCIDR_of_text (nr_cidr n)); [|discriminate].
        destruct (AllocateIP_loop _ _ _ _ _ _ _ _) as [r|] eqn:El; [|discriminate].
        apply AllocateIP_loop_cases in El; [|eapply select_network_exists; eauto].
        destruct El as [(c & _ & _ & _ & ->)|[(e & He & ->)| ->]].
        -- cbn in H. destruct (ParseIP_of_text _) in H; discriminate.
        -- cbn in H. destruct He as [->| ->]; cbn in H; discriminate.
        -- discriminate.
  - intros db id h. unfold UpdateIPHostname, Begin. cbn [reliable].
    rewrite !Scan_reliable, Rollback_same.
    destruct (QueryRow (select_ip db id)) as [r0|].
    + rewrite Scan_reliable.
      pose proof (select_hostname_other_used db (ir_network_id r0) h id) as Hu.
      pose proof (hostname_used_by_other_spec db (ir_network_id r0) h id) as Hs.
      destruct (QueryRow (select_hostname_other db (ir_network_id r0) h id)).
      * split; [|eauto]. intros _. exists r0.
        destruct (proj1 Hs Hu) as (r & H1 & H2 & H3 & H4). exists r. auto.
      * split.
        -- intros (h' & db' & H). exfalso.
           destruct (update_ip db id (rename_row h)) as [tx' k].
           destruct (k =? 0); discriminate.
        -- intros (r1 & r & [= <-] & H1 & H2 & H3 & H4). exfalso.
           assert (hostname_used_by_other db (ir_network_id r0) h id = true)
             by (apply Hs; eauto).
           congruence.
    + split.
      * intros (h' & db' & H). discriminate.
      * intros (r0 & r & H & _). discriminate.
Qed.

Lemma hostname_conflict_iff_witness :
  exists h' db', AllocateIP reliable 3 db_renamed 1 None "h9" = Some (Err (HostnameInUse h'), db').
Proof.
  apply (proj1 hostname_conflict_iff 3%nat db_renamed 1 None "h9"%string).
  eexists. split; [left; reflexivity|]. split; reflexivity.
Defined.

(** C2 as stated fails: record 1 of network 1 is 'available' and holds
    "h9" (it was released, then renamed); no row with status 'allocated'
    holds "h9", and yet both operations report the conflict. *)
Lemma hostname_of_available_record_conflicts :
  hostname_allocated db_two 1 "h9" = false
  /\ ~ ((exists h' db', AllocateIP reliable 3 db_two 1 None "h9"
                        = Some (Err (HostnameInUse h'), db'))
        <-> hostname_allocated db_two 1 "h9" = true)
  /\ ~ ((exists h' db', UpdateIPHostname reliable db_two 2 "h9" = (Err (HostnameInUse h'), db'))
        <-> hostname_allocated db_two 1 "h9" = true).
Proof.
  split; [reflexivity|].
  split; intros [H _];
    (assert (E : hostname_allocated db_two 1 "h9" = true)
      by (apply H; eexists _, _; reflexivity));
    discriminate E.
Qed.

(* ================================================================= *)
(** * The claims about the other operations *)

(** C4 (as amended). [CreateNetwork] does not compare the gateway with
    the CIDR block: whenever the store accepts the two values (and the
    driver does not fail) it inserts exactly one new network row and
    returns the id the store assigned, also when the gateway lies
    outside the block; it fails, without writing a row, only when the
    store rejects the cidr or the gateway value or the driver fails. *)
Theorem CreateNetwork_inserts_one_row drv db network :
  (forall c g,
      drv StInsertNetwork = false ->
      cidr_in (Network_CIDR network) = Some c ->
      inet_of_String (Network_Gateway network) = Some g ->
      CreateNetwork drv db network =
      (Ok {| Network_ID := networks_id_seq db + 1;
             Network_CIDR := Network_CIDR network;
             Network_Gateway := Network_Gateway network |},
       {| networks := networks db ++
            [{| nr_id := networks_id_seq db + 1; nr_cidr := c; nr_gateway := g |}];
          ip_addresses := ip_addresses db;
          networks_id_seq := networks_id_seq db + 1;
          ip_addresses_id_seq := ip_addresses_id_seq db |}))
  /\ (forall e db', CreateNetwork drv db network = (Err e, db') ->
      e = FailedCreateNetwork /\ db' = db
      /\ (drv StInsertNetwork = true
          \/ cidr_in (Network_CIDR network) = None
          \/ inet_of_String (Network_Gateway network) = None)).
Proof.
  unfold CreateNetwork, insert_network. split.
  - intros c g -> -> ->. reflexivity.
  - intros e db'. destruct (drv StInsertNetwork); [intros [= <- <-]; auto|].
    destruct (cidr_in (Network_CIDR network)).
    + destruct (inet_of_String (Network_Gateway network)); [discriminate|].
      intros [= <- <-]. auto.
    + intros [= <- <-]. auto.
Qed.

Lemma CreateNetwork_inserts_one_row_witness :
  CreateNetwork reliable empty_db net30 =
  (Ok {| Network_ID := 1;
         Network_CIDR := Network_CIDR net30;
         Network_Gateway := Network_Gateway net30 |},
   {| networks := [{| nr_id := 1; nr_cidr := Network_CIDR net30;
                      nr_gateway := [10; 0; 0; 1] |}];
      ip_addresses := [];
      networks_id_seq := 1;
      ip_addresses_id_seq := 0 |}).
Proof.
  apply (proj1 (CreateNetwork_inserts_one_row reliable empty_db net30)); reflexivity.
Defined.

(** C4 as stated fails: the gateway "192.168.1.1" does not lie within
    "10.0.0.0/30", and [CreateNetwork] succeeds and writes the row. *)
Lemma CreateNetwork_gateway_outside_block :
  exists ipNet network' db',
    ParseCIDR_of_text (Network_CIDR net30_far_gateway) = Some ipNet
    /\ Contains ipNet (Network_Gateway net30_far_gateway) = false
    /\ CreateNetwork reliable empty_db net30_far_gateway = (Ok network', db')
    /\ Network_ID network' = 1
    /\ networks db' = [{| nr_id := 1; nr_cidr := Network_CIDR net30_far_gateway;
                          nr_gateway := [192; 168; 1; 1] |}].
Proof.
  eexists _, _, _. repeat split.
Qed.

(** C7. The round trip fails on the code: "10.0.0.2" is allocated by
    explicit request (record 1) and released, both with success; then
    [GetIP] of the id returns an error, not the record with status
    'available' and the hostname cleared. *)
Theorem roundtrip_release_get_fails :
  AllocateIP reliable 0 db_net30 1 (Some (IPv4 10 0 0 2)) "h1"
  = Some (Ok {| ID := 1; NetworkID := 1; Address := IPv4 10 0 0 2;
                Hostname := "h1"; Status := "allocated" |}, db_one)
  /\ ReleaseIP reliable db_one 1 = (Ok tt, db_released)
  /\ ip_addresses db_released
     = [{| ir_id := 1; ir_network_id := 1; ir_address := [10; 0; 0; 2];
           ir_hostname := None; ir_status := "available" |}]
  /\ GetIP reliable db_released 1 = Err FailedGetIP.
Proof. repeat split. Qed.

Lemma update_ip_select db id f :
  (forall r, ir_id (f r) = ir_id r) ->
  select_ip (fst (update_ip db id f)) id = map f (select_ip db id).
Proof.
  intros Hf. unfold select_ip, update_ip. cbn [fst ip_addresses].
  induction (ip_addresses db) as [|r l IH]; [reflexivity|].
  cbn [map List.filter]. destruct (ir_id r =? id) eqn:E.
  - rewrite Hf, E. cbn [map]. f_equal. exact IH.
  - rewrite E. exact IH.
Qed.

(** C10. [GetIP] of the id of an existing record whose hostname column
    is NULL returns an error, not the record; it returns a record only
    when the stored hostname is not NULL. [ReleaseIP] leaves the record
    it released with a NULL hostname (and status 'available'), so
    [GetIP] of a released record fails; once [UpdateIPHostname] has set
    a hostname again, [GetIP] returns the record. *)
Theorem GetIP_null_hostname :
  (forall drv db id r,
      QueryRow (select_ip db id) = Some r -> ir_hostname r = None ->
      GetIP drv db id = Err FailedGetIP)
  /\ (forall drv db id rec,
      GetIP drv db id = Ok (Some rec) ->
      exists r, QueryRow (select_ip db id) = Some r
                /\ ir_hostname r = Some (Hostname rec))
  /\ (forall drv drv' db id db',
      ReleaseIP drv db id = (Ok tt, db') ->
      (exists r, QueryRow (select_ip db' id) = Some r
                 /\ ir_hostname r = None /\ ir_status r = "available"%string)
      /\ GetIP drv' db' id = Err FailedGetIP)
  /\ (forall drv db id h db',
      UpdateIPHostname drv db id h = (Ok tt, db') ->
      exists rec, GetIP reliable db' id = Ok (Some rec) /\ ID rec = id /\ Hostname rec = h).
Proof.
  split; [|split; [|split]].
  - intros drv db id r Hq Hn. unfold GetIP.
    destruct (Scan_cases drv StSelectIP (select_ip db id)) as [[-> _]|[_ ->]]; [reflexivity|].
    rewrite Hq, Hn. reflexivity.
  - intros drv db id rec. unfold GetIP.
    destruct (Scan_cases drv StSelectIP (select_ip db id)) as [[-> _]|[_ ->]]; [discriminate|].
    destruct (QueryRow (select_ip db id)) as [r|]; [|discriminate].
    destruct (ir_hostname r) as [x|] eqn:E; [|discriminate].
    cbn. intros [= <-]. exists r. auto.
  - intros drv drv' db id db'. unfold ReleaseIP.
    destruct (drv StUpdateRelease); [discriminate|].
    pose proof (update_ip_select db id release_row (fun _ => eq_refl)) as Hs.
    destruct (update_ip db id release_row) as [db1 k] eqn:E. cbn [fst] in Hs.
    assert (Hk : k = Z.of_nat (length (select_ip db id))).
    { unfold update_ip in E. injection E as _ <-. reflexivity. }
    destruct (drv StRowsAffected); [discriminate|].
    destruct (Z.eqb_spec k 0) as [|Hne]; [discriminate|]. intros [= <-].
    destruct (select_ip db id) as [|r l] eqn:El; [cbn in Hk; lia|].
    assert (Hq : QueryRow (select_ip db1 id) = Some (release_row r))
      by (rewrite Hs; reflexivity).
    split.
    + exists (release_row r). auto.
    + unfold GetIP.
      destruct (Scan_cases drv' StSelectIP (select_ip db1 id)) as [[-> _]|[_ ->]];
        [reflexivity|].
      rewrite Hq. reflexivity.
  - intros drv db id h db'. unfold UpdateIPHostname, Begin, Commit.
    destruct (drv StBegin); [discriminate|].
    destruct (Scan_cases drv StSelectNetworkID (select_ip db id)) as [[-> _]|[_ ->]];
      [discriminate|].
    destruct (QueryRow (select_ip db id)) as [r|] eqn:Eq; [|discriminate].
    destruct (Scan _ _ _) as [[]|]; try discriminate.
    destruct (drv StUpdateHostname); [discriminate|].
    pose proof (update_ip_select db id (rename_row h) (fun _ => eq_refl)) as Hs.
    destruct (update_ip db id (rename_row h)) as [db1 k]. cbn [fst] in Hs.
    destruct (drv StRowsAffected); [discriminate|].
    destruct (k =? 0); [discriminate|].
    destruct (drv StCommit); [discriminate|]. intros [= <-].
    unfold QueryRow in Eq. destruct (select_ip db id) as [|r' l] eqn:El; [discriminate|].
    injection Eq as ->.
    assert (Hid : ir_id r = id).
    { assert (Hin : In r (select_ip db id)) by (rewrite El; left; reflexivity).
      apply filter_In in Hin. apply Z.eqb_eq. tauto. }
    unfold GetIP. rewrite Scan_reliable, Hs. cbn. eexists. split; [reflexivity|]. auto.
Qed.

Lemma GetIP_null_hostname_witness :
  ReleaseIP reliable db_one 1 = (Ok tt, db_released)
  /\ GetIP reliable db_released 1 = Err FailedGetIP
  /\ UpdateIPHostname reliable db_released 1 "h9" = (Ok tt, db_renamed)
  /\ exists rec, GetIP reliable db_renamed 1 = Ok (Some rec)
                 /\ ID rec = 1 /\ Hostname rec = "h9"%string.
Proof.
  split; [reflexivity|]. split; [|split; [reflexivity|]].
  - apply (proj1 (proj2 (proj2 GetIP_null_hostname)) reliable reliable db_one 1 db_released).
    reflexivity.
  - apply (proj2 (proj2 (proj2 GetIP_null_hostname)) reliable db_released 1 "h9" db_renamed).
    reflexivity.
Defined.

(* ================================================================= *)
(** * The scenario of network "10.0.0.0/30" *)

Lemma no_rows_of_network db networkID :
  (forall r, In r (ip_addresses db) -> ir_network_id r <> networkID) ->
  (forall a, occupied db networkID a = false)
  /\ (forall h, hostname_used db networkID h = false).
Proof.
  intros Hno. split; intros x.
  - destruct (occupied db networkID x) eqn:E; [|reflexivity].
    apply occupied_spec in E. destruct E as (r & Hin & H & _). destruct (Hno r Hin H).
  - destruct (hostname_used db networkID x) eqn:E; [|reflexivity].
    apply hostname_used_spec in E. destruct E as (r & Hin & H & _). destruct (Hno r Hin H).
Qed.

Lemma candidates_slash30 fuel :
  (3 <= fuel)%nat ->
  candidates fuel {| IPNet_IP := [10; 0; 0; 0]; IPNet_Mask := [255; 255; 255; 252] |}
             (IPv4 10 0 0 1) [10; 0; 0; 1]
  = Some [[10; 0; 0; 2]; [10; 0; 0; 3]].
Proof. intros H. apply (candidates_mono _ _ 3); [exact H | reflexivity]. Qed.

(** C6. In a network with CIDR "10.0.0.0/30" and gateway "10.0.0.1" that
    has no address records, three calls that select the first available
    address, made with three different hostnames, go like this: the
    first returns "10.0.0.2", the second "10.0.0.3", the third fails
    with the error of the exhausted pool. *)
Theorem first_available_in_slash30 fuel db networkID n h1 h2 h3 :
  (3 <= fuel)%nat ->
  QueryRow (select_network db networkID) = Some n ->
  nr_cidr n = {| cidr_addr := [10; 0; 0; 0]; cidr_bits := 30 |} ->
  nr_gateway n = [10; 0; 0; 1] ->
  (forall r, In r (ip_addresses db) -> ir_network_id r <> networkID) ->
  h1 <> h2 -> h1 <> h3 -> h2 <> h3 ->
  exists r1 db1 r2 db2,
    AllocateIP reliable fuel db networkID None h1 = Some (Ok r1, db1)
    /\ Address r1 = IPv4 10 0 0 2
    /\ AllocateIP reliable fuel db1 networkID None h2 = Some (Ok r2, db2)
    /\ Address r2 = IPv4 10 0 0 3
    /\ AllocateIP reliable fuel db2 networkID None h3 = Some (Err NoAvailable, db2).
Proof.
  intros Hfuel En Ec Eg Hno H12 H13 H23.
  destruct (no_rows_of_network db networkID Hno) as [Hocc Hhost].
  apply String.eqb_neq in H12, H13, H23.
  set (l := [[10; 0; 0; 2]; [10; 0; 0; 3]]).
  assert (Hrun : forall db0 h,
             select_network db0 networkID = select_network db networkID ->
             hostname_used db0 networkID h = false ->
             AllocateIP reliable fuel db0 networkID None h =
             Some match first_free db0 networkID l with
                  | Some c => (Ok (allocated_record db0 networkID (to_inet c) h),
                               with_allocated db0 networkID (to_inet c) h)
                  | None => (Err NoAvailable, db0)
                  end).
  { intros db0 h Hsel Hh.
    rewrite (AllocateIP_first_available_candidates fuel db0 networkID h n
               (IPv4 10 0 0 1)
               {| IPNet_IP := [10; 0; 0; 0]; IPNet_Mask := [255; 255; 255; 252] |} l);
      [reflexivity | exact Hh | rewrite Hsel; exact En | rewrite Eg; reflexivity
      | rewrite Ec; reflexivity | apply candidates_slash30, Hfuel]. }
  set (db1 := with_allocated db networkID [10; 0; 0; 2] h1).
  set (db2 := with_allocated db1 networkID [10; 0; 0; 3] h2).
  exists (allocated_record db networkID [10; 0; 0; 2] h1), db1,
         (allocated_record db1 networkID [10; 0; 0; 3] h2), db2.
  assert (O2 : forall a, occupied db1 networkID a = bytes_Equal [10; 0; 0; 2] a).
  { intros a. unfold db1. rewrite occupied_with_allocated, Hocc, Z.eqb_refl. reflexivity. }
  assert (U1 : forall h, hostname_used db1 networkID h = String.eqb h1 h).
  { intros h. unfold db1. rewrite hostname_used_with_allocated, Hhost, Z.eqb_refl.
    reflexivity. }
  assert (O3 : forall a, occupied db2 networkID a
                         = bytes_Equal [10; 0; 0; 2] a || bytes_Equal [10; 0; 0; 3] a).
  { intros a. unfold db2. rewrite occupied_with_allocated, O2, Z.eqb_refl. reflexivity. }
  assert (U2 : forall h, hostname_used db2 networkID h = String.eqb h1 h || String.eqb h2 h).
  { intros h. unfold db2. rewrite hostname_used_with_allocated, U1, Z.eqb_refl.
    reflexivity. }
  repeat split.
  - rewrite Hrun by auto. unfold first_free, l. cbn [List.find].
    change (to_inet [10; 0; 0; 2]) with [10; 0; 0; 2]. rewrite Hocc. reflexivity.
  - rewrite Hrun by (rewrite ?U1; auto). unfold first_free, l. cbn [List.find].
    change (to_inet [10; 0; 0; 2]) with [10; 0; 0; 2].
    change (to_inet [10; 0; 0; 3]) with [10; 0; 0; 3]. rewrite !O2. reflexivity.
  - rewrite Hrun by (rewrite ?U2, ?H13, ?H23; auto). unfold first_free, l. cbn [List.find].
    change (to_inet [10; 0; 0; 2]) with [10; 0; 0; 2].
    change (to_inet [10; 0; 0; 3]) with [10; 0; 0; 3]. rewrite !O3. reflexivity.
Qed.

Lemma first_available_in_slash30_witness :
  exists r1 db1 r2 db2,
    AllocateIP reliable 3 db_net30 1 None "h1" = Some (Ok r1, db1)
    /\ Address r1 = IPv4 10 0 0 2
    /\ AllocateIP reliable 3 db1 1 None "h2" = Some (Ok r2, db2)
    /\ Address r2 = IPv4 10 0 0 3
    /\ AllocateIP reliable 3 db2 1 None "h3" = Some (Err NoAvailable, db2).
Proof.
  apply (first_available_in_slash30 3 db_net30 1
           {| nr_id := 1; nr_cidr := {| cidr_addr := [10; 0; 0; 0]; cidr_bits := 30 |};
              nr_gateway := [10; 0; 0; 1] |} "h1" "h2" "h3");
    [lia | reflexivity | reflexivity | reflexivity | intros r []
    | discriminate | discriminate | discriminate].
Defined.

(* ================================================================= *)
(** * The order of the first-available selection *)

Lemma AllocateIP_mono drv fuel fuel' db networkID requestedIP h r :
  (fuel <= fuel')%nat ->
  AllocateIP drv fuel db networkID requestedIP h = Some r ->
  AllocateIP drv fuel' db networkID requestedIP h = Some r.
Proof.
  intros Hle. unfold AllocateIP. destruct (drv StBegin); [auto|].
  destruct (Scan _ _ _) as [[]|]; auto.
  destruct (Scan _ _ _) as [|n]; [auto|].
  destruct (ParseIP_of_text (nr_gateway n)) as [g|]; [|auto].
  destruct requestedIP as [rip|]; [auto|].
  destruct (ParseCIDR_of_text (nr_cidr n)) as [ipNet|]; [|auto].
  destruct (AllocateIP_loop drv fuel _ _ _ _ _ _) as [x|] eqn:E; [|discriminate].
  rewrite (AllocateIP_loop_mono _ _ _ _ _ _ _ _ _ _ Hle E). auto.
Qed.

(** In a list sorted by a strict order, [find] returns the least
    element that passes the test. *)
Lemma find_sorted_least (p : IP -> bool) l : forall c,
  StronglySorted (fun a b => ipval a < ipval b) l ->
  List.find p l = Some c ->
  In c l /\ p c = true /\ forall a, In a l -> p a = true -> ipval c <= ipval a.
Proof.
  induction l as [|x l IH]; intros c Hs; cbn [List.find]; [discriminate|].
  apply StronglySorted_inv in Hs. destruct Hs as [Hs Hx].
  rewrite List.Forall_forall in Hx.
  destruct (p x) eqn:Px.
  - intros [= <-]. split; [left; reflexivity|]. split; [exact Px|].
    intros a [<-|Hin] _; [lia|]. specialize (Hx a Hin). lia.
  - intros Hf. destruct (IH c Hs Hf) as (Hin & Pc & Hmin).
    split; [right; exact Hin|]. split; [exact Pc|].
    intros a [<-|Ha] Pa; [congruence|]. apply Hmin; auto.
Qed.

(** C8 (as amended). For an IPv4 network whose prefix length is at
    least 1, the candidate sequence of the first-available selection
    enumerates the addresses of the CIDR block in strictly increasing
    numeric order, starting from the address that follows the base
    address of the network (the base address itself is not a candidate)
    and continuing to the last address of the block, skipping only the
    gateway; a successful first-available [AllocateIP] returns the
    numerically smallest address of the block, the base address apart,
    that is neither the gateway nor occupied by a record. *)
Theorem first_available_order db networkID n :
  wf_db db = true ->
  QueryRow (select_network db networkID) = Some n ->
  length (cidr_addr (nr_cidr n)) = 4%nat ->
  1 <= cidr_bits (nr_cidr n) ->
  let base := cidr_addr (nr_cidr n) in
  let size := block_size (nr_cidr n) in
  let gatewayIP := As16 (nr_gateway n) in
  exists ipNet l,
    ParseCIDR_of_text (nr_cidr n) = Some ipNet
    /\ IPNet_IP ipNet = base
    /\ (forall fuel, (Z.to_nat size - 1 <= fuel)%nat ->
        candidates fuel ipNet gatewayIP (nextIP base) = Some l)
    /\ StronglySorted (fun a b => ipval a < ipval b) l
    /\ (forall a, In a l <->
                  length a = 4%nat /\ bytes_ok a = true /\ Contains ipNet a = true
                  /\ a <> base /\ Equal a gatewayIP = false)
    /\ (forall a, In a l -> ipval base < ipval a < ipval base + size)
    /\ (forall k, 1 <= k < size ->
        exists a, length a = 4%nat /\ bytes_ok a = true /\ ipval a = ipval base + k
                  /\ (Equal a gatewayIP = false -> In a l))
    /\ (forall fuel h rec db',
        AllocateIP reliable fuel db networkID None h = Some (Ok rec, db') ->
        exists a, In a l /\ Address rec = As16 a /\ occupied db networkID a = false
                  /\ forall a', In a' l -> occupied db networkID a' = false ->
                                ipval a <= ipval a').
Proof.
  intros Hwf En Hv4 Hbits. cbv zeta.
  destruct (wf_db_network _ _ _ Hwf En) as [Hc Hg].
  set (c := nr_cidr n) in *. set (gatewayIP := As16 (nr_gateway n)).
  set (ipNet := {| IPNet_IP := cidr_addr c; IPNet_Mask := CIDRMask_loop 4 (cidr_bits c) |}).
  set (l := List.filter (fun ip => negb (Equal ip gatewayIP))
              (map (nth_after (cidr_addr c)) (seq 1 (Z.to_nat (block_size c) - 1)))).
  destruct (block_fits c Hc Hv4) as (Hpos & H0 & Hfit & _).
  assert (Hmem : forall a, In a l <->
             exists k, (1 <= k < Z.to_nat (block_size c))%nat
                       /\ a = nth_after (cidr_addr c) k
                       /\ Equal a gatewayIP = false).
  { intros a. unfold l. rewrite filter_In, in_map_iff, negb_true_iff. split.
    - intros [(k & <- & Hk) HE]. apply in_seq in Hk. exists k. repeat split; auto; lia.
    - intros (k & Hk & -> & HE). split; [|exact HE]. exists k. split; [reflexivity|].
      apply in_seq. lia. }
  assert (Hsorted : StronglySorted (fun a b => ipval a < ipval b) l).
  { apply (candidates_sorted c Hc Hv4). lia. }
  assert (Hcand : forall fuel, (Z.to_nat (block_size c) - 1 <= fuel)%nat ->
             candidates fuel ipNet gatewayIP (nextIP (cidr_addr c)) = Some l).
  { intros fuel Hfuel. change (nextIP (cidr_addr c)) with (nth_after (cidr_addr c) 1).
    apply (candidates_from c Hc Hv4); auto. lia. }
  assert (Hinside : forall k, (k < Z.to_nat (block_size c))%nat ->
             length (nth_after (cidr_addr c) k) = 4%nat
             /\ bytes_ok (nth_after (cidr_addr c) k) = true
             /\ ipval (nth_after (cidr_addr c) k) = ipval (cidr_addr c) + Z.of_nat k
             /\ Contains ipNet (nth_after (cidr_addr c) k) = true).
  { intros k Hk. destruct (nth_after_facts c Hc Hv4 k) as (Hl & Hok & _).
    assert (Hk' : 0 <= Z.of_nat k < block_size c) by lia.
    destruct (nth_after_inside c Hc Hv4 k Hk') as [Hval HC]. auto. }
  exists ipNet, l. split; [apply (ParseCIDR_of_text_v4 c Hc Hv4)|].
  split; [reflexivity|]. split; [exact Hcand|]. split; [exact Hsorted|].
  split; [|split; [|split]].
  - intros a. rewrite Hmem. split.
    + intros (k & Hk & -> & HE).
      destruct (Hinside k ltac:(lia)) as (Hl & Hok & Hval & HC).
      repeat split; auto. intros Heq. rewrite Heq in Hval. lia.
    + intros (Hl & Hok & HC & Hne & HE).
      destruct (Contains_v4_nth_after c Hc Hv4 a Hl Hok HC) as (k & Hk & ->).
      exists k. repeat split; auto; [|lia].
      destruct k; [|lia]. exfalso. apply Hne. reflexivity.
  - intros a Ha. apply Hmem in Ha. destruct Ha as (k & Hk & -> & _).
    destruct (Hinside k ltac:(lia)) as (_ & _ & -> & _). lia.
  - intros k Hk. exists (nth_after (cidr_addr c) (Z.to_nat k)).
    destruct (Hinside (Z.to_nat k) ltac:(lia)) as (Hl & Hok & Hval & _).
    repeat split; auto; [lia|].
    intros HE. apply Hmem. exists (Z.to_nat k). repeat split; auto; lia.
  - intros fuel h rec db' Hrun.
    pose proof (AllocateIP_first_available_cases _ _ _ _ _ _ _ Hrun) as Hcases.
    destruct Hcases as [(e & He & _)|(n' & g & ipNet' & c0 & Hh & _)]; [discriminate|].
    apply (AllocateIP_mono reliable fuel (Nat.max fuel (Z.to_nat (block_size c) - 1))) in Hrun;
      [|lia].
    rewrite (AllocateIP_first_available_candidates _ db networkID h n gatewayIP ipNet l)
      in Hrun; auto.
    + destruct (first_free db networkID l) as [a|] eqn:Ef; [|destruct l; discriminate].
      injection Hrun as <- _.
      destruct (find_sorted_least _ _ _ Hsorted Ef) as (Hin & Hfree & Hmin).
      assert (Hlen : forall x, In x l -> length x = 4%nat).
      { intros x Hx. apply Hmem in Hx. destruct Hx as (k & Hk & -> & _).
        apply (Hinside k). lia. }
      rewrite (to_inet_v4 a (Hlen a Hin)) in *. apply negb_true_iff in Hfree.
      exists a. repeat split; auto.
      intros a' Hin' Hfree'. apply Hmin; auto.
      rewrite (to_inet_v4 a' (Hlen a' Hin')), Hfree'. reflexivity.
    + apply ParseIP_of_text_is_inet, Hg.
    + apply (ParseCIDR_of_text_v4 c Hc Hv4).
    + apply Hcand. lia.
Qed.

Lemma first_available_order_witness :
  exists ipNet l,
    ParseCIDR_of_text {| cidr_addr := [10; 0; 0; 0]; cidr_bits := 30 |} = Some ipNet
    /\ candidates 3 ipNet (IPv4 10 0 0 1) (nextIP [10; 0; 0; 0]) = Some l
    /\ StronglySorted (fun a b => ipval a < ipval b) l
    /\ (In [10; 0; 0; 3] l <->
        length [10; 0; 0; 3] = 4%nat /\ bytes_ok [10; 0; 0; 3] = true
        /\ Contains ipNet [10; 0; 0; 3] = true
        /\ [10; 0; 0; 3] <> [10; 0; 0; 0] /\ Equal [10; 0; 0; 3] (IPv4 10 0 0 1) = false).
Proof.
  destruct (first_available_order db_one 1
              {| nr_id := 1; nr_cidr := {| cidr_addr := [10; 0; 0; 0]; cidr_bits := 30 |};
                 nr_gateway := [10; 0; 0; 1] |})
    as (ipNet & l & H1 & _ & H3 & H4 & H5 & _);
    [reflexivity | reflexivity | reflexivity | cbn; lia |].
  exists ipNet, l. split; [exact H1|]. split; [|split; [exact H4 | apply H5]].
  apply H3. vm_compute. lia.
Defined.

(** C8 as stated fails: in the empty network "10.0.0.0/30" with gateway
    "10.0.0.1" the base address "10.0.0.0" belongs to the block, is not
    the gateway and is not occupied, yet the candidate sequence starts
    at "10.0.0.2" and the first-available [AllocateIP] returns
    "10.0.0.2", which is not the smallest such address. *)
Lemma first_available_skips_base :
  exists ipNet rec db',
    ParseCIDR_of_text (Network_CIDR net30) = Some ipNet
    /\ IPNet_IP ipNet = [10; 0; 0; 0]
    /\ candidates 3 ipNet (IPv4 10 0 0 1) (nextIP (IPNet_IP ipNet))
       = Some [[10; 0; 0; 2]; [10; 0; 0; 3]]
    /\ AllocateIP reliable 3 db_net30 1 None "h1" = Some (Ok rec, db')
    /\ Address rec = IPv4 10 0 0 2
    /\ Contains ipNet [10; 0; 0; 0] = true
    /\ Equal [10; 0; 0; 0] (IPv4 10 0 0 1) = false
    /\ occupied db_net30 1 [10; 0; 0; 0] = false
    /\ ipval [10; 0; 0; 0] < ipval (to_inet (Address rec)).
Proof.
  eexists _, _, _. repeat split.
Qed.
(** C9. [nextIP] is pure and returns the numeric successor of an IPv4
    address: for the four bytes of [ip], read as a big-endian integer
    [v], the result has four bytes that encode [(v + 1) mod 2^32] (the
    increment of the last octet carries into the octet before it on
    overflow); on the heap, the result is a newly allocated array and
    the array of the argument, like every array that existed before the
    call, is left as it was. *)
Theorem nextIP_successor (ip : IP) :
  length ip = 4%nat -> bytes_ok ip = true ->
  length (nextIP ip) = 4%nat
  /\ bytes_ok (nextIP ip) = true
  /\ ipval (nextIP ip) = (ipval ip + 1) mod 2 ^ 32
  /\ forall (h : Heap.heap) (p : nat),
       h !! p = Some ip ->
       exists q, h !! q = None
                 /\ fst (Heap.nextIP h p) !! p = Some ip
                 /\ (forall l, l <> q -> fst (Heap.nextIP h p) !! l = h !! l)
                 /\ snd (Heap.nextIP h p) = q
                 /\ fst (Heap.nextIP h p) !! q = Some (nextIP ip).
Proof.
  unfold IP in *. intros Hlen Hok. repeat split.
  - rewrite nextIP_length. exact Hlen.
  - apply nextIP_bytes_ok, Hok.
  - rewrite nextIP_ipval, Hlen by exact Hok. reflexivity.
  - intros h p Hp. destruct (heap_nextIP_spec h p ip Hp) as [Hfresh Heq].
    exists (fresh (dom h)). rewrite Heq. cbn [fst snd].
    split; [exact Hfresh|]. split; [|split; [|split]].
    + rewrite lookup_insert_ne; [exact Hp | intros E; rewrite E in Hfresh; congruence].
    + intros l Hl. apply lookup_insert_ne. auto.
    + reflexivity.
    + apply lookup_insert_eq.
Qed.

Lemma nextIP_successor_witness :
  ipval (nextIP [10; 0; 0; 255]) = (ipval [10; 0; 0; 255] + 1) mod 2 ^ 32
  /\ nextIP [10; 0; 0; 255] = [10; 0; 1; 0].
Proof.
  split; [|reflexivity].
  apply (nextIP_successor [10; 0; 0; 255]); reflexivity.
Defined.

(* ================================================================= *)
(** * Further properties of [nextIP] and [AllocateIP] *)

Lemma bytes_ok_zeros n : bytes_ok (repeat 0 n) = true.
Proof. induction n as [|n IH]; [reflexivity|]. cbn [repeat]. rewrite bytes_ok_cons, IH. reflexivity. Qed.

(** X1. [nextIP] on a slice of any length (an IPv6 address, the empty
    slice): the result has the length of the argument and encodes the
    successor modulo [256^length]; from the largest address it wraps
    around to the all-zero address. *)
Theorem nextIP_any_length (ip : IP) :
  bytes_ok ip = true ->
  length (nextIP ip) = length ip
  /\ bytes_ok (nextIP ip) = true
  /\ ipval (nextIP ip) = (ipval ip + 1) mod 256 ^ Z.of_nat (length ip)
  /\ (ipval ip + 1 < 256 ^ Z.of_nat (length ip) -> ipval (nextIP ip) = ipval ip + 1)
  /\ (ipval ip + 1 = 256 ^ Z.of_nat (length ip) -> nextIP ip = repeat 0 (length ip)).
Proof.
  intros Hok. pose proof (ipval_bound ip Hok) as B.
  pose proof (nextIP_ipval ip Hok) as Hv.
  split; [apply nextIP_length|]. split; [apply nextIP_bytes_ok, Hok|].
  split; [exact Hv|]. split.
  - intros Hlt. rewrite Hv. apply Z.mod_small. lia.
  - intros Heq. apply ipval_inj.
    + rewrite nextIP_length, repeat_length. reflexivity.
    + apply nextIP_bytes_ok, Hok.
    + apply bytes_ok_zeros.
    + rewrite Hv, Heq, Z.mod_same, ipval_zeros by lia. reflexivity.
Qed.

Lemma nextIP_any_length_witness :
  nextIP (repeat 255 16) = repeat 0 16
  /\ ipval (nextIP (repeat 0 15 ++ [255])) = ipval (repeat 0 15 ++ [255]) + 1.
Proof.
  split.
  - apply (nextIP_any_length (repeat 255 16)); reflexivity.
  - apply (nextIP_any_length (repeat 0 15 ++ [255])); reflexivity.
Defined.

(** X2. A successful [AllocateIP], by either branch and whatever the
    driver does, adds exactly one row at the end of [ip_addresses] and
    changes nothing else: the networks and the rows that were there stay
    as they were. The new row has the next id of the sequence, status
    'allocated', the requested hostname, and an address that no row of
    the network had; the record returned describes that row. *)
Theorem AllocateIP_success_one_row drv fuel db networkID requestedIP h rec db' :
  AllocateIP drv fuel db networkID requestedIP h = Some (Ok rec, db') ->
  exists a,
    is_inet a = true
    /\ occupied db networkID a = false
    /\ hostname_used db networkID h = false
    /\ networks db' = networks db
    /\ ip_addresses db' = ip_addresses db ++
         [{| ir_id := ID rec; ir_network_id := networkID; ir_address := a;
             ir_hostname := Some h; ir_status := "allocated" |}]
    /\ ID rec = ip_addresses_id_seq db + 1
    /\ ip_addresses_id_seq db' = ID rec
    /\ networks_id_seq db' = networks_id_seq db
    /\ NetworkID rec = networkID /\ Hostname rec = h
    /\ Status rec = "allocated"%string /\ Address rec = As16 a
    /\ (forall ip, requestedIP = Some ip -> a = to_inet ip).
Proof.
  intros H. destruct requestedIP as [rip|].
  - apply AllocateIP_explicit_cases in H.
    destruct H as [(e & H & _)|(n & g & a & Hh & _ & _ & _ & Ea & Ho & H & ->)];
      [discriminate|].
    injection H as ->. exists a.
    apply inet_of_String_Some in Ea. destruct Ea as [Hi ->].
    repeat split; auto using to_inet_is_inet. intros ip [= <-]. reflexivity.
  - apply AllocateIP_first_available_cases in H.
    destruct H as [(e & H & _)|(n & g & ipNet & c & Hh & _ & _ & _ & HC & _ & Ho & H & ->)];
      [discriminate|].
    injection H as ->. exists (to_inet c).
    repeat split; auto; [|discriminate].
    apply to_inet_is_inet. eapply Contains_is_inet; eauto.
Qed.

Lemma AllocateIP_success_one_row_witness :
  exists a,
    ip_addresses (with_allocated Scenario.db_one 1 [10; 0; 0; 3] "h2")
    = ip_addresses Scenario.db_one ++
        [{| ir_id := 2; ir_network_id := 1; ir_address := a;
            ir_hostname := Some "h2"%string; ir_status := "allocated" |}].
Proof.
  destruct (AllocateIP_success_one_row reliable 3 Scenario.db_one 1 None "h2"
              (allocated_record Scenario.db_one 1 [10; 0; 0; 3] "h2")
              (with_allocated Scenario.db_one 1 [10; 0; 0; 3] "h2") eq_refl)
    as (a & _ & _ & _ & _ & H & _).
  exists a. exact H.
Defined.

(** X3. An explicit request for the gateway, in its 4-byte or its
    16-byte form, never succeeds, whatever the rows of the network and
    whatever the driver does; when the hostname is free and the driver
    does not fail, the error is the one of the gateway check and nothing
    is written. *)
Theorem AllocateIP_gateway_refused fuel db networkID requestedIP h n :
  wf_db db = true ->
  QueryRow (select_network db networkID) = Some n ->
  Equal requestedIP (As16 (nr_gateway n)) = true ->
  (forall drv rec db',
      AllocateIP drv fuel db networkID (Some requestedIP) h <> Some (Ok rec, db'))
  /\ (hostname_used db networkID h = false ->
      AllocateIP reliable fuel db networkID (Some requestedIP) h
      = Some (Err CannotAllocateGateway, db)).
Proof.
  intros Hwf En HE. destruct (wf_db_network _ _ _ Hwf En) as [_ Hg]. split.
  - intros drv rec db' H. apply AllocateIP_explicit_cases in H.
    destruct H as [(e & H & _)|(n' & g & a & _ & En' & Eg & HE' & _)]; [discriminate|].
    rewrite En in En'. injection En' as <-.
    rewrite (ParseIP_of_text_is_inet _ Hg) in Eg. injection Eg as <-. congruence.
  - intros Hh. rewrite AllocateIP_explicit, Hh, En, (ParseIP_of_text_is_inet _ Hg), HE.
    reflexivity.
Qed.

Lemma AllocateIP_gateway_refused_witness :
  AllocateIP reliable 0 Scenario.db_two 1 (Some [10; 0; 0; 1]) "h3"
  = Some (Err CannotAllocateGateway, Scenario.db_two).
Proof.
  apply (proj2 (AllocateIP_gateway_refused 0 Scenario.db_two 1 [10; 0; 0; 1] "h3"
                  {| nr_id := 1;
                     nr_cidr := {| cidr_addr := [10; 0; 0; 0]; cidr_bits := 30 |};
                     nr_gateway := [10; 0; 0; 1] |} eq_refl eq_refl eq_refl));
    reflexivity.
Defined.

(* ================================================================= *)
(** * Further properties of the first-available selection *)

Section Block4More.

Variable c : cidr.
Hypothesis c_ok : cidr_in c = Some c.
Hypothesis c_v4 : length (cidr_addr c) = 4%nat.

Let ipNet : IPNet :=
  {| IPNet_IP := cidr_addr c; IPNet_Mask := CIDRMask_loop 4 (cidr_bits c) |}.

Variable gatewayIP : IP.

Lemma block_candidates :
  1 <= cidr_bits c ->
  exists l,
    (forall fuel, (Z.to_nat (block_size c) - 1 <= fuel)%nat ->
                  candidates fuel ipNet gatewayIP (nextIP (cidr_addr c)) = Some l)
    /\ (forall a, In a l <-> is_candidate c gatewayIP a).
Proof.
  intros Hbits.
  set (l := List.filter (fun ip => negb (Equal ip gatewayIP))
              (map (nth_after (cidr_addr c)) (seq 1 (Z.to_nat (block_size c) - 1)))).
  destruct (block_fits c c_ok c_v4) as (Hpos & H0 & Hfit & _).
  assert (Hinside : forall k, (k < Z.to_nat (block_size c))%nat ->
             length (nth_after (cidr_addr c) k) = 4%nat
             /\ bytes_ok (nth_after (cidr_addr c) k) = true
             /\ ipval (nth_after (cidr_addr c) k) = ipval (cidr_addr c) + Z.of_nat k
             /\ Contains ipNet (nth_after (cidr_addr c) k) = true).
  { intros k Hk. destruct (nth_after_facts c c_ok c_v4 k) as (Hl & Hok & _).
    assert (Hk' : 0 <= Z.of_nat k < block_size c) by lia.
    destruct (nth_after_inside c c_ok c_v4 k Hk') as [Hval HC]. auto. }
  exists l. split.
  - intros fuel Hfuel. change (nextIP (cidr_addr c)) with (nth_after (cidr_addr c) 1).
    apply (candidates_from c c_ok c_v4); auto. lia.
  - intros a. unfold l, is_candidate. rewrite filter_In, in_map_iff, negb_true_iff. split.
    + intros [(k & <- & Hk) HE]. apply in_seq in Hk.
      destruct (Hinside k ltac:(lia)) as (Hl & Hok & Hval & HC).
      repeat split; auto. intros Heq. rewrite Heq in Hval. lia.
    + intros (Hl & Hok & HC & Hne & HE). split; [|exact HE].
      destruct (Contains_v4_nth_after c c_ok c_v4 a Hl Hok HC) as (k & Hk & ->).
      exists k. split; [reflexivity|]. apply in_seq.
      destruct k; [exfalso; apply Hne; reflexivity | lia].
Qed.

(** With any driver, the loop ends within the number of addresses of the
    block. *)
Lemma AllocateIP_loop_terminates drv networkID hostname r : forall j fuel v,
  1 <= cidr_bits c ->
  (j + r = Z.to_nat (block_size c))%nat -> (r <= fuel)%nat ->
  exists x, AllocateIP_loop drv fuel networkID hostname ipNet gatewayIP
              (nth_after (cidr_addr c) j) v = Some x.
Proof.
  induction r as [|r IH]; intros j fuel v Hbits Hj Hfuel.
  - replace j with (Z.to_nat (block_size c)) by lia.
    pose proof (nth_after_end c c_ok c_v4 Hbits) as HC.
    destruct fuel; cbn [AllocateIP_loop]; unfold ipNet; rewrite HC; eauto.
  - destruct fuel as [|fuel]; [lia|].
    destruct (nth_after_inside c c_ok c_v4 j ltac:(lia)) as [_ HC].
    cbn [AllocateIP_loop]. unfold ipNet. rewrite HC. cbn [negb].
    rewrite <- nth_after_S.
    destruct (Equal (nth_after (cidr_addr c) j) gatewayIP); [apply IH; auto; lia|].
    destruct (insert_ip_if_absent _ _ _ _ _) as [tx' [[]|[id a]]]; eauto.
    apply IH; auto; lia.
Qed.

End Block4More.

(** X4. For an IPv4 network with a prefix length of at least 1,
    [AllocateIP] returns, whatever the driver does and whatever was
    requested, as soon as the loop is given as many iterations as the
    block has addresses after its base: the loop of the first-available
    branch cannot run forever there. *)
Theorem AllocateIP_terminates drv fuel db networkID requestedIP h n :
  wf_db db = true ->
  QueryRow (select_network db networkID) = Some n ->
  length (cidr_addr (nr_cidr n)) = 4%nat ->
  1 <= cidr_bits (nr_cidr n) ->
  (Z.to_nat (block_size (nr_cidr n)) - 1 <= fuel)%nat ->
  exists res db', AllocateIP drv fuel db networkID requestedIP h = Some (res, db').
Proof.
  intros Hwf En Hv4 Hbits Hfuel. destruct (wf_db_network _ _ _ Hwf En) as [Hc Hg].
  unfold AllocateIP, Begin. destruct (drv StBegin); [eauto|].
  destruct (Scan_cases drv StSelectHostname (select_hostname db networkID h))
    as [[-> _]|[_ ->]]; [eauto|].
  destruct (QueryRow (select_hostname db networkID h)); [eauto|].
  destruct (Scan_cases drv StSelectNetwork (select_network db networkID))
    as [[-> _]|[_ ->]]; [eauto|].
  rewrite En, (ParseIP_of_text_is_inet _ Hg).
  destruct requestedIP as [rip|].
  - destruct (Equal rip _); [eauto|].
    destruct (lookup_address _ _ _ _) as [[]|]; eauto.
    destruct (insert_requested _ _ _ _ _) as [tx' [e|[id a]]]; eauto.
    destruct (AllocateIP_commit _ _ _ _ _ _ _); eauto.
  - rewrite (ParseCIDR_of_text_v4 _ Hc Hv4). cbn [IPNet_IP].
    destruct (block_fits _ Hc Hv4) as (Hpos & _).
    destruct (AllocateIP_loop_terminates (nr_cidr n) Hc Hv4 (As16 (nr_gateway n)) drv
                networkID h (Z.to_nat (block_size (nr_cidr n)) - 1) 1 fuel
                {| v_tx := db; v_err := None; v_id := 0; v_addressStr := None |}
                Hbits ltac:(lia) Hfuel) as [x Hx].
    change (nth_after (cidr_addr (nr_cidr n)) 1) with (nextIP (cidr_addr (nr_cidr n))) in Hx.
    rewrite Hx. destruct x as [v|e tx']; [|eauto].
    destruct (v_err v) as [[]|]; eauto; destruct (AllocateIP_commit _ _ _ _ _ _ _); eauto.
Qed.

Lemma AllocateIP_terminates_witness :
  exists res db', AllocateIP Scenario.commit_fails 3 Scenario.db_two 1 None "h3"
                  = Some (res, db').
Proof.
  apply (AllocateIP_terminates Scenario.commit_fails 3 Scenario.db_two 1 None "h3"
           {| nr_id := 1; nr_cidr := {| cidr_addr := [10; 0; 0; 0]; cidr_bits := 30 |};
              nr_gateway := [10; 0; 0; 1] |});
    [reflexivity | reflexivity | reflexivity | cbn; lia | vm_compute; lia].
Defined.

(** X5. The outcome of the first-available selection in an IPv4 network
    with a prefix length of at least 1, when the hostname is free, the
    driver does not fail and the loop has enough iterations. Call
    candidate an address of the block other than the base address and
    the gateway. The call succeeds if and only if some candidate is not
    occupied; it fails with the exhausted-pool error if and only if
    there are candidates and all are occupied; and when the block has no
    candidate at all (a /32, or a /31 whose second address is the
    gateway) it fails with the error of the unparsable address instead,
    after committing an empty transaction. *)
Theorem first_available_outcome fuel db networkID h n :
  wf_db db = true ->
  hostname_used db networkID h = false ->
  QueryRow (select_network db networkID) = Some n ->
  length (cidr_addr (nr_cidr n)) = 4%nat ->
  1 <= cidr_bits (nr_cidr n) ->
  (Z.to_nat (block_size (nr_cidr n)) - 1 <= fuel)%nat ->
  let cand := is_candidate (nr_cidr n) (As16 (nr_gateway n)) in
  let run := AllocateIP reliable fuel db networkID None h in
  ((exists rec db', run = Some (Ok rec, db'))
   <-> exists a, cand a /\ occupied db networkID a = false)
  /\ (run = Some (Err NoAvailable, db)
      <-> (exists a, cand a) /\ forall a, cand a -> occupied db networkID a = true)
  /\ (run = Some (Err FailedParseAllocated, db) <-> forall a, ~ cand a).
Proof.
  intros Hwf Hh En Hv4 Hbits Hfuel cand run.
  destruct (wf_db_network _ _ _ Hwf En) as [Hc Hg].
  destruct (block_candidates (nr_cidr n) Hc Hv4 (As16 (nr_gateway n)) Hbits)
    as (l & Hcand & Hmem).
  fold cand in Hmem.
  assert (Hrun : run = Some match first_free db networkID l with
       | Some c => (Ok (allocated_record db networkID (to_inet c) h),
                    with_allocated db networkID (to_inet c) h)
       | None => (Err (match l with [] => FailedParseAllocated | _ => NoAvailable end), db)
       end).
  { unfold run.
    apply (AllocateIP_first_available_candidates fuel db networkID h n
             (As16 (nr_gateway n)) _ l Hh En (ParseIP_of_text_is_inet _ Hg)
             (ParseCIDR_of_text_v4 _ Hc Hv4)).
    apply Hcand, Hfuel. }
  assert (Hinet : forall a, In a l -> to_inet a = a).
  { intros a Ha. apply Hmem in Ha. apply to_inet_v4, Ha. }
  assert (Hfree : forall a, first_free db networkID l = Some a ->
                            cand a /\ occupied db networkID a = false).
  { intros a Ef. apply find_some in Ef. destruct Ef as [Hin Hf].
    rewrite (Hinet a Hin), negb_true_iff in Hf. split; [apply Hmem, Hin | exact Hf]. }
  assert (Hnone : first_free db networkID l = None ->
                  forall a, cand a -> occupied db networkID a = true).
  { intros Ef a Ha. apply Hmem in Ha.
    pose proof (find_none _ _ Ef a Ha) as Hf. cbv beta in Hf. rewrite (Hinet a Ha) in Hf.
    apply negb_false_iff in Hf. exact Hf. }
  rewrite Hrun. destruct (first_free db networkID l) as [a0|] eqn:Ef.
  - destruct (Hfree a0 eq_refl) as [Hc0 Ho0]. split; [|split].
    + split; [intros _; eauto | intros _; eauto].
    + split; [discriminate|]. intros [_ Hall]. specialize (Hall a0 Hc0). congruence.
    + split; [discriminate|]. intros Hno. destruct (Hno a0 Hc0).
  - specialize (Hnone eq_refl). split; [|split].
    + split; [intros (rec & db' & H); discriminate|].
      intros (a & Ha & Ho). rewrite (Hnone a Ha) in Ho. discriminate.
    + destruct l as [|a1 l'].
      * split; [discriminate|]. intros [(a & Ha) _]. apply Hmem in Ha. destruct Ha.
      * split; [intros _|reflexivity]. split; [|exact Hnone].
        exists a1. apply Hmem. left. reflexivity.
    + destruct l as [|a1 l'].
      * split; [intros _ a Ha; apply Hmem in Ha; destruct Ha | reflexivity].
      * split; [discriminate|]. intros Hno. exfalso. apply (Hno a1), Hmem. left. reflexivity.
Qed.

Lemma first_available_outcome_witness :
  AllocateIP reliable 1 Scenario2.db_net31 1 None "h1"
  = Some (Err FailedParseAllocated, Scenario2.db_net31).
Proof.
  apply (first_available_outcome 1 Scenario2.db_net31 1 "h1"
           {| nr_id := 1; nr_cidr := {| cidr_addr := [10; 0; 0; 0]; cidr_bits := 31 |};
              nr_gateway := [10; 0; 0; 1] |});
    [reflexivity | reflexivity | reflexivity | reflexivity | cbn; lia | vm_compute; lia |].
  intros a (Hl & Hok & HC & Hne & HE).
  destruct (Contains_v4_nth_after {| cidr_addr := [10; 0; 0; 0]; cidr_bits := 31 |}
              eq_refl eq_refl a Hl Hok HC) as (k & Hk & ->).
  change (block_size {| cidr_addr := [10; 0; 0; 0]; cidr_bits := 31 |}) with 2 in Hk.
  destruct k as [|[|k]]; [apply Hne; reflexivity | discriminate HE | lia].
Defined.

Lemma AllocateIP_loop_unbounded drv networkID hostname ipNet gatewayIP :
  (forall ip, length ip = 4%nat -> bytes_ok ip = true -> Contains ipNet ip = true) ->
  forall fuel ip v r,
    existsb (fun n => nr_id n =? networkID) (networks (v_tx v)) = true ->
    length ip = 4%nat -> bytes_ok ip = true ->
    AllocateIP_loop drv fuel networkID hostname ipNet gatewayIP ip v = Some r ->
    (exists c, Contains ipNet c = true /\ r = LoopEnd (vars_inserted v networkID c hostname))
    \/ r = LoopReturn FailedAllocate (v_tx v).
Proof.
  intros Hall. induction fuel as [|fuel IH]; intros ip v r Hfk Hl Hok;
    cbn [AllocateIP_loop]; rewrite (Hall ip Hl Hok); cbn [negb]; [discriminate|].
  assert (Hl' : length (nextIP ip) = 4%nat) by (rewrite nextIP_length; exact Hl).
  pose proof (nextIP_bytes_ok ip Hok) as Hok'.
  destruct (Equal ip gatewayIP); [apply IH; auto|].
  destruct (insert_ip_if_absent_cases drv (v_tx v) networkID ip hostname Hfk
              (Contains_is_inet _ _ (Hall ip Hl Hok))) as [-> | ->].
  - intros [= <-]. auto.
  - destruct (occupied (v_tx v) networkID (to_inet ip)).
    + intros H. apply IH in H; auto.
    + intros [= <-]. left. exists ip. auto.
Qed.

(** X6. In an IPv4 network with prefix length 0 the loop of the
    first-available branch has no end of its own, every address being
    in the block: whatever the driver does and however many iterations
    it gets, a call that returns has inserted an address or was stopped
    by an error before or at an insert; it never reports the exhausted
    pool. *)
Theorem first_available_slash0_never_exhausted drv fuel db networkID h n res db' :
  wf_db db = true ->
  QueryRow (select_network db networkID) = Some n ->
  length (cidr_addr (nr_cidr n)) = 4%nat ->
  cidr_bits (nr_cidr n) = 0 ->
  AllocateIP drv fuel db networkID None h = Some (res, db') ->
  res <> Err NoAvailable /\ res <> Err FailedParseAllocated.
Proof.
  intros Hwf En Hv4 Hbits. destruct (wf_db_network _ _ _ Hwf En) as [Hc Hg].
  assert (Hall : forall ip, length ip = 4%nat -> bytes_ok ip = true ->
             Contains {| IPNet_IP := cidr_addr (nr_cidr n);
                         IPNet_Mask := CIDRMask_loop 4 (cidr_bits (nr_cidr n)) |} ip = true).
  { intros ip Hl Hok. apply (Contains_v4_range _ Hc Hv4 ip Hl Hok).
    destruct (block_fits _ Hc Hv4) as (_ & H0 & Hfit & _).
    pose proof (ipval_bound ip Hok) as B. rewrite Hl in B.
    unfold block_size in *. rewrite Hv4, Hbits in *.
    change (2 ^ (8 * Z.of_nat 4 - 0)) with (2 ^ 32) in *.
    change (256 ^ Z.of_nat 4) with (2 ^ 32) in B. lia. }
  unfold AllocateIP, Begin. destruct (drv StBegin); [intros [= <- _]; split; discriminate|].
  destruct (Scan drv StSelectHostname _) as [[]|];
    try (intros [= <- _]; split; discriminate).
  destruct (Scan_cases drv StSelectNetwork (select_network db networkID))
    as [[-> _]|[_ ->]]; [intros [= <- _]; split; discriminate|].
  rewrite En, (ParseIP_of_text_is_inet _ Hg), (ParseCIDR_of_text_v4 _ Hc Hv4).
  cbn [IPNet_IP].
  destruct (AllocateIP_loop _ _ _ _ _ _ _ _) as [r|] eqn:El; [|discriminate].
  destruct (cidr_in_facts _ Hc Hv4) as (Hbok & _).
  apply (AllocateIP_loop_unbounded _ _ _ _ _ Hall) in El;
    [| eapply select_network_exists; eauto
     | rewrite nextIP_length; exact Hv4 | apply nextIP_bytes_ok, Hbok].
  destruct El as [(c & HC & ->)| ->].
  - cbn [vars_inserted v_err v_tx v_id v_addressStr].
    rewrite AllocateIP_commit_is_inet
      by (apply to_inet_is_inet; eapply Contains_is_inet; eauto).
    destruct (drv StCommit); intros [= <- _]; split; discriminate.
  - intros [= <- _]. split; discriminate.
Qed.

Lemma first_available_slash0_never_exhausted_witness :
  AllocateIP reliable 2 Scenario2.db_net0 1 None "h1"
  = Some (Ok (allocated_record Scenario2.db_net0 1 [0; 0; 0; 2] "h1"),
          with_allocated Scenario2.db_net0 1 [0; 0; 0; 2] "h1")
  /\ Ok (allocated_record Scenario2.db_net0 1 [0; 0; 0; 2] "h1") <> Err NoAvailable.
Proof.
  split; [reflexivity|].
  apply (first_available_slash0_never_exhausted reliable 2 Scenario2.db_net0 1 "h1"
           {| nr_id := 1; nr_cidr := {| cidr_addr := [0; 0; 0; 0]; cidr_bits := 0 |};
              nr_gateway := [0; 0; 0; 1] |}
           _ (with_allocated Scenario2.db_net0 1 [0; 0; 0; 2] "h1"));
    reflexivity.
Defined.

(* ================================================================= *)
(** * [ReleaseIP] and [UpdateIPHostname] *)

Lemma update_ip_fields db id f :
  networks (fst (update_ip db id f)) = networks db
  /\ ip_addresses (fst (update_ip db id f))
     = map (fun r => if ir_id r =? id then f r else r) (ip_addresses db)
  /\ networks_id_seq (fst (update_ip db id f)) = networks_id_seq db
  /\ ip_addresses_id_seq (fst (update_ip db id f)) = ip_addresses_id_seq db
  /\ snd (update_ip db id f) = Z.of_nat (length (select_ip db id)).
Proof. repeat split. Qed.

Lemma update_ip_unknown db id f :
  (forall r, In r (ip_addresses db) -> ir_id r <> id) ->
  fst (update_ip db id f) = db /\ snd (update_ip db id f) = 0.
Proof.
  intros Hno. unfold update_ip, select_ip. cbn [fst snd]. destruct db as [ns rows s1 s2].
  cbn [networks ip_addresses networks_id_seq ip_addresses_id_seq] in *.
  assert (H : map (fun r => if ir_id r =? id then f r else r) rows = rows
              /\ List.filter (fun r => ir_id r =? id) rows = []).
  { induction rows as [|r rows IH]; [auto|]. cbn [map List.filter].
    destruct (Z.eqb_spec (ir_id r) id) as [E|E].
    - exfalso. apply (Hno r); [left; reflexivity | exact E].
    - destruct IH as [-> ->]; [intros r' Hr'; apply Hno; right; exact Hr'|]. auto. }
  destruct H as [-> ->]. auto.
Qed.

Lemma Rollback_update_ip db id f : Rollback db (fst (update_ip db id f)) = db.
Proof. destruct db. reflexivity. Qed.

Lemma occupied_update_ip db id f networkID a :
  (forall r, ir_network_id (f r) = ir_network_id r /\ ir_address (f r) = ir_address r) ->
  occupied (fst (update_ip db id f)) networkID a = occupied db networkID a.
Proof.
  intros Hf. unfold occupied, update_ip. cbn [fst ip_addresses].
  induction (ip_addresses db) as [|r rows IH]; [reflexivity|].
  cbn [map existsb]. rewrite IH. f_equal.
  destruct (ir_id r =? id); [|reflexivity]. destruct (Hf r) as [-> ->]. reflexivity.
Qed.

(** What a call of [ReleaseIP] leaves: the store as it was, or the
    store with the rows of that id released. *)
Lemma ReleaseIP_cases drv db id res db' :
  ReleaseIP drv db id = (res, db') ->
  (db' = db /\ res <> Ok tt)
  \/ (db' = fst (update_ip db id release_row)
      /\ (res = Ok tt -> select_ip db id <> [])).
Proof.
  unfold ReleaseIP. destruct (drv StUpdateRelease); [intros [= <- <-]; left; split; [reflexivity|discriminate]|].
  pose proof (update_ip_fields db id release_row) as (_ & _ & _ & _ & Hk).
  destruct (update_ip db id release_row) as [db1 k]. cbn [fst snd] in *.
  destruct (drv StRowsAffected); [intros [= <- <-]; right; split; [reflexivity|discriminate]|].
  destruct (Z.eqb_spec k 0); intros [= <- <-]; right; (split; [reflexivity|]).
  - discriminate.
  - intros _ E. rewrite E in Hk. cbn in Hk. lia.
Qed.

(** What a call of [UpdateIPHostname] leaves: on an error the store as
    it was, sequences included; on success the store with the rows of
    that id renamed. *)
Lemma UpdateIPHostname_cases drv db id h res db' :
  UpdateIPHostname drv db id h = (res, db') ->
  (exists e, res = Err e /\ db' = db)
  \/ (res = Ok tt /\ db' = fst (update_ip db id (rename_row h))
      /\ exists r0, QueryRow (select_ip db id) = Some r0
                    /\ hostname_used_by_other db (ir_network_id r0) h id = false).
Proof.
  unfold UpdateIPHostname, Begin, Commit. rewrite Rollback_same.
  destruct (drv StBegin); [intros [= <- <-]; eauto|].
  destruct (Scan_cases drv StSelectNetworkID (select_ip db id)) as [[-> _]|[_ ->]];
    [intros [= <- <-]; eauto|].
  destruct (QueryRow (select_ip db id)) as [r0|]; [|intros [= <- <-]; eauto].
  destruct (Scan_cases drv StSelectHostnameOther
              (select_hostname_other db (ir_network_id r0) h id)) as [[-> _]|[_ ->]];
    [intros [= <- <-]; eauto|].
  pose proof (select_hostname_other_used db (ir_network_id r0) h id) as Hu.
  destruct (QueryRow (select_hostname_other _ _ _ _)); [intros [= <- <-]; eauto|].
  destruct (drv StUpdateHostname); [intros [= <- <-]; eauto|].
  pose proof (Rollback_update_ip db id (rename_row h)) as Hrb.
  destruct (update_ip db id (rename_row h)) as [db1 k]. cbn [fst] in Hrb.
  destruct (drv StRowsAffected); [rewrite Hrb; intros [= <- <-]; eauto|].
  destruct (k =? 0); [rewrite Hrb; intros [= <- <-]; eauto|].
  destruct (drv StCommit); [rewrite Hrb; intros [= <- <-]; eauto|].
  intros [= <- <-]. right. repeat split. eauto.
Qed.

(** X7. [ReleaseIP] of an id that no record has fails and leaves the
    store as it was; when the driver does not fail the error is
    'IP address not found'. *)
Theorem ReleaseIP_unknown_id drv db id :
  (forall r, In r (ip_addresses db) -> ir_id r <> id) ->
  exists e, ReleaseIP drv db id = (Err e, db)
            /\ (drv StUpdateRelease = false -> drv StRowsAffected = false ->
                e = IPNotFound).
Proof.
  intros Hno. unfold ReleaseIP.
  destruct (drv StUpdateRelease); [eexists; split; [reflexivity|discriminate]|].
  destruct (update_ip_unknown db id release_row Hno) as [H1 H2].
  destruct (update_ip db id release_row) as [db1 k]. cbn [fst snd] in *. subst.
  destruct (drv StRowsAffected); [eexists; split; [reflexivity|discriminate]|].
  cbn. eexists; split; [reflexivity|auto].
Qed.

Lemma ReleaseIP_unknown_id_witness :
  exists e, ReleaseIP reliable Scenario.db_one 7 = (Err e, Scenario.db_one)
            /\ (reliable StUpdateRelease = false -> reliable StRowsAffected = false ->
                e = IPNotFound).
Proof.
  apply (ReleaseIP_unknown_id reliable Scenario.db_one 7).
  intros r [<-|[]]. discriminate.
Defined.

(** X8. A successful [ReleaseIP] deletes nothing and moves nothing: the
    networks and the sequences are untouched, and row by row the table
    [ip_addresses] is the same except that every row with the id has
    its hostname set to NULL and its status to 'available'. Id, network
    and address of every row stay, so the address of the released record
    remains occupied in its network. *)
Theorem ReleaseIP_keeps_rows drv db id db' :
  ReleaseIP drv db id = (Ok tt, db') ->
  networks db' = networks db
  /\ networks_id_seq db' = networks_id_seq db
  /\ ip_addresses_id_seq db' = ip_addresses_id_seq db
  /\ (exists r, In r (ip_addresses db) /\ ir_id r = id)
  /\ Forall2 (fun r r' =>
                ir_id r' = ir_id r /\ ir_network_id r' = ir_network_id r
                /\ ir_address r' = ir_address r
                /\ (ir_id r = id ->
                    ir_hostname r' = None /\ ir_status r' = "available"%string)
                /\ (ir_id r <> id -> r' = r))
             (ip_addresses db) (ip_addresses db')
  /\ (forall networkID a, occupied db' networkID a = occupied db networkID a).
Proof.
  intros H. apply ReleaseIP_cases in H.
  destruct H as [[_ H]|[-> Hsel]]; [destruct H; reflexivity|]. specialize (Hsel eq_refl).
  destruct (update_ip_fields db id release_row) as (H1 & H2 & H3 & H4 & _).
  split; [exact H1|]. split; [exact H3|]. split; [exact H4|]. split; [|split].
  - destruct (select_ip db id) as [|r l] eqn:E; [destruct Hsel; reflexivity|].
    assert (Hin : In r (select_ip db id)) by (rewrite E; left; reflexivity).
    apply filter_In in Hin. exists r. rewrite <- Z.eqb_eq. exact Hin.
  - rewrite H2. clear. induction (ip_addresses db) as [|r rows IH]; cbn [map]; constructor.
    + destruct (Z.eqb_spec (ir_id r) id) as [E|E]; cbn; repeat split; auto; congruence.
    + exact IH.
  - intros networkID a. apply occupied_update_ip. auto.
Qed.

Lemma ReleaseIP_keeps_rows_witness :
  occupied Scenario.db_released 1 [10; 0; 0; 2] = occupied Scenario.db_one 1 [10; 0; 0; 2].
Proof.
  apply (ReleaseIP_keeps_rows reliable Scenario.db_one 1 Scenario.db_released eq_refl).
Defined.

(** X9. [ReleaseIP] is idempotent: releasing a record that was released
    succeeds again (the UPDATE still matches the row) and leaves the
    store as the first release left it. *)
Theorem ReleaseIP_idempotent drv db id db' :
  ReleaseIP drv db id = (Ok tt, db') ->
  ReleaseIP reliable db' id = (Ok tt, db').
Proof.
  intros H. apply ReleaseIP_cases in H.
  destruct H as [[_ H]|[-> Hsel]]; [destruct H; reflexivity|]. specialize (Hsel eq_refl).
  unfold ReleaseIP. cbn [reliable].
  pose proof (update_ip_select db id release_row (fun _ => eq_refl)) as Hs.
  assert (Hfix : fst (update_ip (fst (update_ip db id release_row)) id release_row)
                 = fst (update_ip db id release_row)).
  { unfold update_ip. cbn [fst networks ip_addresses networks_id_seq ip_addresses_id_seq].
    f_equal. rewrite map_map. apply map_ext. intros r.
    destruct (ir_id r =? id) eqn:E; [|rewrite E; reflexivity].
    cbn [release_row ir_id]. rewrite E. reflexivity. }
  destruct (update_ip (fst (update_ip db id release_row)) id release_row) as [db2 k] eqn:E2.
  cbn [fst] in Hfix. subst db2.
  assert (Hk : k = Z.of_nat (length (select_ip (fst (update_ip db id release_row)) id))).
  { unfold update_ip in E2 at 1. injection E2 as _ <-. reflexivity. }
  rewrite Hs, length_map in Hk.
  destruct (select_ip db id) as [|r l]; [destruct Hsel; reflexivity|].
  destruct (Z.eqb_spec k 0) as [E0|_]; [cbn in Hk; lia | reflexivity].
Qed.

Lemma ReleaseIP_idempotent_witness :
  ReleaseIP reliable Scenario.db_released 1 = (Ok tt, Scenario.db_released).
Proof.
  apply (ReleaseIP_idempotent reliable Scenario.db_one 1 Scenario.db_released eq_refl).
Defined.

(** X10. [UpdateIPHostname] is all or nothing: when it returns an error,
    also one of the driver at the update or at the commit, the store is
    exactly as it was before the call. *)
Theorem UpdateIPHostname_error_no_write drv db id h e db' :
  UpdateIPHostname drv db id h = (Err e, db') -> db' = db.
Proof.
  intros H. apply UpdateIPHostname_cases in H.
  destruct H as [(e' & _ & ->)|(H & _)]; [reflexivity | discriminate].
Qed.

Lemma UpdateIPHostname_error_no_write_witness :
  snd (UpdateIPHostname Scenario.commit_fails Scenario.db_one 1 "h5") = Scenario.db_one.
Proof.
  apply (UpdateIPHostname_error_no_write
           Scenario.commit_fails Scenario.db_one 1 "h5" FailedCommit).
  reflexivity.
Defined.

(** X11. [UpdateIPHostname] on a driver that does not fail succeeds if
    and only if a record has the id and no record with another id in its
    network holds the new hostname; in particular a record can be
    renamed to the hostname it already has, and a released record can
    be given a hostname. A successful call changes the hostname of the
    rows with that id and nothing else: the status stays what it was, so
    renaming a released record leaves it 'available'. *)
Theorem UpdateIPHostname_renames_only db id h :
  (forall db', UpdateIPHostname reliable db id h = (Ok tt, db') <->
      db' = fst (update_ip db id (rename_row h))
      /\ exists r0, QueryRow (select_ip db id) = Some r0
                    /\ hostname_used_by_other db (ir_network_id r0) h id = false)
  /\ networks (fst (update_ip db id (rename_row h))) = networks db
  /\ Forall2 (fun r r' =>
                ir_id r' = ir_id r /\ ir_network_id r' = ir_network_id r
                /\ ir_address r' = ir_address r /\ ir_status r' = ir_status r
                /\ (ir_id r = id -> ir_hostname r' = Some h)
                /\ (ir_id r <> id -> r' = r))
             (ip_addresses db) (ip_addresses (fst (update_ip db id (rename_row h)))).
Proof.
  split; [|split].
  - intros db'. split.
    + intros H. apply UpdateIPHostname_cases in H.
      destruct H as [(e & H & _)|(_ & H)]; [discriminate | exact H].
    + intros (-> & r0 & Hq & Hu). unfold UpdateIPHostname, Begin, Commit. cbn [reliable].
      rewrite !Scan_reliable, Hq, Scan_reliable.
      rewrite select_hostname_other_used in Hu.
      destruct (QueryRow (select_hostname_other _ _ _ _)); [discriminate|].
      pose proof (update_ip_fields db id (rename_row h)) as (_ & _ & _ & _ & Hk).
      destruct (update_ip db id (rename_row h)) as [db1 k]. cbn [fst snd] in *.
      unfold QueryRow in Hq. destruct (select_ip db id); [discriminate|].
      destruct (Z.eqb_spec k 0) as [E|_]; [cbn in Hk; lia | reflexivity].
  - reflexivity.
  - cbn [update_ip fst ip_addresses].
    induction (ip_addresses db) as [|r rows IH]; cbn [map]; constructor.
    + destruct (Z.eqb_spec (ir_id r) id) as [E|E]; cbn; repeat split; auto; congruence.
    + exact IH.
Qed.

Lemma UpdateIPHostname_renames_only_witness :
  UpdateIPHostname reliable Scenario.db_released 1 "h9" = (Ok tt, Scenario.db_renamed)
  /\ UpdateIPHostname reliable Scenario.db_renamed 1 "h9" = (Ok tt, Scenario.db_renamed).
Proof.
  split.
  - apply (proj1 (UpdateIPHostname_renames_only Scenario.db_released 1 "h9")).
    split; [reflexivity|]. eexists. split; reflexivity.
  - apply (proj1 (UpdateIPHostname_renames_only Scenario.db_renamed 1 "h9")).
    split; [reflexivity|]. eexists. split; reflexivity.
Defined.

(* ================================================================= *)
(** * What holds of every store the repository produces *)

(** The two stores a call of [AllocateIP] can leave behind on an error
    (the one it found, or that one with the sequence advanced by an
    insert that was rolled back), and the one it leaves on success. *)
Lemma AllocateIP_store_cases drv fuel db networkID requestedIP h res db' :
  AllocateIP drv fuel db networkID requestedIP h = Some (res, db') ->
  (exists e, res = Err e
             /\ (db' = db \/ exists a, db' = Rollback db (with_allocated db networkID a h)))
  \/ (exists n a,
        hostname_used db networkID h = false
        /\ QueryRow (select_network db networkID) = Some n
        /\ is_inet a = true
        /\ occupied db networkID a = false
        /\ res = Ok (allocated_record db networkID a h)
        /\ db' = with_allocated db networkID a h).
Proof.
  unfold AllocateIP, Begin.
  assert (Hfail : forall e, exists e0, Err e = @Err IPAddress e0
             /\ (db = db \/ exists a, db = Rollback db (with_allocated db networkID a h)))
    by (intros e; exists e; auto).
  destruct (drv StBegin); [intros [= <- <-]; left; apply Hfail|].
  rewrite Rollback_same.
  destruct (Scan_cases drv StSelectHostname (select_hostname db networkID h))
    as [[-> _]|[_ ->]]; [intros [= <- <-]; left; apply Hfail|].
  pose proof (select_hostname_used db networkID h) as Hh.
  destruct (QueryRow (select_hostname db networkID h)); [intros [= <- <-]; left; apply Hfail|].
  destruct (Scan_cases drv StSelectNetwork (select_network db networkID))
    as [[-> _]|[_ ->]]; [intros [= <- <-]; left; apply Hfail|].
  destruct (QueryRow (select_network db networkID)) as [n|] eqn:En;
    [|intros [= <- <-]; left; apply Hfail].
  destruct (ParseIP_of_text (nr_gateway n)) as [gatewayIP|] eqn:Eg;
    [|intros [= <- <-]; left; apply Hfail].
  destruct requestedIP as [requestedIP|].
  - destruct (Equal requestedIP gatewayIP) eqn:HE; [intros [= <- <-]; left; apply Hfail|].
    unfold lookup_address, insert_requested.
    destruct (inet_of_String requestedIP) as [a|] eqn:Ea;
      [|intros [= <- <-]; left; apply Hfail].
    destruct (Scan_cases drv StSelectAddress (select_address db networkID a))
      as [[-> _]|[_ ->]]; [intros [= <- <-]; left; apply Hfail|].
    pose proof (select_address_occupied db networkID a) as Ho.
    destruct (QueryRow (select_address db networkID a)); [intros [= <- <-]; left; apply Hfail|].
    destruct (drv StInsertIP); [rewrite Rollback_same; intros [= <- <-]; left; apply Hfail|].
    rewrite insert_ip_ok by (eapply select_network_exists; eauto).
    pose proof Ea as Ea'. apply inet_of_String_Some in Ea'. destruct Ea' as [Hi ->].
    rewrite AllocateIP_commit_is_inet by (apply to_inet_is_inet, Hi).
    destruct (drv StCommit).
    + intros [= <- <-]. left. exists FailedCommit. split; [reflexivity|]. right. eauto.
    + intros [= <- <-]. right. exists n, (to_inet requestedIP).
      repeat split; auto using to_inet_is_inet.
  - destruct (ParseCIDR_of_text (nr_cidr n)) as [ipNet|] eqn:Ec;
      [|intros [= <- <-]; left; apply Hfail].
    destruct (AllocateIP_loop _ _ _ _ _ _ _ _) as [r|] eqn:El; [|discriminate].
    apply AllocateIP_loop_cases in El; [|eapply select_network_exists; eauto].
    cbn [v_tx v_err] in El.
    destruct El as [(c & HC & HE & HO & ->)|[(e & He & ->)| ->]].
    + cbn [v_err v_tx v_id v_addressStr vars_inserted].
      assert (Hi : is_inet (to_inet c) = true)
        by (apply to_inet_is_inet; eapply Contains_is_inet; eauto).
      rewrite AllocateIP_commit_is_inet by exact Hi.
      destruct (drv StCommit).
      * intros [= <- <-]. left. exists FailedCommit. split; [reflexivity|]. right. eauto.
      * intros [= <- <-]. right. exists n, (to_inet c). repeat split; auto.
    + cbn [v_err v_tx v_id v_addressStr vars_refused].
      destruct He as [->| ->].
      * unfold AllocateIP_commit, Commit. cbn. rewrite Rollback_same.
        destruct (drv StCommit); intros [= <- <-]; left; apply Hfail.
      * rewrite Rollback_same. intros [= <- <-]. left. apply Hfail.
    + rewrite Rollback_same. intros [= <- <-]. left. apply Hfail.
Qed.

Lemma CreateNetwork_store_cases drv db network res db' :
  CreateNetwork drv db network = (res, db') ->
  (res = Err FailedCreateNetwork /\ db' = db)
  \/ (exists g, inet_of_String (Network_Gateway network) = Some g
                /\ cidr_in (Network_CIDR network) = Some (Network_CIDR network)
                /\ res = Ok {| Network_ID := networks_id_seq db + 1;
                               Network_CIDR := Network_CIDR network;
                               Network_Gateway := Network_Gateway network |}
                /\ db' = fst (insert_network db (Network_CIDR network) g)).
Proof.
  unfold CreateNetwork. destruct (drv _); [intros [= <- <-]; auto|].
  destruct (cidr_in (Network_CIDR network)) as [c|] eqn:Ec; [|intros [= <- <-]; auto].
  apply cidr_in_Some in Ec. subst c.
  destruct (inet_of_String (Network_Gateway network)) as [g|] eqn:Eg; [|intros [= <- <-]; auto].
  cbn. intros [= <- <-]. right. exists g. auto.
Qed.

Lemma NoDup_snoc {A} (l : list A) x : List.NoDup l -> ~ In x l -> List.NoDup (l ++ [x]).
Proof.
  induction 1 as [|y l Hy Hl IH]; cbn; intros Hx.
  - constructor; [intros []|constructor].
  - constructor.
    + rewrite in_app_iff. cbn. intros [H|[H|[]]]; [auto|]. apply Hx. auto.
    + apply IH. intros H. apply Hx. auto.
Qed.

Lemma NoDup_map_eq {A B} (f : A -> B) (l : list A) a b :
  List.NoDup (map f l) -> In a l -> In b l -> f a = f b -> a = b.
Proof.
  induction l as [|x l IH]; cbn; [intros _ []|].
  intros Hnd Ha Hb E. apply List.NoDup_cons_iff in Hnd. destruct Hnd as [Hx Hnd].
  destruct Ha as [->|Ha], Hb as [->|Hb]; auto.
  - exfalso. apply Hx. rewrite E. apply in_map, Hb.
  - exfalso. apply Hx. rewrite <- E. apply in_map, Ha.
Qed.

(** With ids that are unique, the SELECT by id yields the row. *)
Lemma select_ip_unique db r :
  List.NoDup (map ir_id (ip_addresses db)) -> In r (ip_addresses db) ->
  select_ip db (ir_id r) = [r].
Proof.
  unfold select_ip. induction (ip_addresses db) as [|x l IH]; cbn [map List.filter];
    [intros _ []|].
  intros Hnd Hin. apply List.NoDup_cons_iff in Hnd. destruct Hnd as [Hx Hnd].
  assert (Hnone : forall l', ~ In (ir_id r) (map ir_id l') ->
                             List.filter (fun r0 => ir_id r0 =? ir_id r) l' = []).
  { induction l' as [|y l' IHl']; cbn; [reflexivity|]. intros Hn.
    destruct (Z.eqb_spec (ir_id y) (ir_id r)) as [E|E]; [exfalso; auto|].
    apply IHl'. auto. }
  destruct Hin as [->|Hin].
  - rewrite Z.eqb_refl, Hnone by exact Hx. reflexivity.
  - destruct (Z.eqb_spec (ir_id x) (ir_id r)) as [E|E].
    + exfalso. apply Hx. rewrite E. apply in_map, Hin.
    + apply IH; assumption.
Qed.

Lemma store_inv_empty : store_inv empty_db.
Proof.
  unfold store_inv, ids_ok, fk_ok, address_unique, hostname_unique, status_ok. cbn.
  split; [reflexivity|]. split; [|repeat split; intros; contradiction].
  split; [lia|]. split; [lia|]. split; [apply List.NoDup_nil|].
  split; [intros n []|]. split; [apply List.NoDup_nil | intros r []].
Qed.

Lemma store_inv_seq db db' :
  same_rows db db' ->
  networks_id_seq db <= networks_id_seq db' ->
  ip_addresses_id_seq db <= ip_addresses_id_seq db' ->
  store_inv db -> store_inv db'.
Proof.
  intros [Hn Hr] H1 H2 (Hwf & (S1 & S2 & I1 & I2 & I3 & I4) & Hfk & Ha & Hh & Hs).
  unfold store_inv, ids_ok, fk_ok, address_unique, hostname_unique, status_ok, wf_db in *.
  rewrite Hn, Hr.
  split; [exact Hwf|]. split; [|auto].
  split; [lia|]. split; [lia|]. split; [exact I1|]. split; [|split; [exact I3|]].
  - intros n H. specialize (I2 n H). lia.
  - intros r H. specialize (I4 r H). lia.
Qed.

Lemma store_inv_insert_network db c g :
  cidr_in c = Some c -> is_inet g = true ->
  store_inv db -> store_inv (fst (insert_network db c g)).
Proof.
  intros Hc Hg (Hwf & (S1 & S2 & I1 & I2 & I3 & I4) & Hfk & Ha & Hh & Hs).
  unfold store_inv, ids_ok, fk_ok, address_unique, hostname_unique, status_ok.
  cbn [insert_network fst networks ip_addresses networks_id_seq ip_addresses_id_seq].
  split; [|split; [split; [|split; [|split; [|split; [|split]]]]|split]]; auto.
  - unfold wf_db in *. cbn [networks ip_addresses].
    rewrite andb_true_iff in *. destruct Hwf as [Hn Hr]. split; [|exact Hr].
    rewrite forallb_app, Hn. cbn. unfold wf_network. cbn. rewrite Hc, Hg. reflexivity.
  - lia.
  - rewrite map_app. cbn [map]. apply NoDup_snoc; [exact I1|].
    intros Hin. apply in_map_iff in Hin. destruct Hin as (n & E & Hin).
    specialize (I2 n Hin). cbn in E. lia.
  - intros n Hin. apply in_app_iff in Hin. destruct Hin as [Hin|[<-|[]]].
    + specialize (I2 n Hin). lia.
    + cbn. lia.
  - intros r Hin. destruct (Hfk r Hin) as (n & Hn & E). exists n.
    rewrite in_app_iff. auto.
Qed.

Lemma store_inv_with_allocated db networkID a h n :
  is_inet a = true ->
  occupied db networkID a = false ->
  hostname_used db networkID h = false ->
  QueryRow (select_network db networkID) = Some n ->
  store_inv db -> store_inv (with_allocated db networkID a h).
Proof.
  intros Hi Ho Hu En (Hwf & (S1 & S2 & I1 & I2 & I3 & I4) & Hfk & Ha & Hh & Hs).
  assert (Hocc : forall r, In r (ip_addresses db) -> ir_network_id r = networkID ->
                           ir_address r <> a).
  { intros r Hin E1 E2.
    assert (occupied db networkID a = true) by (apply occupied_spec; eauto). congruence. }
  assert (Hhost : forall r, In r (ip_addresses db) -> ir_network_id r = networkID ->
                            ir_hostname r <> Some h).
  { intros r Hin E1 E2.
    assert (hostname_used db networkID h = true) by (apply hostname_used_spec; eauto).
    congruence. }
  unfold store_inv, ids_ok, fk_ok, address_unique, hostname_unique, status_ok.
  cbn [with_allocated networks ip_addresses networks_id_seq ip_addresses_id_seq].
  split; [|split; [split; [|split; [|split; [|split; [|split]]]]|split; [|split; [|split]]]];
    auto.
  - apply wf_db_with_allocated; assumption.
  - lia.
  - rewrite map_app. cbn [map]. apply NoDup_snoc; [exact I3|].
    intros Hin. apply in_map_iff in Hin. destruct Hin as (r & E & Hin).
    specialize (I4 r Hin). cbn in E. lia.
  - intros r Hin. apply in_app_iff in Hin. destruct Hin as [Hin|[<-|[]]].
    + specialize (I4 r Hin). lia.
    + cbn. lia.
  - intros r Hin. apply in_app_iff in Hin. destruct Hin as [Hin|[<-|[]]]; [auto|].
    apply QueryRow_filter_Some in En. destruct En as [Hn En]. apply Z.eqb_eq in En.
    exists n. auto.
  - intros r1 r2 H1 H2 E1 E2. apply in_app_iff in H1, H2.
    destruct H1 as [H1|[<-|[]]], H2 as [H2|[<-|[]]]; auto; cbn in E1, E2; exfalso.
    + apply (Hocc r1 H1); congruence.
    + apply (Hocc r2 H2); congruence.
  - intros r1 r2 h' H1 H2 E1 E2 E3. apply in_app_iff in H1, H2.
    destruct H1 as [H1|[<-|[]]], H2 as [H2|[<-|[]]]; eauto; cbn in E1, E2, E3; exfalso.
    + apply (Hhost r1 H1); congruence.
    + apply (Hhost r2 H2); congruence.
  - intros r Hin. apply in_app_iff in Hin. destruct Hin as [Hin|[<-|[]]]; [auto|].
    left. cbn. split; [reflexivity|discriminate].
Qed.

(** An UPDATE by id that keeps id, network and address of the row. *)
Lemma store_inv_update_ip db id f :
  (forall r, ir_id (f r) = ir_id r /\ ir_network_id (f r) = ir_network_id r
             /\ ir_address (f r) = ir_address r) ->
  (forall r, (ir_status (f r) = "allocated"%string /\ ir_hostname (f r) <> None)
             \/ ir_status (f r) = "available"%string
             \/ (ir_status (f r) = ir_status r /\ ir_hostname (f r) <> None)) ->
  (forall r1 r2 h, In r1 (ip_addresses db) -> In r2 (ip_addresses db) ->
                   ir_id r1 = id -> ir_id r2 <> id ->
                   ir_network_id r1 = ir_network_id r2 ->
                   ir_hostname (f r1) = Some h -> ir_hostname r2 = Some h -> False) ->
  store_inv db -> store_inv (fst (update_ip db id f)).
Proof.
  intros Hf Hst Hother (Hwf & (S1 & S2 & I1 & I2 & I3 & I4) & Hfk & Ha & Hh & Hs).
  set (g := fun r => if ir_id r =? id then f r else r).
  assert (Hg : forall r, ir_id (g r) = ir_id r /\ ir_network_id (g r) = ir_network_id r
                         /\ ir_address (g r) = ir_address r).
  { intros r. unfold g. destruct (ir_id r =? id); [apply Hf | auto]. }
  assert (Hrows : ip_addresses (fst (update_ip db id f)) = map g (ip_addresses db))
    by reflexivity.
  assert (Hids : map ir_id (map g (ip_addresses db)) = map ir_id (ip_addresses db)).
  { rewrite map_map. apply map_ext. intros r. apply Hg. }
  unfold store_inv, ids_ok, fk_ok, address_unique, hostname_unique, status_ok.
  rewrite Hrows.
  cbn [update_ip fst networks networks_id_seq ip_addresses_id_seq].
  split; [|split; [split; [|split; [|split; [|split; [|split]]]]|split; [|split; [|split]]]];
    auto.
  - apply wf_db_update_ip; [intros r; apply Hf | exact Hwf].
  - rewrite Hids. exact I3.
  - intros r' Hin. apply in_map_iff in Hin. destruct Hin as (r & <- & Hin).
    destruct (Hg r) as (-> & _). auto.
  - intros r' Hin. apply in_map_iff in Hin. destruct Hin as (r & <- & Hin).
    destruct (Hg r) as (_ & -> & _). auto.
  - intros r1' r2' H1 H2 E1 E2. apply in_map_iff in H1, H2.
    destruct H1 as (r1 & <- & H1), H2 as (r2 & <- & H2).
    destruct (Hg r1) as (_ & G1 & G1'), (Hg r2) as (_ & G2 & G2').
    rewrite (Ha r1 r2); auto; congruence.
  - intros r1' r2' h H1 H2 E1 E2 E3. apply in_map_iff in H1, H2.
    destruct H1 as (r1 & <- & H1), H2 as (r2 & <- & H2).
    destruct (Hg r1) as (_ & G1 & _), (Hg r2) as (_ & G2 & _).
    rewrite G1, G2 in E1. unfold g in E2, E3 |- *.
    destruct (Z.eqb_spec (ir_id r1) id) as [J1|J1], (Z.eqb_spec (ir_id r2) id) as [J2|J2].
    + rewrite (NoDup_map_eq ir_id _ r1 r2 I3); auto; congruence.
    + exfalso. eapply (Hother r1 r2); eauto.
    + exfalso. eapply (Hother r2 r1); eauto.
    + eapply Hh; eauto.
  - intros r' Hin. apply in_map_iff in Hin. destruct Hin as (r & <- & Hin).
    unfold g. destruct (ir_id r =? id); [|auto].
    destruct (Hst r) as [H|[H|[H1 H2]]]; auto.
    rewrite H1. destruct (Hs r Hin) as [[H _]|H]; auto.
Qed.

Lemma store_inv_step db db' : store_inv db -> step db db' -> store_inv db'.
Proof.
  intros Hinv [drv network res H|drv fuel networkID rip h res H|drv id res H|drv id h res H].
  - apply CreateNetwork_store_cases in H. destruct H as [[_ ->]|(g & Eg & Ec & _ & ->)];
      [exact Hinv|].
    apply inet_of_String_Some in Eg. destruct Eg as [Hi ->].
    apply store_inv_insert_network; auto using to_inet_is_inet.
  - apply AllocateIP_store_cases in H.
    destruct H as [(e & _ & [->|(a & ->)])|(n & a & Hu & En & Hi & Ho & _ & ->)].
    + exact Hinv.
    + revert Hinv. apply store_inv_seq; [apply Rollback_same_rows | cbn; lia | cbn; lia].
    + eapply store_inv_with_allocated; eauto.
  - apply ReleaseIP_cases in H. destruct H as [[-> _]|[-> _]]; [exact Hinv|].
    apply store_inv_update_ip;
      [intros r; repeat split | intros r; right; left; reflexivity | | exact Hinv].
    intros r1 r2 h _ _ _ _ _ E. discriminate.
  - apply UpdateIPHostname_cases in H.
    destruct H as [(e & _ & ->)|(_ & -> & r0 & Hq & Hu)]; [exact Hinv|].
    apply store_inv_update_ip; [intros r; repeat split | | | exact Hinv].
    + intros r. right. right. split; [reflexivity|discriminate].
    + intros r1 r2 h' H1 H2 J1 J2 E E1 E2. cbn in E1. injection E1 as <-.
      apply QueryRow_filter_Some in Hq. destruct Hq as [H0 J0]. apply Z.eqb_eq in J0.
      destruct Hinv as (_ & (_ & _ & _ & _ & I3 & _) & _).
      assert (r1 = r0) by (apply (NoDup_map_eq ir_id _ r1 r0 I3); auto; congruence).
      subst r1.
      assert (hostname_used_by_other db (ir_network_id r0) h id = true); [|congruence].
      apply hostname_used_by_other_spec. exists r2. auto.
Qed.

Lemma reachable_store_inv db : reachable db -> store_inv db.
Proof.
  induction 1 as [|db db' _ IH Hs]; [apply store_inv_empty | eapply store_inv_step; eauto].
Qed.

(** The stores of the scenarios are reachable. *)
Lemma reachable_db_net30 : reachable Scenario.db_net30.
Proof.
  apply (reachable_step empty_db); [constructor|].
  eapply (step_CreateNetwork _ _ reliable Scenario.net30). reflexivity.
Qed.

Lemma reachable_db_one : reachable Scenario.db_one.
Proof.
  apply (reachable_step _ _ reachable_db_net30).
  eapply (step_AllocateIP _ _ reliable 0%nat 1 (Some (IPv4 10 0 0 2)) "h1"). reflexivity.
Qed.

Lemma reachable_db_released : reachable Scenario.db_released.
Proof.
  apply (reachable_step _ _ reachable_db_one).
  eapply (step_ReleaseIP _ _ reliable 1). reflexivity.
Qed.

Lemma reachable_db_renamed : reachable Scenario.db_renamed.
Proof.
  apply (reachable_step _ _ reachable_db_released).
  eapply (step_UpdateIPHostname _ _ reliable 1 "h9"). reflexivity.
Qed.

Lemma reachable_db_two : reachable Scenario.db_two.
Proof.
  apply (reachable_step _ _ reachable_db_renamed).
  eapply (step_AllocateIP _ _ reliable 0%nat 1 (Some (IPv4 10 0 0 3)) "h2"). reflexivity.
Qed.

(** X12. In every store the repository produces, the ids of a table are
    positive, at most the value of its sequence, and no two rows share
    one. A commit that fails keeps the advance of the sequence, so ids
    can have gaps. *)
Theorem reachable_ids_ok db : reachable db -> ids_ok db.
Proof. intros H. apply reachable_store_inv in H. apply H. Qed.

Lemma reachable_ids_ok_witness : ids_ok Scenario.db_two.
Proof. apply (reachable_ids_ok Scenario.db_two). exact reachable_db_two. Defined.

(** X13. In every store the repository produces, every address record
    belongs to a network of the store. *)
Theorem reachable_fk_ok db : reachable db -> fk_ok db.
Proof. intros H. apply reachable_store_inv in H. apply H. Qed.

Lemma reachable_fk_ok_witness : fk_ok Scenario.db_two.
Proof. apply (reachable_fk_ok Scenario.db_two). exact reachable_db_two. Defined.

(** X14. In every store the repository produces, a network has at most
    one record per address, counting the records of every status: the
    schema declares no UNIQUE constraint, the two branches of
    [AllocateIP] check for an existing row before they insert. *)
Theorem reachable_address_unique db : reachable db -> address_unique db.
Proof. intros H. apply reachable_store_inv in H. apply H. Qed.

Lemma reachable_address_unique_witness : address_unique Scenario.db_two.
Proof. apply (reachable_address_unique Scenario.db_two). exact reachable_db_two. Defined.

(** X15. In every store the repository produces, a network has at most
    one record per hostname, counting the records of every status (a
    released record that was renamed holds its hostname). *)
Theorem reachable_hostname_unique db : reachable db -> hostname_unique db.
Proof. intros H. apply reachable_store_inv in H. apply H. Qed.

Lemma reachable_hostname_unique_witness : hostname_unique Scenario.db_two.
Proof. apply (reachable_hostname_unique Scenario.db_two). exact reachable_db_two. Defined.

(** X16. In every store the repository produces, a record has status
    'allocated' or 'available', and an 'allocated' record has a
    hostname: only [ReleaseIP] writes NULL, together with
    'available'. *)
Theorem reachable_status_ok db : reachable db -> status_ok db.
Proof. intros H. apply reachable_store_inv in H. apply H. Qed.

Lemma reachable_status_ok_witness : status_ok Scenario.db_two.
Proof. apply (reachable_status_ok Scenario.db_two). exact reachable_db_two. Defined.

(** X17. No operation deletes anything: after any call of a writing
    operation, whatever its result, every network row is still there,
    the table [ip_addresses] has at least as many rows, and an address
    that was occupied in a network still is. In particular the address
    of a released record is never free again. *)
Theorem step_keeps_occupied db db' :
  step db db' ->
  (forall n, In n (networks db) -> In n (networks db'))
  /\ (length (ip_addresses db) <= length (ip_addresses db'))%nat
  /\ (forall networkID a, occupied db networkID a = true ->
                          occupied db' networkID a = true).
Proof.
  intros [drv network res H|drv fuel networkID rip h res H|drv id res H|drv id h res H].
  - apply CreateNetwork_store_cases in H. destruct H as [[_ ->]|(g & _ & _ & _ & ->)]; [auto|].
    cbn. split; [|auto]. intros n Hin. apply in_app_iff. auto.
  - apply AllocateIP_store_cases in H.
    destruct H as [(e & _ & [->|(a & ->)])|(n & a & _ & _ & _ & _ & _ & ->)]; [auto|auto|].
    split; [auto|]. split.
    + cbn. rewrite length_app. lia.
    + intros nid a' Ho. rewrite occupied_with_allocated, Ho. reflexivity.
  - apply ReleaseIP_cases in H. destruct H as [[-> _]|[-> _]]; [auto|].
    split; [auto|]. split.
    + cbn. rewrite length_map. lia.
    + intros nid a' Ho. rewrite occupied_update_ip; auto.
  - apply UpdateIPHostname_cases in H. destruct H as [(e & _ & ->)|(_ & -> & _)]; [auto|].
    split; [auto|]. split.
    + cbn. rewrite length_map. lia.
    + intros nid a' Ho. rewrite occupied_update_ip; auto.
Qed.

Lemma step_keeps_occupied_witness :
  occupied Scenario.db_released 1 [10; 0; 0; 2] = true.
Proof.
  apply (step_keeps_occupied Scenario.db_one Scenario.db_released).
  - apply (step_ReleaseIP _ _ reliable 1 (Ok tt)). reflexivity.
  - reflexivity.
Defined.

(** X18. [ReleaseIP] frees the hostname, not the address: in a store the
    repository produced, after the successful release of a record that
    held hostname [h], no record of its network holds [h], so [h] can
    be given to another record. *)
Theorem ReleaseIP_frees_hostname drv db r h db' :
  reachable db -> In r (ip_addresses db) -> ir_hostname r = Some h ->
  ReleaseIP drv db (ir_id r) = (Ok tt, db') ->
  hostname_used db' (ir_network_id r) h = false
  /\ occupied db' (ir_network_id r) (ir_address r) = true.
Proof.
  intros Hr Hin Eh H. apply reachable_store_inv in Hr.
  destruct Hr as (_ & _ & _ & _ & Hh & _).
  apply ReleaseIP_cases in H. destruct H as [[_ H]|[-> _]]; [destruct H; reflexivity|]. split.
  - destruct (hostname_used _ _ _) eqn:E; [|reflexivity]. exfalso.
    apply hostname_used_spec in E. destruct E as (r' & Hin' & En & Eh').
    cbn [update_ip fst ip_addresses] in Hin'. apply in_map_iff in Hin'.
    destruct Hin' as (r2 & <- & Hin2).
    destruct (Z.eqb_spec (ir_id r2) (ir_id r)) as [J|J]; [discriminate|].
    apply J. f_equal. apply (Hh r2 r h); auto.
  - rewrite occupied_update_ip by auto. apply occupied_spec. eauto.
Qed.

Lemma ReleaseIP_frees_hostname_witness :
  hostname_used Scenario.db_released 1 "h1" = false
  /\ occupied Scenario.db_released 1 [10; 0; 0; 2] = true.
Proof.
  apply (ReleaseIP_frees_hostname reliable Scenario.db_one
           {| ir_id := 1; ir_network_id := 1; ir_address := [10; 0; 0; 2];
              ir_hostname := Some "h1"%string; ir_status := "allocated" |}
           "h1" Scenario.db_released reachable_db_one).
  - left. reflexivity.
  - reflexivity.
  - reflexivity.
Defined.

(** X19. [AllocateIP] for a network id that no network of the store has:
    it never succeeds, and in a store the repository produced, on a
    driver that does not fail, it returns the error of the network
    lookup for every hostname and every request, without entering the
    loop and without writing. *)
Theorem AllocateIP_unknown_network fuel db networkID requestedIP h :
  reachable db ->
  (forall n, In n (networks db) -> nr_id n <> networkID) ->
  (forall drv rec db',
      AllocateIP drv fuel db networkID requestedIP h <> Some (Ok rec, db'))
  /\ AllocateIP reliable fuel db networkID requestedIP h
     = Some (Err FailedGetNetworkDetails, db).
Proof.
  intros Hr Hno. apply reachable_store_inv in Hr. destruct Hr as (_ & _ & Hfk & _).
  assert (En : QueryRow (select_network db networkID) = None).
  { destruct (QueryRow (select_network db networkID)) as [n|] eqn:E; [|reflexivity].
    apply QueryRow_filter_Some in E. destruct E as [Hin E]. apply Z.eqb_eq in E.
    destruct (Hno n Hin E). }
  split.
  - intros drv rec db' H. apply AllocateIP_store_cases in H.
    destruct H as [(e & H & _)|(n & a & _ & En' & _)]; congruence.
  - assert (Hu : hostname_used db networkID h = false).
    { destruct (hostname_used db networkID h) eqn:E; [|reflexivity]. exfalso.
      apply hostname_used_spec in E. destruct E as (r & Hin & E & _).
      destruct (Hfk r Hin) as (n & Hn & E'). apply (Hno n Hn). congruence. }
    unfold AllocateIP, Begin. cbn [reliable]. rewrite !Scan_reliable.
    rewrite select_hostname_used in Hu.
    destruct (QueryRow (select_hostname db networkID h)); [discriminate|].
    rewrite En, Rollback_same. reflexivity.
Qed.

Lemma AllocateIP_unknown_network_witness :
  AllocateIP reliable 0 Scenario.db_two 2 None "h1"
  = Some (Err FailedGetNetworkDetails, Scenario.db_two).
Proof.
  apply (AllocateIP_unknown_network 0 Scenario.db_two 2 None "h1" reachable_db_two).
  intros n [<-|[]]. discriminate.
Defined.

(** X20. Round trip of [AllocateIP] and [GetIP]: in a store the
    repository produced, the record a successful [AllocateIP] returns
    is the one [GetIP] returns for its id afterwards. *)
Theorem GetIP_after_AllocateIP drv fuel db networkID requestedIP h rec db' :
  reachable db ->
  AllocateIP drv fuel db networkID requestedIP h = Some (Ok rec, db') ->
  GetIP reliable db' (ID rec) = Ok (Some rec).
Proof.
  intros Hr H. apply reachable_store_inv in Hr.
  destruct Hr as (_ & (_ & _ & _ & _ & _ & I4) & _).
  apply AllocateIP_store_cases in H.
  destruct H as [(e & H & _)|(n & a & _ & _ & Hi & _ & H & ->)]; [discriminate|].
  injection H as ->. unfold GetIP. rewrite Scan_reliable.
  cbn [allocated_record ID]. unfold select_ip, with_allocated. cbn [ip_addresses].
  rewrite List.filter_app.
  assert (Hnone : List.filter (fun r => ir_id r =? ip_addresses_id_seq db + 1)
                              (ip_addresses db) = []).
  { revert I4. induction (ip_addresses db) as [|r l IH]; cbn [List.filter]; intros I4;
      [reflexivity|].
    destruct (Z.eqb_spec (ir_id r) (ip_addresses_id_seq db + 1)) as [E|E].
    - specialize (I4 r (or_introl eq_refl)). lia.
    - apply IH. intros r' Hin. apply I4. right. exact Hin. }
  rewrite Hnone. cbn [List.filter ir_id app]. rewrite Z.eqb_refl.
  cbn [QueryRow head ir_hostname Scan_string ir_id ir_network_id ir_address ir_status].
  rewrite (ParseIP_of_text_is_inet _ Hi). reflexivity.
Qed.

Lemma GetIP_after_AllocateIP_witness :
  GetIP reliable Scenario.db_two 2
  = Ok (Some (allocated_record Scenario.db_renamed 1 [10; 0; 0; 3] "h2")).
Proof.
  apply (GetIP_after_AllocateIP reliable 0 Scenario.db_renamed 1
           (Some (IPv4 10 0 0 3)) "h2"
           (allocated_record Scenario.db_renamed 1 [10; 0; 0; 3] "h2")
           Scenario.db_two reachable_db_renamed).
  reflexivity.
Defined.

(** X21. In a store the repository produced, [GetIP] on a driver that
    does not fail returns every record with status 'allocated', with
    the fields of its row; the conversion of the hostname that fails on
    NULL cannot fail for such a record. *)
Theorem GetIP_allocated_record db r :
  reachable db -> In r (ip_addresses db) -> ir_status r = "allocated"%string ->
  exists hostname,
    ir_hostname r = Some hostname
    /\ GetIP reliable db (ir_id r)
       = Ok (Some {| ID := ir_id r; NetworkID := ir_network_id r;
                     Address := As16 (ir_address r);
                     Hostname := hostname; Status := "allocated" |}).
Proof.
  intros Hr Hin Est. apply reachable_store_inv in Hr.
  destruct Hr as (Hwf & (_ & _ & _ & _ & I3 & _) & _ & _ & _ & Hs).
  destruct (Hs r Hin) as [[_ Hh]|E]; [|rewrite Est in E; discriminate].
  destruct (ir_hostname r) as [hostname|] eqn:Eh; [|destruct Hh; reflexivity].
  exists hostname. split; [reflexivity|].
  unfold GetIP. rewrite Scan_reliable, (select_ip_unique db r I3 Hin).
  cbn [QueryRow head]. rewrite Eh. cbn [Scan_string].
  unfold wf_db in Hwf. rewrite andb_true_iff, !forallb_forall in Hwf.
  rewrite (ParseIP_of_text_is_inet _ (proj2 Hwf r Hin)), Est. reflexivity.
Qed.

Lemma GetIP_allocated_record_witness :
  exists hostname,
    Some "h2"%string = Some hostname
    /\ GetIP reliable Scenario.db_two 2
       = Ok (Some {| ID := 2; NetworkID := 1; Address := As16 [10; 0; 0; 3];
                     Hostname := hostname; Status := "allocated" |}).
Proof.
  apply (GetIP_allocated_record Scenario.db_two
           {| ir_id := 2; ir_network_id := 1; ir_address := [10; 0; 0; 3];
              ir_hostname := Some "h2"%string; ir_status := "allocated" |}
           reachable_db_two).
  - right. left. reflexivity.
  - reflexivity.
Defined.

(** X22. [UpdateIPHostname] never returns 'IP address not found': the
    row it updates was found by the SELECT of the same transaction, so
    the check of the affected rows cannot fail; an unknown id is
    reported by the error of that SELECT. *)
Theorem UpdateIPHostname_never_IPNotFound drv db id h :
  fst (UpdateIPHostname drv db id h) <> Err IPNotFound
  /\ ((forall r, In r (ip_addresses db) -> ir_id r <> id) ->
      UpdateIPHostname drv db id h = (Err FailedGetNetworkID, db)
      \/ UpdateIPHostname drv db id h = (Err FailedBeginTransaction, db)).
Proof.
  split.
  - unfold UpdateIPHostname, Begin, Commit.
    destruct (drv StBegin); [discriminate|].
    destruct (Scan_cases drv StSelectNetworkID (select_ip db id)) as [[-> _]|[_ ->]];
      [discriminate|].
    destruct (QueryRow (select_ip db id)) as [r0|] eqn:Eq; [|discriminate].
    destruct (Scan _ _ _) as [[]|]; try discriminate.
    destruct (drv StUpdateHostname); [discriminate|].
    pose proof (update_ip_fields db id (rename_row h)) as (_ & _ & _ & _ & Hk).
    destruct (update_ip db id (rename_row h)) as [db1 k]. cbn [fst snd] in *.
    destruct (drv StRowsAffected); [discriminate|].
    unfold QueryRow in Eq. destruct (select_ip db id); [discriminate|].
    destruct (Z.eqb_spec k 0) as [E|_]; [cbn in Hk; lia|].
    destruct (drv StCommit); discriminate.
  - intros Hno. unfold UpdateIPHostname, Begin. rewrite Rollback_same.
    destruct (drv StBegin); [auto|]. left.
    destruct (update_ip_unknown db id (rename_row h) Hno) as [_ Hk].
    destruct (update_ip_fields db id (rename_row h)) as (_ & _ & _ & _ & Hk').
    rewrite Hk' in Hk.
    destruct (select_ip db id) as [|r0 l] eqn:E; [|cbn in Hk; lia].
    unfold Scan. destruct (drv StSelectNetworkID); reflexivity.
Qed.

Lemma UpdateIPHostname_never_IPNotFound_witness :
  UpdateIPHostname reliable Scenario.db_one 7 "h5" = (Err FailedGetNetworkID, Scenario.db_one)
  \/ UpdateIPHostname reliable Scenario.db_one 7 "h5"
     = (Err FailedBeginTransaction, Scenario.db_one).
Proof.
  apply (UpdateIPHostname_never_IPNotFound reliable Scenario.db_one 7 "h5").
  intros r [<-|[]]. discriminate.
Defined.

Lemma ParseCIDR_of_text_wf c : cidr_in c = Some c -> ParseCIDR_of_text c <> None.
Proof.
  unfold cidr_in, ParseCIDR_of_text, CIDRMask. intros H.
  destruct (_ && _) eqn:E in H; [|discriminate]. clear H.
  rewrite !andb_true_iff in E. destruct E as ((((Hl & _) & H0) & H1) & _).
  apply Z.leb_le in H0, H1.
  apply orb_true_iff in Hl. destruct Hl as [Hl|Hl]; apply Nat.eqb_eq in Hl;
    rewrite Hl in *; unfold IPv4len, IPv6len in *;
    (destruct (Z.ltb_spec (cidr_bits c) 0); [lia|]).
  - change (8 * Z.of_nat 4) with 32 in *. change (8 * Z.of_nat 16) with 128.
    destruct (Z.ltb_spec 32 (cidr_bits c)); [lia|]. cbn. discriminate.
  - change (8 * Z.of_nat 4) with 32. change (8 * Z.of_nat 16) with 128 in *.
    destruct (Z.ltb_spec 128 (cidr_bits c)); [lia|]. cbn. discriminate.
Qed.

(** X23. In a store the repository produced, [AllocateIP] never returns
    'invalid gateway IP' and never 'failed to parse CIDR', whatever the
    driver does: the gateway and the cidr it reads were accepted by the
    store when the network was created. *)
Theorem AllocateIP_parse_errors_dead drv fuel db networkID requestedIP h e db' :
  reachable db ->
  AllocateIP drv fuel db networkID requestedIP h = Some (Err e, db') ->
  e <> InvalidGatewayIP /\ e <> FailedParseCIDR.
Proof.
  intros Hr. apply reachable_store_inv in Hr. destruct Hr as (Hwf & _).
  unfold AllocateIP, Begin.
  destruct (drv StBegin); [intros [= <- _]; split; discriminate|].
  destruct (Scan_cases drv StSelectHostname (select_hostname db networkID h))
    as [[-> _]|[_ ->]]; [intros [= <- _]; split; discriminate|].
  destruct (QueryRow (select_hostname db networkID h));
    [intros [= <- _]; split; discriminate|].
  destruct (Scan_cases drv StSelectNetwork (select_network db networkID))
    as [[-> _]|[_ ->]]; [intros [= <- _]; split; discriminate|].
  destruct (QueryRow (select_network db networkID)) as [n|] eqn:En;
    [|intros [= <- _]; split; discriminate].
  destruct (wf_db_network _ _ _ Hwf En) as [Hc Hg].
  rewrite (ParseIP_of_text_is_inet _ Hg).
  destruct requestedIP as [requestedIP|].
  - destruct (Equal requestedIP _); [intros [= <- _]; split; discriminate|].
    destruct (lookup_address _ _ _ _) as [[]|]; try (intros [= <- _]; split; discriminate).
    destruct (insert_requested _ _ _ _ _) as [tx' [|[id a]]];
      [intros [= <- _]; split; discriminate|].
    unfold AllocateIP_commit. destruct (drv StCommit); [intros [= <- _]; split; discriminate|].
    cbn. destruct (ParseIP_of_text a); intros [= <- _]; split; discriminate.
  - destruct (ParseCIDR_of_text (nr_cidr n)) as [ipNet|] eqn:Ec;
      [|destruct (ParseCIDR_of_text_wf _ Hc Ec)].
    destruct (AllocateIP_loop _ _ _ _ _ _ _ _) as [r|] eqn:El; [|discriminate].
    apply AllocateIP_loop_cases in El; [|eapply select_network_exists; eauto].
    cbn [v_tx v_err] in El.
    destruct El as [(c & HC & HE & HO & ->)|[(e' & He & ->)| ->]].
    + cbn [v_err v_tx v_id v_addressStr vars_inserted].
      rewrite AllocateIP_commit_is_inet
        by (apply to_inet_is_inet; eapply Contains_is_inet; eauto).
      destruct (drv StCommit); intros [= <- _]; split; discriminate.
    + cbn [v_err v_tx v_id v_addressStr vars_refused].
      destruct He as [->| ->]; [|intros [= <- _]; split; discriminate].
      unfold AllocateIP_commit. cbn.
      destruct (drv StCommit); intros [= <- _]; split; discriminate.
    + intros [= <- _]. split; discriminate.
Qed.

Lemma AllocateIP_parse_errors_dead_witness :
  HostnameInUse "h2" <> InvalidGatewayIP /\ HostnameInUse "h2" <> FailedParseCIDR.
Proof.
  apply (AllocateIP_parse_errors_dead reliable 0 Scenario.db_two 1 None "h2"
           (HostnameInUse "h2") Scenario.db_two reachable_db_two).
  reflexivity.
Defined.

(* ================================================================= *)
(** * The read operations *)

Lemma select_network_unique db n :
  List.NoDup (map nr_id (networks db)) -> In n (networks db) ->
  select_network db (nr_id n) = [n].
Proof.
  unfold select_network. induction (networks db) as [|x l IH]; cbn [map List.filter];
    [intros _ []|].
  intros Hnd Hin. apply List.NoDup_cons_iff in Hnd. destruct Hnd as [Hx Hnd].
  assert (Hnone : forall l', ~ In (nr_id n) (map nr_id l') ->
                             List.filter (fun n0 => nr_id n0 =? nr_id n) l' = []).
  { induction l' as [|y l' IHl']; cbn; [reflexivity|]. intros Hn.
    destruct (Z.eqb_spec (nr_id y) (nr_id n)) as [E|E]; [exfalso; auto|].
    apply IHl'. auto. }
  destruct Hin as [->|Hin].
  - rewrite Z.eqb_refl, Hnone by exact Hx. reflexivity.
  - destruct (Z.eqb_spec (nr_id x) (nr_id n)) as [E|E].
    + exfalso. apply Hx. rewrite E. apply in_map, Hin.
    + apply IH; assumption.
Qed.

Lemma GetNetwork_found db n :
  store_inv db -> In n (networks db) ->
  GetNetwork read_reliable db (nr_id n)
  = inr (Some {| Network_ID := nr_id n; Network_CIDR := nr_cidr n;
                 Network_Gateway := As16 (nr_gateway n) |})
  /\ length (As16 (nr_gateway n)) = 16%nat.
Proof.
  intros (Hwf & (_ & _ & I1 & _) & _) Hin. unfold GetNetwork. cbn [read_reliable].
  rewrite (select_network_unique db n I1 Hin). cbn [QueryRow head].
  unfold wf_db in Hwf. rewrite andb_true_iff, !forallb_forall in Hwf.
  destruct Hwf as [Hn _]. specialize (Hn n Hin). unfold wf_network in Hn.
  rewrite andb_true_iff in Hn. destruct Hn as [_ Hg].
  unfold network_of_row. rewrite (ParseIP_of_text_is_inet _ Hg). split; [reflexivity|].
  unfold is_inet in Hg. rewrite orb_true_iff, !Nat.eqb_eq in Hg. destruct Hg as [Hg|Hg].
  - rewrite (As16_v4 _ Hg), length_app, Hg. reflexivity.
  - rewrite (As16_16 _ Hg). exact Hg.
Qed.

(** X24. [GetNetwork] in a store the repository produced, on a driver
    that does not fail: for an id no network has it returns the pair
    (nil, nil), not an error; for the id of a network it returns that
    network, with the gateway in the 16-byte form [net.ParseIP] gives
    (the result of the parse, which the code does not check, is never
    nil). *)
Theorem GetNetwork_reachable db id :
  reachable db ->
  ((forall n, In n (networks db) -> nr_id n <> id) ->
   GetNetwork read_reliable db id = inr None)
  /\ (forall n, In n (networks db) -> nr_id n = id ->
      GetNetwork read_reliable db id
      = inr (Some {| Network_ID := id; Network_CIDR := nr_cidr n;
                     Network_Gateway := As16 (nr_gateway n) |})
      /\ length (As16 (nr_gateway n)) = 16%nat).
Proof.
  intros Hr. apply reachable_store_inv in Hr. split.
  - intros Hno. unfold GetNetwork. cbn [read_reliable].
    destruct (QueryRow (select_network db id)) as [n|] eqn:E; [|reflexivity].
    apply QueryRow_filter_Some in E. destruct E as [Hin E]. apply Z.eqb_eq in E.
    destruct (Hno n Hin E).
  - intros n Hin <-. apply GetNetwork_found; assumption.
Qed.

Lemma GetNetwork_reachable_witness :
  GetNetwork read_reliable Scenario.db_two 5 = inr None.
Proof.
  apply (GetNetwork_reachable Scenario.db_two 5 reachable_db_two).
  intros n [<-|[]]. discriminate.
Defined.

(** X25. Round trip of [CreateNetwork] and [GetNetwork]: in a store the
    repository produced, the network a successful [CreateNetwork]
    returns is found under its id, with the same CIDR and a gateway that
    is the same address ([Equal]); the gateway comes back in the 16-byte
    form, also when a 4-byte slice was stored. *)
Theorem GetNetwork_after_CreateNetwork drv db network created db' :
  reachable db ->
  CreateNetwork drv db network = (Ok created, db') ->
  exists got,
    GetNetwork read_reliable db' (Network_ID created) = inr (Some got)
    /\ Network_ID got = Network_ID created
    /\ Network_CIDR got = Network_CIDR network
    /\ Equal (Network_Gateway got) (Network_Gateway network) = true
    /\ length (Network_Gateway got) = 16%nat.
Proof.
  intros Hr H.
  assert (Hr' : reachable db') by (eapply reachable_step; [exact Hr | econstructor 1; eauto]).
  apply CreateNetwork_store_cases in H.
  destruct H as [[H _]|(g & Eg & _ & H & ->)]; [discriminate|].
  injection H as H. subst created. cbn [Network_ID]. apply inet_of_String_Some in Eg. destruct Eg as [Hi ->].
  set (n := {| nr_id := networks_id_seq db + 1; nr_cidr := Network_CIDR network;
               nr_gateway := to_inet (Network_Gateway network) |}).
  assert (Hin : In n (networks (fst (insert_network db (Network_CIDR network)
                                       (to_inet (Network_Gateway network))))))
    by (cbn; apply in_app_iff; right; left; reflexivity).
  destruct (GetNetwork_found _ n (reachable_store_inv _ Hr') Hin) as [HG HL].
  eexists. split; [exact HG|]. cbn [Network_ID Network_CIDR Network_Gateway nr_cidr n].
  repeat split; [|exact HL]. apply Equal_As16_inet_true, Hi.
Qed.

Lemma GetNetwork_after_CreateNetwork_witness :
  exists got,
    GetNetwork read_reliable Scenario.db_net30 1 = inr (Some got)
    /\ Network_ID got = 1
    /\ Network_CIDR got = {| cidr_addr := [10; 0; 0; 0]; cidr_bits := 30 |}
    /\ Equal (Network_Gateway got) (IPv4 10 0 0 1) = true
    /\ length (Network_Gateway got) = 16%nat.
Proof.
  apply (GetNetwork_after_CreateNetwork reliable empty_db Scenario.net30
           {| Network_ID := 1;
              Network_CIDR := {| cidr_addr := [10; 0; 0; 0]; cidr_bits := 30 |};
              Network_Gateway := IPv4 10 0 0 1 |}
           Scenario.db_net30 reachable_empty).
  reflexivity.
Defined.

Lemma ListNetworks_loop_spec drv : forall rows k acc j,
  (j <= length rows)%nat ->
  (forall i, (i < j)%nat -> drv (StNext (k + i)) = false) ->
  ((j < length rows)%nat -> drv (StNext (k + j)) = true) ->
  ListNetworks_loop drv k rows acc = acc ++ map network_of_row (firstn j rows).
Proof.
  induction rows as [|n rows IH]; intros k acc j Hj Hok Hfail; cbn [ListNetworks_loop].
  - rewrite firstn_nil. cbn. rewrite app_nil_r. reflexivity.
  - destruct j as [|j].
    + rewrite Nat.add_0_r in Hfail. rewrite Hfail by (cbn; lia).
      cbn. rewrite app_nil_r. reflexivity.
    + pose proof (Hok 0%nat ltac:(lia)) as H0. rewrite Nat.add_0_r in H0. rewrite H0.
      rewrite (IH (S k) _ j).
      * cbn [firstn map]. rewrite <- app_assoc. reflexivity.
      * cbn in Hj. lia.
      * intros i Hi. replace (S k + i)%nat with (k + S i)%nat by lia. apply Hok. lia.
      * intros Hlt. replace (S k + j)%nat with (k + S j)%nat by lia. apply Hfail.
        cbn. lia.
Qed.

(** X26. [ListNetworks] returns the networks in the order the query
    yields them, up to the first row the driver fails to fetch: the loop
    ends there as at the last row, [rows.Err()] is not looked at, and
    the caller gets the networks before it without an error. On a driver
    that does not fail the list is complete. *)
Theorem ListNetworks_truncated drv db j :
  drv StQueryNetworks = false ->
  (j <= length (networks db))%nat ->
  (forall i, (i < j)%nat -> drv (StNext i) = false) ->
  ((j < length (networks db))%nat -> drv (StNext j) = true) ->
  ListNetworks drv db = inr (map network_of_row (firstn j (networks db))).
Proof.
  intros Hq Hj Hok Hfail. unfold ListNetworks. rewrite Hq.
  rewrite (ListNetworks_loop_spec drv (networks db) 0 [] j); auto.
Qed.

Lemma ListNetworks_truncated_witness :
  ListNetworks (Scenario2.next_fails 1) Scenario2.db_two_nets
  = inr (map network_of_row (firstn 1 (networks Scenario2.db_two_nets)))
  /\ ListNetworks read_reliable Scenario2.db_two_nets
     = inr (map network_of_row (firstn 2 (networks Scenario2.db_two_nets))).
Proof.
  split.
  - apply (ListNetworks_truncated (Scenario2.next_fails 1) Scenario2.db_two_nets 1).
    + reflexivity.
    + vm_compute. lia.
    + intros [|i] Hi; [reflexivity | lia].
    + reflexivity.
  - apply (ListNetworks_truncated read_reliable Scenario2.db_two_nets 2).
    + reflexivity.
    + vm_compute. lia.
    + reflexivity.
    + vm_compute. lia.
Defined.

Lemma ListIPs_loop_spec : forall rows k acc,
  ListIPs_loop read_reliable k rows acc =
  if forallb (fun r => match ir_hostname r with Some _ => true | None => false end) rows
  then inr (acc ++ map (fun r =>
                          {| ID := ir_id r; NetworkID := ir_network_id r;
                             Address := default [] (ParseIP_of_text (ir_address r));
                             Hostname := default ""%string (ir_hostname r);
                             Status := ir_status r |}) rows)
  else inl FailedScanIPRow.
Proof.
  induction rows as [|r rows IH]; intros k acc; cbn [ListIPs_loop forallb map read_reliable].
  - rewrite app_nil_r. reflexivity.
  - destruct (ir_hostname r) as [hostname|]; cbn [Scan_string andb]; [|reflexivity].
    rewrite IH. destruct (forallb _ rows); [|reflexivity].
    rewrite <- app_assoc. reflexivity.
Qed.

Lemma ListIPs_reliable_error db networkID r :
  In r (ip_addresses db) -> ir_network_id r = networkID -> ir_hostname r = None ->
  ListIPs read_reliable db networkID = inl FailedScanIPRow.
Proof.
  intros Hin En Eh. unfold ListIPs. cbn [read_reliable]. rewrite ListIPs_loop_spec.
  destruct (forallb _ (select_ips_of db networkID)) eqn:E; [|reflexivity].
  rewrite forallb_forall in E.
  assert (Hs : In r (select_ips_of db networkID))
    by (apply filter_In; split; [exact Hin | apply Z.eqb_eq, En]).
  specialize (E r Hs). rewrite Eh in E. discriminate.
Qed.

(** X27. [ListIPs] on a driver that does not fail returns an error if
    and only if some record of the network has a NULL hostname;
    otherwise it returns one record per row of the network, in the order
    the query yields them, with the fields of the row. *)
Theorem ListIPs_null_hostname db networkID :
  (ListIPs read_reliable db networkID = inl FailedScanIPRow <->
   exists r, In r (ip_addresses db) /\ ir_network_id r = networkID
             /\ ir_hostname r = None)
  /\ (forall ips, ListIPs read_reliable db networkID = inr ips ->
      Forall2 (fun r ip =>
                 ID ip = ir_id r /\ NetworkID ip = networkID
                 /\ Address ip = default [] (ParseIP_of_text (ir_address r))
                 /\ ir_hostname r = Some (Hostname ip) /\ Status ip = ir_status r)
              (select_ips_of db networkID) ips).
Proof.
  split.
  - split; [|intros (r & Hin & En & Eh); eapply ListIPs_reliable_error; eauto].
    unfold ListIPs. cbn [read_reliable]. rewrite ListIPs_loop_spec.
    destruct (forallb _ (select_ips_of db networkID)) eqn:E; [discriminate|]. intros _.
    assert (Hex : existsb (fun r => negb match ir_hostname r with
                                         | Some _ => true | None => false end)
                          (select_ips_of db networkID) = true).
    { clear -E. induction (select_ips_of db networkID) as [|r rows IH]; [discriminate|].
      cbn in E |- *. destruct (ir_hostname r); cbn in *; auto. }
    apply existsb_exists in Hex. destruct Hex as (r & Hin & Hr).
    apply filter_In in Hin. destruct Hin as [Hin En]. apply Z.eqb_eq in En.
    exists r. destruct (ir_hostname r); [discriminate|]. auto.
  - unfold ListIPs. cbn [read_reliable]. rewrite ListIPs_loop_spec. cbn [app].
    destruct (forallb _ (select_ips_of db networkID)) eqn:E; [|discriminate].
    rewrite forallb_forall in E. intros ips [= <-].
    assert (Hnet : forall r, In r (select_ips_of db networkID) ->
                             ir_network_id r = networkID)
      by (intros r Hin; apply filter_In in Hin; apply Z.eqb_eq, Hin).
    induction (select_ips_of db networkID) as [|r rows IH]; cbn [map]; constructor.
    + cbn. specialize (E r (or_introl eq_refl)).
      destruct (ir_hostname r); [|discriminate].
      repeat split. apply Hnet. left. reflexivity.
    + apply IH; intros r' Hin; [apply E | apply Hnet]; right; exact Hin.
Qed.

Lemma ListIPs_null_hostname_witness :
  ListIPs read_reliable Scenario.db_released 1 = inl FailedScanIPRow.
Proof.
  apply (proj1 (ListIPs_null_hostname Scenario.db_released 1)).
  eexists. split; [left; reflexivity|]. split; reflexivity.
Defined.

(** X28. A successful [ReleaseIP] breaks the listing of the network of
    the released record: [ListIPs] of that network then returns the
    error of the scan, on a driver that does not fail, until every
    released record of the network has a hostname again. *)
Theorem ListIPs_after_ReleaseIP drv db id db' :
  ReleaseIP drv db id = (Ok tt, db') ->
  exists r, In r (ip_addresses db) /\ ir_id r = id
            /\ ListIPs read_reliable db' (ir_network_id r) = inl FailedScanIPRow.
Proof.
  intros H. apply ReleaseIP_cases in H.
  destruct H as [[_ H]|[-> Hsel]]; [destruct H; reflexivity|]. specialize (Hsel eq_refl).
  destruct (select_ip db id) as [|r l] eqn:E; [destruct Hsel; reflexivity|].
  assert (Hin : In r (select_ip db id)) by (rewrite E; left; reflexivity).
  apply filter_In in Hin. destruct Hin as [Hin Eid]. apply Z.eqb_eq in Eid.
  exists r. split; [exact Hin|]. split; [exact Eid|].
  apply (ListIPs_reliable_error _ _ (release_row r)); [|reflexivity|reflexivity].
  cbn [update_ip fst ip_addresses]. apply in_map_iff. exists r.
  rewrite (proj2 (Z.eqb_eq _ _) Eid). auto.
Qed.

Lemma ListIPs_after_ReleaseIP_witness :
  exists r, In r (ip_addresses Scenario.db_one) /\ ir_id r = 1
            /\ ListIPs read_reliable Scenario.db_released (ir_network_id r)
               = inl FailedScanIPRow.
Proof.
  apply (ListIPs_after_ReleaseIP reliable Scenario.db_one 1 Scenario.db_released).
  reflexivity.
Defined.
